(** * classic2d-sandbox: debug-draw batching, pause/step control and the
      render loop, embedded from the TypeScript sources.

    JavaScript numbers are kept abstract (a type [F] with the operations
    the code applies).  Counters and array indices are [nat]; the code
    halves them, always at even values (part of the invariants below), so
    that the division is exact.  A method that can throw (reading a hole
    of a JS array and then dereferencing it) returns [option]; [None] is
    the uncaught exception.  Calls made on the WebGL context, on the 2d
    canvas context and on the other browser or physics-engine objects are
    recorded, in program order, in traces. *)

From stdpp Require Import base option list strings pretty.
From Stdlib Require Import ZArith Lia ZifyNat.

(** [lia] also decides goals with division and remainder by a constant. *)
Ltac Zify.zify_post_hook ::= Z.to_euclidean_division_equations.

Set Default Proof Using "Type".

(** ** classic2d value types used by the sandbox *)

Module Vec2.
Record t (F : Type) := mk { x : F; y : F }.
Arguments mk {F} _ _.
Arguments x {F} _.
Arguments y {F} _.
End Vec2.

(** [Color] is indexable: [color[j]] is component [j]. *)
Definition Color (F : Type) := nat -> F.

(** JavaScript numbers with the operations the sandbox applies to them.
    [of_nat n] is the literal [n], [fround] the rounding done by a store
    into a [Float32Array], [toFixed d] is [Number.prototype.toFixed]. *)
Class Number (F : Type) := {
  of_nat : nat -> F;
  fadd : F -> F -> F;
  fsub : F -> F -> F;
  fmul : F -> F -> F;
  fdiv : F -> F -> F;
  fneg : F -> F;
  fround : F -> F;
  Math_PI : F;
  Math_cos : F -> F;
  Math_sin : F -> F;
  Math_pow : F -> F -> F;
  Math_floor : F -> F;
  toString : F -> string;
  toFixed : nat -> F -> string
}.

(** The part of classic2d's [Mat4] the sandbox calls.  The methods update
    the matrix in place and return it; here they return the new value.
    The third argument of [translate] is optional. *)
Class Mat4Ops (F M : Type) := {
  Mat4_new : M;
  Mat4_ortho : F -> F -> F -> F -> F -> F -> M;
  Mat4_translate : F -> F -> option F -> M -> M;
  Mat4_rotate : F -> M -> M;
  Mat4_scale : F -> F -> F -> M -> M
}.

(** Constants of classic2d. *)
Class Classic2d (F : Type) := {
  COLOR_COMPONENTS : nat;
  COLORS_CONTACT : Color F
}.

(** ** JavaScript array primitives *)

(** [a[i] = v] on a plain JS [Array]: inside the array the slot is
    replaced, past its end the array grows and the skipped slots are
    holes. *)
Definition array_set {A} (i : nat) (v : A) (a : list (option A)) : list (option A) :=
  if decide (i < length a) then <[i := Some v]> a
  else a ++ replicate (i - length a) None ++ [Some v].

(** [a[i]] on a plain JS [Array]: a hole and an index past the end both
    read [undefined]. *)
Definition array_get {A} (a : list (option A)) (i : nat) : option A :=
  mjoin (a !! i).

(** [a[i] = v] on a typed array ([Float32Array]): the length is fixed and
    an out-of-range store is dropped, which is what list insert does. *)
Definition typed_set {A} (i : nat) (v : A) (a : list A) : list A := <[i := v]> a.

(** ** The WebGL context as a trace of calls *)

Module GL.
Inductive target := ARRAY_BUFFER | ELEMENT_ARRAY_BUFFER.
Inductive mode := POINTS | LINES.
Inductive shader_type := VERTEX_SHADER | FRAGMENT_SHADER.

(** Handles ([WebGLBuffer], [WebGLProgram], [WebGLShader], uniform
    locations) are numbered objects; [None] is [null]. *)
Definition handle := nat.

Inductive data (F : Type) :=
| Float32Array (l : list F)
| Uint16Array (l : list nat).
Arguments Float32Array {F} _.
Arguments Uint16Array {F} _.

Inductive call (F M : Type) :=
| createShader (ty : shader_type) (result : handle)
| shaderSource (s : option handle) (src : string)
| compileShader (s : option handle)
| deleteShader (s : option handle)
| createProgram (result : handle)
| attachShader (p : option handle) (s : option handle)
| linkProgram (p : option handle)
| useProgram (p : option handle)
| bindBuffer (t : target) (b : handle)
| bufferData (t : target) (d : data F)
| vertexAttribPointer (loc : Z) (size : nat)
| enableVertexAttribArray (loc : Z)
| uniformMatrix4fv (loc : option handle) (m : M)
| drawElements (md : mode) (count : nat) (byte_offset : nat)
| viewport (x y w h : F)
| clearColor (r g b a : F)
| clearDepth (d : F)
| enable_DEPTH_TEST
| depthFunc_LEQUAL
| clear_COLOR_DEPTH.
Arguments createShader {F M} _ _.
Arguments shaderSource {F M} _ _.
Arguments compileShader {F M} _.
Arguments deleteShader {F M} _.
Arguments createProgram {F M} _.
Arguments attachShader {F M} _ _.
Arguments linkProgram {F M} _.
Arguments useProgram {F M} _.
Arguments bindBuffer {F M} _ _.
Arguments bufferData {F M} _ _.
Arguments vertexAttribPointer {F M} _ _.
Arguments enableVertexAttribArray {F M} _.
Arguments uniformMatrix4fv {F M} _ _.
Arguments drawElements {F M} _ _ _.
Arguments viewport {F M} _ _ _ _.
Arguments clearColor {F M} _ _ _ _.
Arguments clearDepth {F M} _.
Arguments enable_DEPTH_TEST {F M}.
Arguments depthFunc_LEQUAL {F M}.
Arguments clear_COLOR_DEPTH {F M}.

(** Number of indices a call draws in mode [md]. *)
Definition draws {F M} (md : mode) (c : call F M) : nat :=
  match md, c with
  | LINES, drawElements LINES n _ => n
  | POINTS, drawElements POINTS n _ => n
  | _, _ => 0
  end.

(** Number of line vertices, and of points, drawn by a trace. *)
Definition drawn_lines {F M} (gl : list (call F M)) : nat :=
  sum_list_with (draws LINES) gl.
Definition drawn_points {F M} (gl : list (call F M)) : nat :=
  sum_list_with (draws POINTS) gl.

(** The shader objects a trace deletes, in order. *)
Definition deleted_shaders {F M} (gl : list (call F M)) : list (option handle) :=
  omap (fun c => match c with deleteShader s => Some s | _ => None end) gl.
End GL.

(** ** Camera *)

Module Camera.
Record t (F : Type) := mk { center : Vec2.t F; zoom : F; width : F; height : F }.
Arguments mk {F} _ _ _ _.
Arguments center {F} _.
Arguments zoom {F} _.
Arguments width {F} _.
Arguments height {F} _.

Section Methods.
Context {F M : Type} `{!Number F} `{!Mat4Ops F M}.

Definition K : F := of_nat 100.
Definition ZOOM_K : F := fdiv (of_nat 10) (of_nat 9).

Definition new (x y zoom width height : F) : t F :=
  mk (Vec2.mk x y) zoom width height.

Definition buildProjectionMatrix (c : t F) : M :=
  let near := fdiv (of_nat 1) (of_nat 10) in
  let far := of_nat 100 in
  let right := fdiv (width c) (fmul (of_nat 2) K) in
  let left := fneg right in
  let top := fdiv (height c) (fmul (of_nat 2) K) in
  let bottom := fneg top in
  let projection := Mat4_ortho left right bottom top near far in
  let projection :=
    Mat4_translate (of_nat 0) (of_nat 0) (Some (fneg (of_nat 10))) projection in
  let z := Math_pow ZOOM_K (zoom c) in
  let projection := Mat4_scale z z z projection in
  Mat4_translate (fneg (Vec2.x (center c))) (fneg (Vec2.y (center c))) None
    projection.

Definition move (offset : Vec2.t F) (c : t F) : t F :=
  let x := fdiv (Vec2.x offset) K in
  let y := fdiv (Vec2.y offset) K in
  let z := Math_pow ZOOM_K (zoom c) in
  mk (Vec2.mk (fadd (Vec2.x (center c)) (fdiv x z))
              (fadd (Vec2.y (center c)) (fdiv y z)))
     (zoom c) (width c) (height c).
End Methods.
End Camera.

(** ** RenderLine *)

Module RenderLine.

Module Entry.
Record t (M : Type) := mk { matrix : M; offset : nat; count : nat }.
Arguments mk {M} _ _ _.
Arguments matrix {M} _.
Arguments offset {M} _.
Arguments count {M} _.
End Entry.

Record ProgramInfo := {
  program : option GL.handle;
  vertexPosition : Z;
  colorPosition : Z;
  projectionMatrix : option GL.handle;
  modelViewMatrix : option GL.handle
}.

Definition MAX_MATRICES : nat := 512.
Definition MAX_VERTICES : nat := MAX_MATRICES * 2.
Definition MAX_COLORS : nat := MAX_MATRICES * 4.
Definition MAX_INDICES : nat := MAX_MATRICES.

Record t (F M : Type) := mk {
  vertices : list F;
  colors : list F;
  count : nat;
  matrices : list (option (Entry.t M));
  indices : list nat;
  matricesCount : nat;
  vertexBuffer : GL.handle;
  colorBuffer : GL.handle;
  indexBuffer : GL.handle;
  programInfo : ProgramInfo
}.
Arguments mk {F M} _ _ _ _ _ _ _ _ _ _.
Arguments vertices {F M} _.
Arguments colors {F M} _.
Arguments count {F M} _.
Arguments matrices {F M} _.
Arguments indices {F M} _.
Arguments matricesCount {F M} _.
Arguments vertexBuffer {F M} _.
Arguments colorBuffer {F M} _.
Arguments indexBuffer {F M} _.
Arguments programInfo {F M} _.

(** The methods take the context trace with the object, and the state
    of the [Camera] object, which the renderer shares with the sandbox,
    at the time of the call. *)
Section Methods.
Context {F M : Type} `{!Number F} `{!Mat4Ops F M} `{!Classic2d F}.

Abbreviation state := (t F M).
Abbreviation trace := (list (GL.call F M)).

Definition set_count (n : nat) (r : state) : state :=
  mk (vertices r) (colors r) n (matrices r) (indices r) (matricesCount r)
     (vertexBuffer r) (colorBuffer r) (indexBuffer r) (programInfo r).

Definition set_matricesCount (n : nat) (r : state) : state :=
  mk (vertices r) (colors r) (count r) (matrices r) (indices r) n
     (vertexBuffer r) (colorBuffer r) (indexBuffer r) (programInfo r).

Definition set_vertices (v : list F) (r : state) : state :=
  mk v (colors r) (count r) (matrices r) (indices r) (matricesCount r)
     (vertexBuffer r) (colorBuffer r) (indexBuffer r) (programInfo r).

Definition set_colors (c : list F) (r : state) : state :=
  mk (vertices r) c (count r) (matrices r) (indices r) (matricesCount r)
     (vertexBuffer r) (colorBuffer r) (indexBuffer r) (programInfo r).

Definition set_matrices (m : list (option (Entry.t M))) (r : state) : state :=
  mk (vertices r) (colors r) (count r) m (indices r) (matricesCount r)
     (vertexBuffer r) (colorBuffer r) (indexBuffer r) (programInfo r).

(** The field initialisers and the index loop of the constructor; the
    handles and the program come from the context. *)
Definition new (vb cb ib : GL.handle) (pi : ProgramInfo) : state :=
  mk (replicate MAX_VERTICES (of_nat 0)) (replicate MAX_COLORS (of_nat 0)) 0
     (replicate MAX_MATRICES None) (seq 0 MAX_INDICES) 0 vb cb ib pi.

(** [this.matrices[this.matricesCount++] = { matrix, offset, count }] *)
Definition push_matrix (e : Entry.t M) (r : state) : state :=
  set_matricesCount (S (matricesCount r))
    (set_matrices (array_set (matricesCount r) e (matrices r)) r).

(** The entries the draw loop of [flush] reads: [matrices[i]] for
    [i < matricesCount]; reading a hole throws at [matrix.matrix]. *)
Definition recorded (r : state) : option (list (Entry.t M)) :=
  mapM (array_get (matrices r)) (seq 0 (matricesCount r)).

Definition draw_entry (pi : ProgramInfo) (e : Entry.t M) : trace :=
  [ GL.uniformMatrix4fv (modelViewMatrix pi) (Entry.matrix e);
    GL.drawElements GL.LINES (Entry.count e) (Entry.offset e * 2) ].

(** The calls of one upload, for the entries [es]. *)
Definition flush_calls (camera : Camera.t F) (r : state) (es : list (Entry.t M)) : trace :=
  let pi := programInfo r in
  [ GL.useProgram (program pi);
    GL.bindBuffer GL.ARRAY_BUFFER (vertexBuffer r);
    GL.bufferData GL.ARRAY_BUFFER (GL.Float32Array (vertices r));
    GL.vertexAttribPointer (vertexPosition pi) 2;
    GL.enableVertexAttribArray (vertexPosition pi);
    GL.bindBuffer GL.ARRAY_BUFFER (colorBuffer r);
    GL.bufferData GL.ARRAY_BUFFER (GL.Float32Array (colors r));
    GL.vertexAttribPointer (colorPosition pi) COLOR_COMPONENTS;
    GL.enableVertexAttribArray (colorPosition pi);
    GL.bindBuffer GL.ELEMENT_ARRAY_BUFFER (indexBuffer r);
    GL.uniformMatrix4fv (projectionMatrix pi) (Camera.buildProjectionMatrix camera) ]
  ++ flat_map (draw_entry pi) es
  ++ [ GL.useProgram None ].

Definition flush (camera : Camera.t F) (st : trace * state) : option (trace * state) :=
  let '(gl, r) := st in
  if matricesCount r =? 0 then Some (gl, r)
  else
    es ← recorded r;
    Some (gl ++ flush_calls camera r es,
          set_matricesCount 0 (set_count 0 r)).

(** The inner loop over [j < COLOR_COMPONENTS]. *)
Definition write_color (offset : nat) (color : Color F) (cs : list F) : list F :=
  foldl (fun cs j => typed_set (offset + j) (fround (color j)) cs)
        cs (seq 0 COLOR_COMPONENTS).

(** The two stores [vertices[count++] = x; vertices[count++] = y] and
    the color stores of one loop iteration. *)
Definition write_vertex (p : Vec2.t F) (color : Color F) (r : state) : state :=
  let c := count r in
  let v := typed_set (S c) (fround (Vec2.y p))
             (typed_set c (fround (Vec2.x p)) (vertices r)) in
  let c2 := S (S c) in
  let offset := (c2 / 2 - 1) * COLOR_COMPONENTS in
  set_colors (write_color offset color (colors r))
    (set_count c2 (set_vertices v r)).

(** Loop state: [lastVertices], the context trace and the object. *)
Definition loop_state : Type := nat * trace * state.

(** [{ matrix, offset: lastVertices / 2, count: (this.count - lastVertices) / 2 }],
    the entry for the vertices written since [lastVertices]. *)
Definition pending_entry (matrix : M) (lastVertices : nat) (r : state) : Entry.t M :=
  Entry.mk matrix (lastVertices / 2) ((count r - lastVertices) / 2).

(** The [if (i > 0)] block in front of the intra-call [flush]. *)
Definition before_flush (matrix : M) (i lastVertices : nat) (r : state) : state :=
  if 0 <? i then push_matrix (pending_entry matrix lastVertices r) r else r.

(** One iteration of the [for] loop of [addVertices], at index [i]. *)
Definition addVertices_body (camera : Camera.t F) (matrix : M) (color : Color F)
    (i : nat) (p : Vec2.t F) (ls : loop_state) : option loop_state :=
  let '(lastVertices, gl, r) := ls in
  '(lastVertices, gl, r) ←
    (if count r =? MAX_VERTICES then
       '(gl2, r2) ← flush camera (gl, before_flush matrix i lastVertices r);
       Some (count r2, gl2, r2)
     else Some (lastVertices, gl, r));
  Some (lastVertices, gl, write_vertex p color r).

Fixpoint addVertices_loop (camera : Camera.t F) (matrix : M) (color : Color F)
    (i : nat) (ps : list (Vec2.t F)) (ls : loop_state) : option loop_state :=
  match ps with
  | [] => Some ls
  | p :: ps' =>
      ls' ← addVertices_body camera matrix color i p ls;
      addVertices_loop camera matrix color (S i) ps' ls'
  end.

Definition addVertices (camera : Camera.t F) (matrix : M) (ps : list (Vec2.t F))
    (color : Color F) (st : trace * state) : option (trace * state) :=
  let '(gl, r) := st in
  '(lastVertices, gl, r) ←
    addVertices_loop camera matrix color 0 ps (count r, gl, r);
  Some (gl, push_matrix (pending_entry matrix lastVertices r) r).

(** Calls a client can make on a [RenderLine]. *)
Inductive op :=
| AddVertices (matrix : M) (ps : list (Vec2.t F)) (color : Color F)
| Flush.

Definition exec (camera : Camera.t F) (o : op) (st : trace * state) : option (trace * state) :=
  match o with
  | AddVertices matrix ps color => addVertices camera matrix ps color st
  | Flush => flush camera st
  end.

Fixpoint run (camera : Camera.t F) (os : list op) (st : trace * state) : option (trace * state) :=
  match os with
  | [] => Some st
  | o :: os' => st' ← exec camera o st; run camera os' st'
  end.

(** The loop state of a call [addVertices(matrix, ps ++ ..., color)]
    made on a fresh object after the calls [os], once the loop has
    gone through the points [ps]. *)
Definition at_loop_head (camera : Camera.t F) (vb cb ib : GL.handle)
    (pi : ProgramInfo) (os : list op) (matrix : M) (color : Color F)
    (ps : list (Vec2.t F)) : option loop_state :=
  '(gl, r) ← run camera os ([], new vb cb ib pi);
  addVertices_loop camera matrix color 0 ps (count r, gl, r).

(** *** Specification vocabulary *)

(** The entries [es] tile the vertex range from [from] to [to]:
    each starts where the previous one ends. *)
Fixpoint contiguous (es : list (Entry.t M)) (from to : nat) : Prop :=
  match es with
  | [] => from = to
  | e :: es' => Entry.offset e = from /\ contiguous es' (from + Entry.count e) to
  end.

Definition in_buffer (es : list (Entry.t M)) (n : nat) : Prop :=
  Forall (fun e => Entry.offset e + Entry.count e <= n) es.

Definition ordered_disjoint (es : list (Entry.t M)) : Prop :=
  forall i e1 e2, es !! i = Some e1 -> es !! S i = Some e2 ->
    Entry.offset e1 + Entry.count e1 <= Entry.offset e2.

Definition total (es : list (Entry.t M)) : nat := sum_list_with Entry.count es.

(** The entries partition the first [n] vertices of the buffer. *)
Definition partitions (es : list (Entry.t M)) (n : nat) : Prop :=
  in_buffer es n /\ ordered_disjoint es /\ total es = n.

(** What holds of the object between two calls. *)
Definition invariant (r : state) : Prop :=
  exists es, recorded r = Some es
    /\ contiguous es 0 (count r / 2)
    /\ count r mod 2 = 0
    /\ count r <= MAX_VERTICES.

(** What holds at the head of the loop of [addVertices], before
    iteration [i]. *)
Definition loop_invariant (i lastVertices : nat) (r : state) : Prop :=
  exists es, recorded r = Some es
    /\ contiguous es 0 (lastVertices / 2)
    /\ lastVertices mod 2 = 0
    /\ count r mod 2 = 0
    /\ lastVertices <= count r
    /\ count r <= MAX_VERTICES
    /\ (i = 0 -> lastVertices = count r).

(** Number of points the [AddVertices] calls of a sequence pass. *)
Definition points_of (o : op) : nat :=
  match o with AddVertices _ ps _ => length ps | Flush => 0 end.

(** The stores of the iterations that meet no full buffer. *)
Definition write_all (color : Color F) (ps : list (Vec2.t F)) (r : state) : state :=
  foldl (fun r p => write_vertex p color r) r ps.

(** The coordinates a list of points leaves in the vertex buffer. *)
Definition coords (ps : list (Vec2.t F)) : list F :=
  flat_map (fun p => [fround (Vec2.x p); fround (Vec2.y p)]) ps.


(** The values the colour loop stores for one vertex. *)
Definition components (color : Color F) : list F :=
  (fun j => fround (color j)) <$> seq 0 COLOR_COMPONENTS.

(** The points a call passes, and their colour values. *)
Definition passed (o : op) : list (Vec2.t F) :=
  match o with AddVertices _ ps _ => ps | Flush => [] end.

Definition passed_colors (o : op) : list F :=
  match o with
  | AddVertices _ ps color => flat_map (fun _ => components color) ps
  | Flush => []
  end.

Definition is_flush (o : op) : bool :=
  match o with Flush => true | AddVertices _ _ _ => false end.

(** The entries that calls of [addVertices] record when the first of
    them finds [from] vertices in the buffer and all of them fit. *)
Fixpoint layout (from : nat) (os : list op) : list (Entry.t M) :=
  match os with
  | [] => []
  | AddVertices matrix ps _ :: os' =>
      Entry.mk matrix from (length ps) :: layout (from + length ps) os'
  | Flush :: os' => layout from os'
  end.

(** Every entry, and every draw call of a trace, takes an even number
    of vertices, that is, whole line segments. *)
Definition whole_entries (es : list (Entry.t M)) : Prop :=
  Forall (fun e => Entry.count e mod 2 = 0) es.

Definition whole_draws (gl : trace) : Prop :=
  Forall (fun c => GL.draws GL.LINES c mod 2 = 0) gl.

(** A call that passes at least one point. *)
Definition nonempty (o : op) : Prop :=
  match o with AddVertices _ ps _ => ps <> [] | Flush => True end.
End Methods.
Arguments op : clear implicits.
End RenderLine.

(** ** RenderPoint *)

Module RenderPoint.

Record ProgramInfo := {
  program : option GL.handle;
  vertexPosition : Z;
  colorPosition : Z;
  projectionMatrix : option GL.handle
}.

Definition MAX_VERTICES : nat := 512.
Definition MAX_COLORS : nat := MAX_VERTICES * 2.
Definition MAX_INDICES : nat := MAX_VERTICES / 2.

Record t (F : Type) := mk {
  vertices : list F;
  colors : list F;
  count : nat;
  indices : list nat;
  vertexBuffer : GL.handle;
  colorBuffer : GL.handle;
  indexBuffer : GL.handle;
  programInfo : ProgramInfo
}.
Arguments mk {F} _ _ _ _ _ _ _ _.
Arguments vertices {F} _.
Arguments colors {F} _.
Arguments count {F} _.
Arguments indices {F} _.
Arguments vertexBuffer {F} _.
Arguments colorBuffer {F} _.
Arguments indexBuffer {F} _.
Arguments programInfo {F} _.

Section Methods.
Context {F M : Type} `{!Number F} `{!Mat4Ops F M} `{!Classic2d F}.

Abbreviation state := (t F).
Abbreviation trace := (list (GL.call F M)).

Definition set_count (n : nat) (r : state) : state :=
  mk (vertices r) (colors r) n (indices r)
     (vertexBuffer r) (colorBuffer r) (indexBuffer r) (programInfo r).

Definition new (vb cb ib : GL.handle) (pi : ProgramInfo) : state :=
  mk (replicate MAX_VERTICES (of_nat 0)) (replicate MAX_COLORS (of_nat 0)) 0
     (seq 0 MAX_INDICES) vb cb ib pi.

Definition flush_calls (camera : Camera.t F) (r : state) : trace :=
  let pi := programInfo r in
  [ GL.useProgram (program pi);
    GL.bindBuffer GL.ARRAY_BUFFER (vertexBuffer r);
    GL.bufferData GL.ARRAY_BUFFER (GL.Float32Array (vertices r));
    GL.vertexAttribPointer (vertexPosition pi) 2;
    GL.enableVertexAttribArray (vertexPosition pi);
    GL.bindBuffer GL.ARRAY_BUFFER (colorBuffer r);
    GL.bufferData GL.ARRAY_BUFFER (GL.Float32Array (colors r));
    GL.vertexAttribPointer (colorPosition pi) COLOR_COMPONENTS;
    GL.enableVertexAttribArray (colorPosition pi);
    GL.uniformMatrix4fv (projectionMatrix pi) (Camera.buildProjectionMatrix camera);
    GL.drawElements GL.POINTS (count r / 2) 0;
    GL.useProgram None ].

Definition flush (camera : Camera.t F) (st : trace * state) : trace * state :=
  let '(gl, r) := st in
  if count r =? 0 then (gl, r)
  else (gl ++ flush_calls camera r, set_count 0 r).

Definition write_color (offset : nat) (color : Color F) (cs : list F) : list F :=
  foldl (fun cs i => typed_set (offset + i) (fround (color i)) cs)
        cs (seq 0 COLOR_COMPONENTS).

Definition write_vertex (p : Vec2.t F) (color : Color F) (r : state) : state :=
  let c := count r in
  let v := typed_set (S c) (fround (Vec2.y p))
             (typed_set c (fround (Vec2.x p)) (vertices r)) in
  let c2 := S (S c) in
  let colorOffset := (c2 / 2 - 1) * COLOR_COMPONENTS in
  mk v (write_color colorOffset color (colors r)) c2 (indices r)
     (vertexBuffer r) (colorBuffer r) (indexBuffer r) (programInfo r).

Definition vertex (camera : Camera.t F) (p : Vec2.t F) (color : Color F)
    (st : trace * state) : trace * state :=
  let '(gl, r) :=
    if count (snd st) =? MAX_VERTICES then flush camera st else st in
  (gl, write_vertex p color r).

Inductive op :=
| Vertex (p : Vec2.t F) (color : Color F)
| Flush.

Definition exec (camera : Camera.t F) (o : op) (st : trace * state) : trace * state :=
  match o with
  | Vertex p color => vertex camera p color st
  | Flush => flush camera st
  end.

Definition run (camera : Camera.t F) (os : list op) (st : trace * state) : trace * state :=
  foldl (fun st o => exec camera o st) st os.

(** What holds of the object between two calls. *)
Definition invariant (r : state) : Prop :=
  count r mod 2 = 0 /\ count r <= MAX_VERTICES.

Definition points_of (o : op) : nat :=
  match o with Vertex _ _ => 1 | Flush => 0 end.


(** The points waiting for the next upload, with their colours, after
    the calls [os] on a fresh object: a flush empties the queue, and so
    does a [vertex] that finds it full, before it adds its own point. *)
Definition queue_step (q : list (Vec2.t F * Color F)) (o : op)
    : list (Vec2.t F * Color F) :=
  match o with
  | Vertex p color => (if length q =? MAX_INDICES then [] else q) ++ [(p, color)]
  | Flush => []
  end.

Definition queue (os : list op) : list (Vec2.t F * Color F) :=
  foldl queue_step [] os.

(** The object buffers exactly the queue [q]: its coordinates fill the
    front of the vertex array, its colour values the front of the
    colour array. *)
Definition holds (q : list (Vec2.t F * Color F)) (r : state) : Prop :=
  count r = 2 * length q
  /\ length q <= MAX_INDICES
  /\ length (vertices r) = MAX_VERTICES
  /\ take (count r) (vertices r) = RenderLine.coords q.*1.

Definition holds_colors (q : list (Vec2.t F * Color F)) (r : state) : Prop :=
  length (colors r) = MAX_COLORS
  /\ take (length q * COLOR_COMPONENTS) (colors r)
     = flat_map (fun pc => RenderLine.components pc.2) q.
End Methods.
Arguments op : clear implicits.
End RenderPoint.

(** ** The 2d canvas context as a trace of calls *)

Module G2D.
Inductive call (F : Type) :=
| clearRect (x y w h : F)
| set_fillStyle (s : string)
| set_font (s : string)
| set_textBaseline (s : string)
| fillText (text : string) (x y : F).
Arguments clearRect {F} _ _ _ _.
Arguments set_fillStyle {F} _.
Arguments set_font {F} _.
Arguments set_textBaseline {F} _.
Arguments fillText {F} _ _ _.
End G2D.

(** ** RenderText *)

Module RenderText.

Definition WHITE : string := "#FFFFFF".
Definition DEFAULT_SIZE : nat := 12.
Definition DEFAULT_FONT : string := "Courier New".

Module Text.
Record t (F : Type) := mk { text : string; x : F; y : F }.
Arguments mk {F} _ _ _.
Arguments text {F} _.
Arguments x {F} _.
Arguments y {F} _.
End Text.

Record t (F : Type) := mk {
  size : F;
  yOffset : F;
  texts : list (Text.t F)
}.
Arguments mk {F} _ _ _.
Arguments size {F} _.
Arguments yOffset {F} _.
Arguments texts {F} _.

Section Methods.
Context {F : Type} `{!Number F}.

Abbreviation state := (t F).
Abbreviation trace := (list (G2D.call F)).

Definition new (size : option F) : state :=
  mk (default (of_nat DEFAULT_SIZE) size) (of_nat 0) [].

Definition fill (text : string) (x y : F) (r : state) : state :=
  mk (size r) (yOffset r) (texts r ++ [Text.mk text x y]).

Definition print (text : string) (r : state) : state :=
  let r := fill text (of_nat 0) (yOffset r) r in
  mk (size r) (fadd (yOffset r) (size r)) (texts r).

(** [canvas_width] and [canvas_height] are [gl2d.canvas.width] and
    [gl2d.canvas.height] at the time of the call. *)
Definition flush (canvas_width canvas_height : F) (st : trace * state) : trace * state :=
  let '(gl2d, r) := st in
  (gl2d
     ++ [ G2D.clearRect (of_nat 0) (of_nat 0) canvas_width canvas_height;
          G2D.set_fillStyle WHITE;
          G2D.set_font (toString (size r) +:+ "px " +:+ DEFAULT_FONT);
          G2D.set_textBaseline "top" ]
     ++ map (fun t => G2D.fillText (Text.text t) (Text.x t) (Text.y t)) (texts r),
   mk (size r) (of_nat 0) []).

Inductive op :=
| Fill (text : string) (x y : F)
| Print (text : string)
| Flush (canvas_width canvas_height : F).

Definition exec (o : op) (st : trace * state) : trace * state :=
  match o with
  | Fill text x y => (fst st, fill text x y (snd st))
  | Print text => (fst st, print text (snd st))
  | Flush w h => flush w h st
  end.

Definition run (os : list op) (st : trace * state) : trace * state :=
  foldl (fun st o => exec o st) st os.


(** *** Specification vocabulary *)

(** The offset of printed line number [k]: [size] added [k] times to 0. *)
Definition row (size : F) (k : nat) : F :=
  Nat.iter k (fun y => fadd y size) (of_nat 0).

Definition is_flush (o : op) : bool :=
  match o with Flush _ _ => true | _ => false end.

(** The texts that calls without a flush queue, when [k] lines have
    been printed before them. *)
Fixpoint layout (size : F) (k : nat) (os : list op) : list (Text.t F) :=
  match os with
  | [] => []
  | Fill text x y :: os' => Text.mk text x y :: layout size k os'
  | Print text :: os' => Text.mk text (of_nat 0) (row size k) :: layout size (S k) os'
  | Flush _ _ :: os' => layout size k os'
  end.

(** What a flush draws for the queued texts [ts] on a canvas of the
    given size. *)
Definition frame (size canvas_width canvas_height : F) (ts : list (Text.t F)) : trace :=
  [ G2D.clearRect (of_nat 0) (of_nat 0) canvas_width canvas_height;
    G2D.set_fillStyle WHITE;
    G2D.set_font (toString size +:+ "px " +:+ DEFAULT_FONT);
    G2D.set_textBaseline "top" ]
  ++ map (fun t => G2D.fillText (Text.text t) (Text.x t) (Text.y t)) ts.
End Methods.
Arguments op : clear implicits.
End RenderText.

(** ** Shader set-up *)

(** What the WebGL implementation answers.  Object creation returns a
    fresh handle (the context is assumed not to be lost); the status
    queries and info logs depend on the calls made so far. *)
Class Driver (F M : Type) := {
  gl_createShader : list (GL.call F M) -> GL.shader_type -> GL.handle;
  gl_createProgram : list (GL.call F M) -> GL.handle;
  gl_COMPILE_STATUS : list (GL.call F M) -> GL.handle -> bool;
  gl_LINK_STATUS : list (GL.call F M) -> GL.handle -> bool;
  gl_getShaderInfoLog : list (GL.call F M) -> GL.handle -> string;
  gl_getProgramInfoLog : list (GL.call F M) -> GL.handle -> string
}.

Section Shaders.
Context {F M : Type} `{!Driver F M}.

(** The context trace and the lines written by [console.error]. *)
Definition shader_state : Type := list (GL.call F M) * list string.

Definition loadShader (type : GL.shader_type) (source : string)
    (st : shader_state) : option GL.handle * shader_state :=
  let '(gl, console) := st in
  let shader := gl_createShader gl type in
  let gl := gl ++ [ GL.createShader type shader;
                    GL.shaderSource (Some shader) source;
                    GL.compileShader (Some shader) ] in
  if negb (gl_COMPILE_STATUS gl shader) then
    (None,
     (gl ++ [GL.deleteShader (Some shader)],
      console ++ ["An error occurred compiling the shaders: "
                    +:+ gl_getShaderInfoLog gl shader]))
  else (Some shader, (gl, console)).

Definition initShaderProgram (vsSource fsSource : string)
    (st : shader_state) : option GL.handle * shader_state :=
  let '(vertexShader, st) := loadShader GL.VERTEX_SHADER vsSource st in
  let '(fragmentShader, st) := loadShader GL.FRAGMENT_SHADER fsSource st in
  let '(gl, console) := st in
  let shaderProgram := gl_createProgram gl in
  let gl := gl ++ [ GL.createProgram shaderProgram;
                    GL.attachShader (Some shaderProgram) vertexShader;
                    GL.attachShader (Some shaderProgram) fragmentShader;
                    GL.linkProgram (Some shaderProgram) ] in
  if negb (gl_LINK_STATUS gl shaderProgram) then
    (None,
     (gl, console ++ ["Unable to initialize the shader program: "
                        +:+ gl_getProgramInfoLog gl shaderProgram]))
  else (Some shaderProgram, (gl, console)).

(** 1 for a result that is [null], 0 for an object. *)
Definition failed (res : option GL.handle) : nat :=
  match res with Some _ => 0 | None => 1 end.
End Shaders.

(** ** The objects shared by the sandbox classes *)

(** The contact records of the physics engine: [bodyA] and [bodyB] are
    object references, compared with [===]; [getPoint] is the result of
    [contact.getPoint()].  A record is a value: the engine is taken not
    to change a contact it has reported. *)
Module Contact.
Record t (F B : Type) := mk { bodyA : B; bodyB : B; getPoint : Vec2.t F }.
Arguments mk {F B} _ _ _.
Arguments bodyA {F B} _.
Arguments bodyB {F B} _.
Arguments getPoint {F B} _.
End Contact.

(** Calls that leave the sandbox code, other than those on the two
    rendering contexts: the physics world, the user's contact listener,
    the user's actions and the browser's frame scheduler.  The reads and
    writes of the sandbox field [past] are recorded too, so that their
    place among the calls is part of the trace. *)
Module Ext.
Inductive call (F B : Type) :=
| world_setDebugDraw
| world_step (time : F)
| world_drawDebugData
| world_clear
| listener_beginContact (c : Contact.t F B)
| listener_endContact (c : Contact.t F B)
| listener_preSolve (c : Contact.t F B)
| action_init
| action_reset
| action_keyDown (key : string)
| action_preStep (now : F)
| action_postStep
| requestAnimationFrame
| get_past (v : F)
| set_past (v : F).
Arguments world_setDebugDraw {F B}.
Arguments world_step {F B} _.
Arguments world_drawDebugData {F B}.
Arguments world_clear {F B}.
Arguments listener_beginContact {F B} _.
Arguments listener_endContact {F B} _.
Arguments listener_preSolve {F B} _.
Arguments action_init {F B}.
Arguments action_reset {F B}.
Arguments action_keyDown {F B} _.
Arguments action_preStep {F B} _.
Arguments action_postStep {F B}.
Arguments requestAnimationFrame {F B}.
Arguments get_past {F B} _.
Arguments set_past {F B} _.

Definition is_world_step {F B} (c : call F B) : bool :=
  match c with world_step _ => true | _ => false end.

(** The calls that only a frame makes: stepping and drawing the world,
    the step actions, the accesses to [past] and the scheduling of the
    next frame. *)
Definition is_frame_call {F B} (c : call F B) : bool :=
  match c with
  | world_step _ | world_drawDebugData | action_preStep _ | action_postStep
  | requestAnimationFrame | get_past _ | set_past _ => true
  | _ => false
  end.

(** Number of calls of [world.step] in a trace. *)
Definition world_steps {F B} (tr : list (call F B)) : nat :=
  sum_list_with (fun c => if is_world_step c then 1 else 0) tr.



End Ext.

(** The canvas elements; [setCanvasSize] of [common/dom] resizes one. *)
Class CanvasOps (F C : Type) := {
  canvas_width : C -> F;
  canvas_height : C -> F;
  setCanvasSize : C -> F -> F -> C
}.

(** The page: both rendering contexts with their canvases, the camera
    object that the sandbox and the renderers share, and the trace of the
    other outside calls. *)
Module Env.
Record t (F M B C : Type) := mk {
  gl : list (GL.call F M);
  gl2d : list (G2D.call F);
  ext : list (Ext.call F B);
  camera : Camera.t F;
  canvasWebgl : C;
  canvas2d : C
}.
Arguments mk {F M B C} _ _ _ _ _ _.
Arguments gl {F M B C} _.
Arguments gl2d {F M B C} _.
Arguments ext {F M B C} _.
Arguments camera {F M B C} _.
Arguments canvasWebgl {F M B C} _.
Arguments canvas2d {F M B C} _.

Section Updates.
Context {F M B C : Type}.
Definition set_gl (g : list (GL.call F M)) (e : t F M B C) : t F M B C :=
  mk g (gl2d e) (ext e) (camera e) (canvasWebgl e) (canvas2d e).
Definition set_gl2d (g : list (G2D.call F)) (e : t F M B C) : t F M B C :=
  mk (gl e) g (ext e) (camera e) (canvasWebgl e) (canvas2d e).
Definition log (c : Ext.call F B) (e : t F M B C) : t F M B C :=
  mk (gl e) (gl2d e) (ext e ++ [c]) (camera e) (canvasWebgl e) (canvas2d e).
Definition set_camera (c : Camera.t F) (e : t F M B C) : t F M B C :=
  mk (gl e) (gl2d e) (ext e) c (canvasWebgl e) (canvas2d e).
Definition set_canvases (w d : C) (e : t F M B C) : t F M B C :=
  mk (gl e) (gl2d e) (ext e) (camera e) w d.

(** [e'] differs from [e] at most in the traces of the two rendering
    contexts. *)
Definition same_page (e e' : t F M B C) : Prop :=
  ext e' = ext e /\ camera e' = camera e
  /\ canvasWebgl e' = canvasWebgl e /\ canvas2d e' = canvas2d e.
End Updates.
End Env.

(** ** DebugDraw *)

Module DebugDraw.

Definition CIRCLE_SEGMENT : nat := 32.

Record t (F M : Type) := mk {
  lines : RenderLine.t F M;
  text : RenderText.t F;
  points : RenderPoint.t F
}.
Arguments mk {F M} _ _ _.
Arguments lines {F M} _.
Arguments text {F M} _.
Arguments points {F M} _.

Section Methods.
Context {F M B C : Type}.
Context `{!Number F} `{!Mat4Ops F M} `{!Classic2d F} `{!CanvasOps F C}.

Abbreviation env := (Env.t F M B C).
Abbreviation state := (t F M).

(** [Math.PI / 2], the angle of the first perimeter point. *)
Definition circle_f : F := fdiv Math_PI (of_nat 2).

Definition circle_fi (i : nat) : F :=
  fadd (fmul (fdiv (fmul (of_nat 2) Math_PI) (of_nat CIRCLE_SEGMENT)) (of_nat i))
       circle_f.

Definition circle_point (a : F) : Vec2.t F := Vec2.mk (Math_cos a) (Math_sin a).

(** One iteration of the loop of [drawCircle] on [(p1, ps)]. *)
Definition circle_step (acc : Vec2.t F * list (Vec2.t F)) (i : nat)
    : Vec2.t F * list (Vec2.t F) :=
  let '(p1, ps) := acc in
  let p2 := circle_point (circle_fi i) in
  (p2, ps ++ [p1; p2]).

Definition circle_ps : list (Vec2.t F) :=
  snd (foldl circle_step (circle_point circle_f, []) (seq 1 CIRCLE_SEGMENT)).

Definition circle_matrix (position : Vec2.t F) (angle radius : F) : M :=
  Mat4_scale radius radius (of_nat 1)
    (Mat4_rotate angle
       (Mat4_translate (Vec2.x position) (Vec2.y position) None Mat4_new)).

(** *** Specification vocabulary *)

(** The perimeter points: number 0 at the angle [Math.PI / 2], number
    [k > 0] at the angle the loop computes for [i = k]. *)
Definition perimeter (k : nat) : Vec2.t F :=
  match k with
  | 0 => circle_point circle_f
  | S _ => circle_point (circle_fi k)
  end.

(** The chords as pairs of endpoints, from point [k] to point [k + 1]. *)
Definition chords : list (Vec2.t F) :=
  flat_map (fun k => [perimeter k; perimeter (S k)]) (seq 0 CIRCLE_SEGMENT).

(** [new Vec2()] *)
Definition center : Vec2.t F := Vec2.mk (of_nat 0) (of_nat 0).

(** What holds of a debug draw between two calls. *)
Definition invariant (d : state) : Prop :=
  RenderLine.invariant (lines d)
  /\ length (RenderLine.vertices (lines d)) = RenderLine.MAX_VERTICES
  /\ RenderPoint.invariant (points d).

(** *** Methods *)

(** [ps[0]] of an empty array is [undefined], and [addVertices] then
    throws on [ps[i].x]. *)
Definition drawCircle (position : Vec2.t F) (angle radius : F) (color : Color F)
    (st : env * state) : option (env * state) :=
  let '(e, d) := st in
  let matrix := circle_matrix position angle radius in
  let ps := circle_ps in
  p0 ← ps !! 0;
  st1 ← RenderLine.addVertices (Env.camera e) matrix
          [center; p0] color (Env.gl e, lines d);
  '(gl, l) ← RenderLine.addVertices (Env.camera e) matrix ps color st1;
  Some (Env.set_gl gl e, mk l (text d) (points d)).

Definition drawPoint (position : Vec2.t F) (color : Color F)
    (st : env * state) : env * state :=
  let '(e, d) := st in
  let '(gl, p) := RenderPoint.vertex (Env.camera e) position color (Env.gl e, points d) in
  (Env.set_gl gl e, mk (lines d) (text d) p).

Definition drawText (text0 : string) (x y : F) (st : env * state) : env * state :=
  let '(e, d) := st in
  (e, mk (lines d) (RenderText.fill text0 x y (text d)) (points d)).

Definition printText (text0 : string) (st : env * state) : env * state :=
  let '(e, d) := st in
  (e, mk (lines d) (RenderText.print text0 (text d)) (points d)).

Definition flush (st : env * state) : option (env * state) :=
  let '(e, d) := st in
  '(gl, l) ← RenderLine.flush (Env.camera e) (Env.gl e, lines d);
  let '(gl2d, t) :=
    RenderText.flush (canvas_width (Env.canvas2d e)) (canvas_height (Env.canvas2d e))
      (Env.gl2d e, text d) in
  let '(gl, p) := RenderPoint.flush (Env.camera e) (gl, points d) in
  Some (Env.set_gl2d gl2d (Env.set_gl gl e), mk l t p).

(** Calls on the [Draw] interface. *)
Inductive op :=
| DrawCircle (position : Vec2.t F) (angle radius : F) (color : Color F)
| DrawPoint (position : Vec2.t F) (color : Color F)
| DrawText (text : string) (x y : F)
| PrintText (text : string)
| Flush.

Definition exec (o : op) (st : env * state) : option (env * state) :=
  match o with
  | DrawCircle position angle radius color => drawCircle position angle radius color st
  | DrawPoint position color => Some (drawPoint position color st)
  | DrawText text x y => Some (drawText text x y st)
  | PrintText text => Some (printText text st)
  | Flush => flush st
  end.

Fixpoint run (os : list op) (st : env * state) : option (env * state) :=
  match os with
  | [] => Some st
  | o :: os' => st' ← exec o st; run os' st'
  end.


(** Line vertices and points that a call on the [Draw] interface
    hands to the renderers. *)
Definition lines_of (o : op) : nat :=
  match o with DrawCircle _ _ _ _ => 2 * CIRCLE_SEGMENT + 2 | _ => 0 end.

Definition points_of (o : op) : nat :=
  match o with DrawPoint _ _ => 1 | _ => 0 end.

(** A call that draws a shape: it queues no text and does not flush. *)
Definition draws_shape (o : op) : Prop :=
  match o with
  | DrawCircle _ _ _ _ | DrawPoint _ _ => True
  | _ => False
  end.
End Methods.
Arguments op : clear implicits.
End DebugDraw.

(** ** Test *)

(** Callbacks the physics world makes on its contact listener. *)
Module Listener.
Inductive call (F B : Type) :=
| beginContact (c : Contact.t F B)
| endContact (c : Contact.t F B)
| preSolve (c : Contact.t F B).
Arguments beginContact {F B} _.
Arguments endContact {F B} _.
Arguments preSolve {F B} _.
End Listener.

(** What the physics world does when called: a step reports contacts to
    the listener, [drawDebugData] issues calls on the debug draw. *)
Class WorldOps (F B W : Type) := {
  World_step : F -> W -> W * list (Listener.call F B);
  World_drawDebugData : W -> list (DebugDraw.op F);
  World_clear : W -> W
}.

(** [MovingAverage] of [moving-average.ts]. *)
Class MovingAverageOps (F MA : Type) := {
  MovingAverage_new : nat -> MA;
  MovingAverage_get : F -> MA -> F * MA
}.

Module Test.

Record t (F M B W MA : Type) := mk {
  world : W;
  debugDraw : DebugDraw.t F M;
  contactListener : option nat;
  contacts : list (Contact.t F B);
  frameTimeMovingAverage : MA;
  isPause : bool;
  shouldMakeStep : bool
}.
Arguments mk {F M B W MA} _ _ _ _ _ _ _.
Arguments world {F M B W MA} _.
Arguments debugDraw {F M B W MA} _.
Arguments contactListener {F M B W MA} _.
Arguments contacts {F M B W MA} _.
Arguments frameTimeMovingAverage {F M B W MA} _.
Arguments isPause {F M B W MA} _.
Arguments shouldMakeStep {F M B W MA} _.

Section Methods.
Context {F M B C W MA : Type}.
Context `{!Number F} `{!Mat4Ops F M} `{!Classic2d F} `{!CanvasOps F C}.
Context `{!EqDecision B} `{!WorldOps F B W} `{!MovingAverageOps F MA}.

Abbreviation env := (Env.t F M B C).
Abbreviation state := (t F M B W MA).

Definition set_world (w : W) (t : state) : state :=
  mk w (debugDraw t) (contactListener t) (contacts t)
     (frameTimeMovingAverage t) (isPause t) (shouldMakeStep t).
Definition set_debugDraw (d : DebugDraw.t F M) (t : state) : state :=
  mk (world t) d (contactListener t) (contacts t)
     (frameTimeMovingAverage t) (isPause t) (shouldMakeStep t).
Definition set_contacts (cs : list (Contact.t F B)) (t : state) : state :=
  mk (world t) (debugDraw t) (contactListener t) cs
     (frameTimeMovingAverage t) (isPause t) (shouldMakeStep t).
Definition set_frameTimeMovingAverage (ma : MA) (t : state) : state :=
  mk (world t) (debugDraw t) (contactListener t) (contacts t)
     ma (isPause t) (shouldMakeStep t).
Definition set_shouldMakeStep (b : bool) (t : state) : state :=
  mk (world t) (debugDraw t) (contactListener t) (contacts t)
     (frameTimeMovingAverage t) (isPause t) b.

Definition clearContacts (t : state) : state := set_contacts [] t.

Definition new (world : W) (debugDraw : DebugDraw.t F M)
    (contactListener : option nat) (e : env) : env * state :=
  (Env.log Ext.world_setDebugDraw e,
   clearContacts
     (mk world debugDraw contactListener [] (MovingAverage_new 60) false false)).

Definition same_bodies (c contact : Contact.t F B) : bool :=
  bool_decide (Contact.bodyA c = Contact.bodyA contact)
  && bool_decide (Contact.bodyB c = Contact.bodyB contact).

Fixpoint hasContact_loop (contact : Contact.t F B) (cs : list (Contact.t F B)) : bool :=
  match cs with
  | [] => false
  | c :: cs' => if same_bodies c contact then true else hasContact_loop contact cs'
  end.

Definition hasContact (contact : Contact.t F B) (t : state) : bool :=
  hasContact_loop contact (contacts t).

Definition notify (c : Ext.call F B) (st : env * state) : env * state :=
  let '(e, t) := st in
  match contactListener t with
  | Some _ => (Env.log c e, t)
  | None => (e, t)
  end.

Definition beginContact (contact : Contact.t F B) (st : env * state) : env * state :=
  let '(e, t) := st in
  let t := if negb (hasContact contact t)
           then set_contacts (contacts t ++ [contact]) t else t in
  notify (Ext.listener_beginContact contact) (e, t).

Definition endContact (contact : Contact.t F B) (st : env * state) : env * state :=
  notify (Ext.listener_endContact contact) st.

Definition preSolve (contact : Contact.t F B) (st : env * state) : env * state :=
  notify (Ext.listener_preSolve contact) st.

Definition drawContacts (st : env * state) : env * state :=
  let '(e, t) := st in
  let '(e, d) :=
    foldl (fun ed contact =>
             DebugDraw.drawPoint (Contact.getPoint contact) COLORS_CONTACT ed)
          (e, debugDraw t) (contacts t) in
  (e, set_debugDraw d t).

Definition drawHelp (time : F) (st : env * state) : env * state :=
  let '(e, t) := st in
  let '(averageFrameTime, ma) := MovingAverage_get time (frameTimeMovingAverage t) in
  let help := "[R] - reset; [P] - pause; [O] - step" in
  let fps := "FPS: " +:+ toString (Math_floor (fdiv (of_nat 1000) averageFrameTime)) in
  let frame := "Frame time: " +:+ toFixed 3 averageFrameTime +:+ " ms" in
  let ed := DebugDraw.printText help (e, debugDraw t) in
  let ed := DebugDraw.printText fps ed in
  let ed := DebugDraw.printText frame ed in
  let '(e, d) := if isPause t then DebugDraw.printText "[PAUSE]" ed else ed in
  (e, set_debugDraw d (set_frameTimeMovingAverage ma t)).

Definition draw (time : F) (st : env * state) : option (env * state) :=
  let '(e, t) := st in
  '(e, d) ← DebugDraw.run (World_drawDebugData (world t))
              (Env.log Ext.world_drawDebugData e, debugDraw t);
  let '(e, t) := drawHelp time (e, set_debugDraw d t) in
  '(e, d) ← DebugDraw.flush (e, debugDraw t);
  let '(e, t) := drawContacts (e, set_debugDraw d t) in
  Some (e, clearContacts t).

Definition makeStep (t : state) : state := set_shouldMakeStep true t.

(** [pause(isPause = !this.isPause)] *)
Definition pause (arg : option bool) (t : state) : state :=
  mk (world t) (debugDraw t) (contactListener t) (contacts t)
     (frameTimeMovingAverage t) (default (negb (isPause t)) arg) (shouldMakeStep t).

Definition setContactListener (l : nat) (t : state) : state :=
  mk (world t) (debugDraw t) (Some l) (contacts t)
     (frameTimeMovingAverage t) (isPause t) (shouldMakeStep t).

(** The world reports to its contact listener, which is this object. *)
Definition dispatch (st : env * state) (c : Listener.call F B) : env * state :=
  match c with
  | Listener.beginContact contact => beginContact contact st
  | Listener.endContact contact => endContact contact st
  | Listener.preSolve contact => preSolve contact st
  end.

Definition step (time : F) (st : env * state) : env * state :=
  let '(e, t) := st in
  if negb (isPause t) || shouldMakeStep t then
    let '(w, calls) := World_step time (world t) in
    let '(e, t) := foldl dispatch (Env.log (Ext.world_step time) e, set_world w t) calls in
    (e, set_shouldMakeStep false t)
  else (e, t).

Inductive op :=
| BeginContact (contact : Contact.t F B)
| EndContact (contact : Contact.t F B)
| PreSolve (contact : Contact.t F B)
| Draw (time : F)
| MakeStep
| Pause (arg : option bool)
| SetContactListener (l : nat)
| Step (time : F).

Definition exec (o : op) (st : env * state) : option (env * state) :=
  match o with
  | BeginContact contact => Some (beginContact contact st)
  | EndContact contact => Some (endContact contact st)
  | PreSolve contact => Some (preSolve contact st)
  | Draw time => draw time st
  | MakeStep => Some (fst st, makeStep (snd st))
  | Pause arg => Some (fst st, pause arg (snd st))
  | SetContactListener l => Some (fst st, setContactListener l (snd st))
  | Step time => Some (step time st)
  end.

Fixpoint run (os : list op) (st : env * state) : option (env * state) :=
  match os with
  | [] => Some st
  | o :: os' => st' ← exec o st; run os' st'
  end.

(** *** Specification vocabulary *)

(** The pair of bodies that identifies a buffered contact. *)
Definition bodies (c : Contact.t F B) : B * B := (Contact.bodyA c, Contact.bodyB c).

(** What holds of a test between two calls. *)
Definition invariant (t : state) : Prop :=
  DebugDraw.invariant (debugDraw t) /\ NoDup (bodies <$> contacts t).

(** What a callback of the world may change: the contacts and the
    trace, where it adds no call of [world.step]. *)
Definition callback_frame (st st' : env * state) : Prop :=
  isPause st'.2 = isPause st.2
  /\ shouldMakeStep st'.2 = shouldMakeStep st.2
  /\ debugDraw st'.2 = debugDraw st.2
  /\ world st'.2 = world st.2
  /\ Ext.world_steps (Env.ext st'.1) = Ext.world_steps (Env.ext st.1).

(** The calls made on the user's contact listener. *)
Definition is_listener_call (x : Ext.call F B) : Prop :=
  match x with
  | Ext.listener_beginContact _ | Ext.listener_endContact _
  | Ext.listener_preSolve _ => True
  | _ => False
  end.

(** What an observer records of a run: each call, whether the test was
    paused when it was made, and how many times [world.step] was called
    during it. *)
Fixpoint history (os : list op) (st : env * state) : list (op * bool * nat) :=
  match os with
  | [] => []
  | o :: os' =>
      match exec o st with
      | Some st' =>
          (o, isPause st.2,
           Ext.world_steps (Env.ext st'.1) - Ext.world_steps (Env.ext st.1))
            :: history os' st'
      | None => []
      end
  end.

Definition is_makeStep (o : op) : bool :=
  match o with MakeStep => true | _ => false end.

(** Whether [makeStep()] has been called since the last world step, for
    a history that begins with [pending] answering the question. *)
Fixpoint makeStep_pending (h : list (op * bool * nat)) (pending : bool) : bool :=
  match h with
  | [] => pending
  | (o, _, n) :: h' =>
      makeStep_pending h'
        (if 0 <? n then false else if is_makeStep o then true else pending)
  end.

(** World steps taken while paused, and calls of [makeStep()]. *)
Definition paused_world_steps (h : list (op * bool * nat)) : nat :=
  sum_list_with (fun m : op * bool * nat => if m.1.2 then m.2 else 0) h.
Definition makeStep_calls (h : list (op * bool * nat)) : nat :=
  sum_list_with (fun m : op * bool * nat => if is_makeStep m.1.1 then 1 else 0) h.


(** The lines of the help display, for the average frame time
    [averageFrameTime] and a text size [size]. *)
Definition help_lines (size averageFrameTime : F) (paused : bool)
    : list (RenderText.Text.t F) :=
  [ RenderText.Text.mk "[R] - reset; [P] - pause; [O] - step"
      (of_nat 0) (RenderText.row size 0);
    RenderText.Text.mk
      ("FPS: " +:+ toString (Math_floor (fdiv (of_nat 1000) averageFrameTime)))
      (of_nat 0) (RenderText.row size 1);
    RenderText.Text.mk ("Frame time: " +:+ toFixed 3 averageFrameTime +:+ " ms")
      (of_nat 0) (RenderText.row size 2) ]
  ++ (if paused
      then [RenderText.Text.mk "[PAUSE]" (of_nat 0) (RenderText.row size 3)]
      else []).

(** The call on the user's listener that a callback is forwarded as. *)
Definition forward (c : Listener.call F B) : Ext.call F B :=
  match c with
  | Listener.beginContact contact => Ext.listener_beginContact contact
  | Listener.endContact contact => Ext.listener_endContact contact
  | Listener.preSolve contact => Ext.listener_preSolve contact
  end.
End Methods.
Arguments op : clear implicits.
End Test.

(** ** Test and SandboxWorld with an optional debug draw

    The later revision of the two classes: the test is created without
    a debug draw and gets one through [SandboxWorld.setDebugDraw], which
    hands the same object to the world and to the test.  The [Draw]
    object is taken to be a [DebugDraw]; a world that has no debug draw
    is taken to draw nothing, and [Test.setDebugDraw] to be called by
    [SandboxWorld.setDebugDraw] only, so that the world and the test
    always hold the same object. *)

Module Test2.

Record t (F M B W MA : Type) := mk {
  world : W;
  debugDraw : option (DebugDraw.t F M);
  contactListener : option nat;
  contacts : list (Contact.t F B);
  frameTimeMovingAverage : MA;
  isPause : bool;
  shouldMakeStep : bool
}.
Arguments mk {F M B W MA} _ _ _ _ _ _ _.
Arguments world {F M B W MA} _.
Arguments debugDraw {F M B W MA} _.
Arguments contactListener {F M B W MA} _.
Arguments contacts {F M B W MA} _.
Arguments frameTimeMovingAverage {F M B W MA} _.
Arguments isPause {F M B W MA} _.
Arguments shouldMakeStep {F M B W MA} _.

Section Methods.
Context {F M B C W MA : Type}.
Context `{!Number F} `{!Mat4Ops F M} `{!Classic2d F} `{!CanvasOps F C}.
Context `{!EqDecision B} `{!WorldOps F B W} `{!MovingAverageOps F MA}.

Abbreviation env := (Env.t F M B C).
Abbreviation state := (t F M B W MA).

Definition set_world (w : W) (t : state) : state :=
  mk w (debugDraw t) (contactListener t) (contacts t)
     (frameTimeMovingAverage t) (isPause t) (shouldMakeStep t).
Definition set_debugDraw (d : option (DebugDraw.t F M)) (t : state) : state :=
  mk (world t) d (contactListener t) (contacts t)
     (frameTimeMovingAverage t) (isPause t) (shouldMakeStep t).
Definition set_contacts (cs : list (Contact.t F B)) (t : state) : state :=
  mk (world t) (debugDraw t) (contactListener t) cs
     (frameTimeMovingAverage t) (isPause t) (shouldMakeStep t).
Definition set_frameTimeMovingAverage (ma : MA) (t : state) : state :=
  mk (world t) (debugDraw t) (contactListener t) (contacts t)
     ma (isPause t) (shouldMakeStep t).
Definition set_shouldMakeStep (b : bool) (t : state) : state :=
  mk (world t) (debugDraw t) (contactListener t) (contacts t)
     (frameTimeMovingAverage t) (isPause t) b.

Definition clearContacts (t : state) : state := set_contacts [] t.

Definition new (world : W) (contactListener : option nat) : state :=
  clearContacts
    (mk world None contactListener [] (MovingAverage_new 60) false false).

Definition hasContact (contact : Contact.t F B) (t : state) : bool :=
  Test.hasContact_loop contact (contacts t).

Definition notify (c : Ext.call F B) (st : env * state) : env * state :=
  let '(e, t) := st in
  match contactListener t with
  | Some _ => (Env.log c e, t)
  | None => (e, t)
  end.

Definition beginContact (contact : Contact.t F B) (st : env * state) : env * state :=
  let '(e, t) := st in
  let t := if negb (hasContact contact t)
           then set_contacts (contacts t ++ [contact]) t else t in
  notify (Ext.listener_beginContact contact) (e, t).

Definition endContact (contact : Contact.t F B) (st : env * state) : env * state :=
  notify (Ext.listener_endContact contact) st.

Definition preSolve (contact : Contact.t F B) (st : env * state) : env * state :=
  notify (Ext.listener_preSolve contact) st.

Definition drawContacts (st : env * state) : env * state :=
  let '(e, t) := st in
  match debugDraw t with
  | None => (e, t)
  | Some d =>
      let '(e, d) :=
        foldl (fun ed contact =>
                 DebugDraw.drawPoint (Contact.getPoint contact) COLORS_CONTACT ed)
              (e, d) (contacts t) in
      (e, set_debugDraw (Some d) t)
  end.

Definition drawHelp (time : F) (st : env * state) : env * state :=
  let '(e, t) := st in
  match debugDraw t with
  | None => (e, t)
  | Some d =>
      let '(averageFrameTime, ma) :=
        MovingAverage_get time (frameTimeMovingAverage t) in
      let help := "[R] - reset; [P] - pause; [O] - step" in
      let fps :=
        "FPS: " +:+ toString (Math_floor (fdiv (of_nat 1000) averageFrameTime)) in
      let frame := "Frame time: " +:+ toFixed 3 averageFrameTime +:+ " ms" in
      let ed := DebugDraw.printText help (e, d) in
      let ed := DebugDraw.printText fps ed in
      let ed := DebugDraw.printText frame ed in
      let '(e, d) := if isPause t then DebugDraw.printText "[PAUSE]" ed else ed in
      (e, set_debugDraw (Some d) (set_frameTimeMovingAverage ma t))
  end.

(** [this.world.drawDebugData()]: the world draws on the debug draw it
    was given, the one the test holds. *)
Definition drawDebugData (st : env * state) : option (env * state) :=
  let '(e, t) := st in
  let e := Env.log Ext.world_drawDebugData e in
  match debugDraw t with
  | None => Some (e, t)
  | Some d =>
      '(e, d) ← DebugDraw.run (World_drawDebugData (world t)) (e, d);
      Some (e, set_debugDraw (Some d) t)
  end.

(** [this.debugDraw && this.debugDraw.flush()] *)
Definition flush (st : env * state) : option (env * state) :=
  let '(e, t) := st in
  match debugDraw t with
  | None => Some (e, t)
  | Some d =>
      '(e, d) ← DebugDraw.flush (e, d);
      Some (e, set_debugDraw (Some d) t)
  end.

Definition draw (time : F) (st : env * state) : option (env * state) :=
  st ← drawDebugData st;
  st ← flush (drawContacts (drawHelp time st));
  Some (st.1, clearContacts st.2).

Definition makeStep (t : state) : state := set_shouldMakeStep true t.

Definition pause (arg : option bool) (t : state) : state :=
  mk (world t) (debugDraw t) (contactListener t) (contacts t)
     (frameTimeMovingAverage t) (default (negb (isPause t)) arg) (shouldMakeStep t).

Definition setContactListener (l : nat) (t : state) : state :=
  mk (world t) (debugDraw t) (Some l) (contacts t)
     (frameTimeMovingAverage t) (isPause t) (shouldMakeStep t).

Definition setDebugDraw (d : DebugDraw.t F M) (t : state) : state :=
  set_debugDraw (Some d) t.

Definition dispatch (st : env * state) (c : Listener.call F B) : env * state :=
  match c with
  | Listener.beginContact contact => beginContact contact st
  | Listener.endContact contact => endContact contact st
  | Listener.preSolve contact => preSolve contact st
  end.

Definition step (time : F) (st : env * state) : env * state :=
  let '(e, t) := st in
  if negb (isPause t) || shouldMakeStep t then
    let '(w, calls) := World_step time (world t) in
    let '(e, t) := foldl dispatch (Env.log (Ext.world_step time) e, set_world w t) calls in
    (e, set_shouldMakeStep false t)
  else (e, t).

(** What holds of the test between two calls. *)
Definition invariant (t : state) : Prop :=
  match debugDraw t with
  | Some d => DebugDraw.invariant d
  | None => True
  end.

End Methods.
End Test2.

Module SandboxWorld.
Section Methods.
Context {F M B C W MA : Type}.
Context `{!Number F} `{!Mat4Ops F M} `{!Classic2d F} `{!CanvasOps F C}.
Context `{!EqDecision B} `{!WorldOps F B W} `{!MovingAverageOps F MA}.

Abbreviation env := (Env.t F M B C).

(** The world object with the test it creates; [world] is the state of
    the base class. *)
Definition new (world : W) : Test2.t F M B W MA := Test2.new world None.

Definition getTest (t : Test2.t F M B W MA) : Test2.t F M B W MA := t.

Definition setContactListener (l : nat) (t : Test2.t F M B W MA)
    : Test2.t F M B W MA :=
  Test2.setContactListener l t.

Definition setDebugDraw (d : DebugDraw.t F M) (st : env * Test2.t F M B W MA)
    : env * Test2.t F M B W MA :=
  let '(e, t) := st in
  (Env.log Ext.world_setDebugDraw e, Test2.setDebugDraw d t).

(** Calls on the world and callbacks of the frame loop. *)
Inductive op :=
| SetDebugDraw (d : DebugDraw.t F M)
| SetContactListener (l : nat)
| Callback (c : Listener.call F B)
| Step (time : F)
| Draw (time : F).

Definition exec (o : op) (st : env * Test2.t F M B W MA)
    : option (env * Test2.t F M B W MA) :=
  match o with
  | SetDebugDraw d => Some (setDebugDraw d st)
  | SetContactListener l => Some (st.1, setContactListener l st.2)
  | Callback c => Some (Test2.dispatch st c)
  | Step time => Some (Test2.step time st)
  | Draw time => Test2.draw time st
  end.

Fixpoint run (os : list op) (st : env * Test2.t F M B W MA)
    : option (env * Test2.t F M B W MA) :=
  match os with
  | [] => Some st
  | o :: os' => st' ← exec o st; run os' st'
  end.

(** The debug draws handed over are fresh or, at least, consistent. *)
Definition well_formed (o : op) : Prop :=
  match o with
  | SetDebugDraw d => DebugDraw.invariant d
  | _ => True
  end.

End Methods.
Arguments op : clear implicits.
End SandboxWorld.

(** ** Sandbox *)

Module Sandbox.

(** Which of the optional user actions are present ([reset_action] and
    [keyDown_action] are the fields [reset] and [keyDown]).  An action is
    a call to the outside: it is recorded in the trace and taken not to
    call back into the sandbox. *)
Record Actions := {
  init : bool;
  reset_action : bool;
  keyDown_action : bool;
  preStep : bool;
  postStep : bool
}.

Record t (F M B W MA : Type) := mk {
  actions : option Actions;
  test : Test.t F M B W MA;
  past : F;
  running : bool
}.
Arguments mk {F M B W MA} _ _ _ _.
Arguments actions {F M B W MA} _.
Arguments test {F M B W MA} _.
Arguments past {F M B W MA} _.
Arguments running {F M B W MA} _.

Section Methods.
Context {F M B C W MA : Type}.
Context `{!Number F} `{!Mat4Ops F M} `{!Classic2d F} `{!CanvasOps F C}.
Context `{!EqDecision B} `{!WorldOps F B W} `{!MovingAverageOps F MA}.

Abbreviation env := (Env.t F M B C).
Abbreviation state := (t F M B W MA).

(** [this.actions && this.actions.f] *)
Definition has (f : Actions -> bool) (s : state) : bool :=
  match actions s with Some a => f a | None => false end.

Definition set_test (t : Test.t F M B W MA) (s : state) : state :=
  mk (actions s) t (past s) (running s).
Definition set_running (b : bool) (s : state) : state :=
  mk (actions s) (test s) (past s) b.
Definition set_past (v : F) (s : state) : state :=
  mk (actions s) (test s) v (running s).

Definition run (st : env * state) : env * state :=
  let '(e, s) := st in
  (Env.log Ext.requestAnimationFrame e, set_running true s).

Definition stop (st : env * state) : env * state :=
  let '(e, s) := st in (e, set_running false s).

(** [this.world] and the world of the test are one object. *)
Definition reset (st : env * state) : env * state :=
  let '(e, s) := st in
  let e := Env.log Ext.world_clear e in
  let s := set_test (Test.set_world (World_clear (Test.world (test s))) (test s)) s in
  let e := if has reset_action s then Env.log Ext.action_reset e else e in
  (e, s).

Definition zoom (z : F) (st : env * state) : env * state :=
  let '(e, s) := st in
  let c := Env.camera e in
  (Env.set_camera (Camera.mk (Camera.center c) z (Camera.width c) (Camera.height c)) e, s).

Definition clearFrame (e : env) : env :=
  Env.set_gl
    (Env.gl e
       ++ [ GL.viewport (of_nat 0) (of_nat 0)
              (canvas_width (Env.canvasWebgl e)) (canvas_height (Env.canvasWebgl e));
            GL.clearColor (of_nat 0) (of_nat 0) (of_nat 0) (of_nat 1);
            GL.clearDepth (of_nat 1);
            GL.enable_DEPTH_TEST;
            GL.depthFunc_LEQUAL;
            GL.clear_COLOR_DEPTH ]) e.

Definition handleResize (width height : F) (st : env * state) : env * state :=
  let '(e, s) := st in
  let c := Env.camera e in
  let e := Env.set_camera (Camera.mk (Camera.center c) (Camera.zoom c) width height) e in
  (Env.set_canvases (setCanvasSize (Env.canvasWebgl e) width height)
                    (setCanvasSize (Env.canvas2d e) width height) e, s).

Definition handleKeyDown (key : string) (st : env * state) : env * state :=
  let '(e, s) := st in
  if decide (key = "r") then reset (e, s)
  else if decide (key = "p") then (e, set_test (Test.pause None (test s)) s)
  else if decide (key = "o") then
    (e, set_test (Test.makeStep (Test.pause (Some true) (test s))) s)
  else if has keyDown_action s then (Env.log (Ext.action_keyDown key) e, s)
  else (e, s).

Definition keyDown (key : string) (st : env * state) : env * state :=
  handleKeyDown key st.

Definition resize (width height : F) (st : env * state) : env * state :=
  handleResize width height st.

Definition render (now : F) (st : env * state) : option (env * state) :=
  let '(e, s) := st in
  if negb (running s) then Some (e, s)
  else
    let e := if has preStep s then Env.log (Ext.action_preStep now) e else e in
    let e := Env.log (Ext.get_past (past s)) e in
    let time := fsub now (past s) in
    let e := Env.log (Ext.set_past now) e in
    let s := set_past now s in
    let '(e, t) := Test.step time (e, test s) in
    let e := if has postStep s then Env.log Ext.action_postStep e else e in
    let e := clearFrame e in
    '(e, t) ← Test.draw time (e, t);
    Some (Env.log Ext.requestAnimationFrame e, set_test t s).


(** What can happen to a sandbox: calls of its public methods and the
    browser invoking the frame callback. *)
Inductive op :=
| Run
| Stop
| Reset
| Zoom (z : F)
| Resize (width height : F)
| KeyDown (key : string)
| Render (now : F).

Definition exec (o : op) (st : env * state) : option (env * state) :=
  match o with
  | Run => Some (run st)
  | Stop => Some (stop st)
  | Reset => Some (reset st)
  | Zoom z => Some (zoom z st)
  | Resize w h => Some (resize w h st)
  | KeyDown key => Some (keyDown key st)
  | Render now => render now st
  end.

Fixpoint exec_all (os : list op) (st : env * state) : option (env * state) :=
  match os with
  | [] => Some st
  | o :: os' => st' ← exec o st; exec_all os' st'
  end.

Definition is_run (o : op) : bool := match o with Run => true | _ => false end.
Definition is_render (o : op) : bool := match o with Render _ => true | _ => false end.

End Methods.
Arguments op : clear implicits.
End Sandbox.

(** ** A concrete page for examples

    Numbers and matrices are uninterpreted terms, so that no equation
    between numbers is assumed; the world replays a fixed script. *)

Module Sample.

Inductive num :=
| Lit (n : nat)
| Add (a b : num)
| Sub (a b : num)
| Mul (a b : num)
| Div (a b : num)
| Neg (a : num)
| Fround (a : num)
| Pi
| Cos (a : num)
| Sin (a : num)
| Pow (a b : num)
| Floor (a : num).

Fixpoint show (a : num) : string :=
  match a with
  | Lit n => pretty n
  | Add a b => "(" +:+ show a +:+ "+" +:+ show b +:+ ")"
  | Sub a b => "(" +:+ show a +:+ "-" +:+ show b +:+ ")"
  | Mul a b => "(" +:+ show a +:+ "*" +:+ show b +:+ ")"
  | Div a b => "(" +:+ show a +:+ "/" +:+ show b +:+ ")"
  | Neg a => "-" +:+ show a
  | Fround a => "fround(" +:+ show a +:+ ")"
  | Pi => "PI"
  | Cos a => "cos(" +:+ show a +:+ ")"
  | Sin a => "sin(" +:+ show a +:+ ")"
  | Pow a b => "pow(" +:+ show a +:+ "," +:+ show b +:+ ")"
  | Floor a => "floor(" +:+ show a +:+ ")"
  end.

#[global] Instance num_Number : Number num := {|
  of_nat := Lit; fadd := Add; fsub := Sub; fmul := Mul; fdiv := Div;
  fneg := Neg; fround := Fround; Math_PI := Pi; Math_cos := Cos;
  Math_sin := Sin; Math_pow := Pow; Math_floor := Floor;
  toString := show;
  toFixed := fun d a => show a +:+ "." +:+ pretty d
|}.

Inductive mat :=
| New
| Ortho (l r b t n f : num)
| Translate (x y : num) (z : option num) (m : mat)
| Rotate (a : num) (m : mat)
| Scale (x y z : num) (m : mat).

#[global] Instance mat_Mat4Ops : Mat4Ops num mat := {|
  Mat4_new := New; Mat4_ortho := Ortho; Mat4_translate := Translate;
  Mat4_rotate := Rotate; Mat4_scale := Scale
|}.

Definition red : Color num := fun j => if decide (j = 0) then Lit 1 else Lit 0.

#[global] Instance sample_Classic2d : Classic2d num := {|
  COLOR_COMPONENTS := 4; COLORS_CONTACT := red
|}.

Record canvas := { cw : num; ch : num }.

#[global] Instance canvas_CanvasOps : CanvasOps num canvas := {|
  canvas_width := cw; canvas_height := ch;
  setCanvasSize := fun _ w h => {| cw := w; ch := h |}
|}.

(** The world reports the same contacts at every step and draws the
    same shapes at every frame. *)
Record world := {
  reports : list (Listener.call num nat);
  shapes : list (DebugDraw.op num)
}.

#[global] Instance world_WorldOps : WorldOps num nat world := {|
  World_step := fun _ w => (w, reports w);
  World_drawDebugData := shapes;
  World_clear := fun w => {| reports := []; shapes := [] |}
|}.

(** The average kept is the last sample. *)
#[global] Instance last_MovingAverageOps : MovingAverageOps num num := {|
  MovingAverage_new := fun _ => Lit 0;
  MovingAverage_get := fun time _ => (time, time)
|}.

Definition camera : Camera.t num := Camera.new (Lit 0) (Lit 0) (Lit 0) (Lit 800) (Lit 600).

Definition lineInfo : RenderLine.ProgramInfo :=
  RenderLine.Build_ProgramInfo (Some 3) 0 1 (Some 4) (Some 5).
Definition pointInfo : RenderPoint.ProgramInfo :=
  RenderPoint.Build_ProgramInfo (Some 9) 0 1 (Some 10).

Definition lines : RenderLine.t num mat := RenderLine.new 0 1 2 lineInfo.
Definition points : RenderPoint.t num := RenderPoint.new 6 7 8 pointInfo.
Definition debugDraw : DebugDraw.t num mat :=
  DebugDraw.mk lines (RenderText.new None) points.

Definition page : Env.t num mat nat canvas :=
  Env.mk [] [] [] camera {| cw := Lit 800; ch := Lit 600 |}
         {| cw := Lit 800; ch := Lit 600 |}.

Definition origin : Vec2.t num := Vec2.mk (Lit 0) (Lit 0).
Definition pt (n : nat) : Vec2.t num := Vec2.mk (Lit n) (Lit (S n)).

Definition quiet : world := {| reports := []; shapes := [] |}.

Definition test0 : Test.t num mat nat world num :=
  Test.mk quiet debugDraw None [] (Lit 0) false false.

(** The same test paused, and paused with a step requested. *)
Definition paused : Test.t num mat nat world num :=
  Test.mk quiet debugDraw None [] (Lit 0) true false.
Definition paused_pending : Test.t num mat nat world num :=
  Test.mk quiet debugDraw None [] (Lit 0) true true.

(** Two contacts between the same pair of bodies, at different points. *)
Definition contact1 : Contact.t num nat := Contact.mk 1 2 (pt 0).
Definition contact2 : Contact.t num nat := Contact.mk 1 2 (pt 5).

Definition allActions : Sandbox.Actions :=
  Sandbox.Build_Actions true true true true true.

Definition sandbox0 : Sandbox.t num mat nat world num :=
  Sandbox.mk (Some allActions) test0 (Lit 0) false.


(** A driver on which every shader compiles and every program links,
    and one on which nothing does; handles count the calls made. *)
Definition driver (ok : bool) : Driver num mat := {|
  gl_createShader := fun gl _ => length gl;
  gl_createProgram := fun gl => length gl;
  gl_COMPILE_STATUS := fun _ _ => ok;
  gl_LINK_STATUS := fun _ _ => ok;
  gl_getShaderInfoLog := fun _ _ => "syntax error";
  gl_getProgramInfoLog := fun _ _ => "link error"
|}.

End Sample.

(** * Properties *)

(** ** JavaScript arrays *)

Section ArrayFacts.
Context {A : Type}.
Implicit Types (a : list (option A)) (v : A).

Lemma array_get_set_eq i v a : array_get (array_set i v a) i = Some v.
Proof.
  unfold array_get, array_set. case_decide as Hi.
  - by rewrite list_lookup_insert_eq.
  - rewrite lookup_app_r by lia.
    rewrite lookup_app_r by (rewrite length_replicate; lia).
    rewrite length_replicate.
    by replace (i - length a - (i - length a)) with 0 by lia.
Qed.

Lemma array_get_set_ne i j v a :
  i ≠ j -> array_get (array_set i v a) j = array_get a j.
Proof.
  intros Hne. unfold array_get, array_set. case_decide as Hi.
  - by rewrite list_lookup_insert_ne.
  - destruct (decide (j < length a)) as [Hj|Hj].
    + by rewrite lookup_app_l.
    + rewrite (lookup_ge_None_2 a j) by lia.
      rewrite lookup_app_r by lia.
      destruct (decide (j < i)) as [Hji|Hji].
      * rewrite lookup_app_l by (rewrite length_replicate; lia).
        rewrite lookup_replicate_2 by lia. done.
      * rewrite lookup_app_r by (rewrite length_replicate; lia).
        rewrite length_replicate.
        rewrite lookup_ge_None_2; [done|simpl; lia].
Qed.
End ArrayFacts.

(** ** RenderLine *)

Module RenderLineFacts.
Import RenderLine.

Lemma MAX_VERTICES_eq : MAX_VERTICES = 1024.
Proof. reflexivity. Qed.

(** Reduce the field reads of an updated object. *)
Ltac fields :=
  cbn [count matricesCount matrices vertices colors write_vertex set_colors
       set_count set_vertices set_matricesCount set_matrices push_matrix] in *.

Section Facts.
Context {F M : Type} `{!Number F} `{!Mat4Ops F M} `{!Classic2d F}.
Implicit Types (r : RenderLine.t F M) (gl : list (GL.call F M))
  (es : list (Entry.t M)) (camera : Camera.t F).

Lemma contiguous_app es1 es2 a b c :
  contiguous es1 a b -> contiguous es2 b c -> contiguous (es1 ++ es2) a c.
Proof.
  revert a. induction es1 as [|e es1 IH]; simpl; intros a.
  - by intros ->.
  - intros [Ho Hc] H2. split; [done|]. by apply IH.
Qed.

Lemma total_cons e es : total (e :: es) = Entry.count e + total es.
Proof. reflexivity. Qed.

Lemma total_app es1 es2 : total (es1 ++ es2) = total es1 + total es2.
Proof. apply sum_list_with_app. Qed.

Lemma contiguous_total es a b : contiguous es a b -> a + total es = b.
Proof.
  revert a. induction es as [|e es IH]; intros a Hc; simpl in Hc.
  - subst. unfold total. simpl. lia.
  - destruct Hc as [_ Hc]. apply IH in Hc. rewrite total_cons. lia.
Qed.

Lemma contiguous_in_buffer es a b :
  contiguous es a b -> Forall (fun e => a <= Entry.offset e /\ Entry.offset e + Entry.count e <= b) es.
Proof.
  revert a. induction es as [|e es IH]; simpl; intros a.
  - constructor.
  - intros [Ho Hc]. constructor.
    + pose proof (contiguous_total _ _ _ Hc). lia.
    + eapply Forall_impl; [by apply IH|]. simpl. lia.
Qed.

Lemma contiguous_adjacent es a b i e1 e2 :
  contiguous es a b -> es !! i = Some e1 -> es !! S i = Some e2 ->
  Entry.offset e1 + Entry.count e1 = Entry.offset e2.
Proof.
  revert a i. induction es as [|e es IH]; intros a i; [done|].
  simpl. intros [Ho Hc] H1 H2. destruct i as [|i].
  - simpl in H1. injection H1 as ->.
    destruct es as [|e' es]; [done|]. simpl in H2. injection H2 as ->.
    simpl in Hc. lia.
  - by eapply IH.
Qed.

Lemma contiguous_partitions es n : contiguous es 0 n -> partitions es n.
Proof.
  intros Hc. split; [|split].
  - eapply Forall_impl; [by apply contiguous_in_buffer|]. simpl. lia.
  - intros i e1 e2 H1 H2.
    by rewrite (contiguous_adjacent _ _ _ _ _ _ Hc H1 H2).
  - by apply contiguous_total in Hc.
Qed.

Lemma recorded_length r es : recorded r = Some es -> length es = matricesCount r.
Proof.
  unfold recorded. intros H. apply length_mapM in H.
  rewrite length_seq in H. done.
Qed.

Lemma matricesCount_push e r :
  matricesCount (push_matrix e r) = S (matricesCount r).
Proof. reflexivity. Qed.

Lemma count_push e r : count (push_matrix e r) = count r.
Proof. reflexivity. Qed.

Lemma vertices_push e r : vertices (push_matrix e r) = vertices r.
Proof. reflexivity. Qed.

Lemma matrices_push e r :
  matrices (push_matrix e r) = array_set (matricesCount r) e (matrices r).
Proof. reflexivity. Qed.

Lemma recorded_push r es e :
  recorded r = Some es -> recorded (push_matrix e r) = Some (es ++ [e]).
Proof.
  unfold recorded. rewrite matricesCount_push, matrices_push. intros H.
  rewrite seq_S. change (0 + matricesCount r) with (matricesCount r).
  apply mapM_Some. apply mapM_Some in H.
  apply Forall2_app.
  - assert (HF : Forall (fun j => j < matricesCount r) (seq 0 (matricesCount r))).
    { apply Forall_forall. intros j Hj. apply elem_of_seq in Hj. lia. }
    revert HF. induction H as [|j e' js k Hj H IH]; intros HF; constructor.
    + apply Forall_cons in HF as [Hlt _].
      rewrite array_get_set_ne by lia. done.
    + apply IH. by apply Forall_cons in HF as [_ ?].
  - constructor; [|constructor]. apply array_get_set_eq.
Qed.

Lemma flush_empty camera gl r :
  matricesCount r = 0 -> flush camera (gl, r) = Some (gl, r).
Proof. intros H. unfold flush. by rewrite H. Qed.

Lemma flush_nonempty camera gl r es :
  recorded r = Some es -> matricesCount r ≠ 0 ->
  flush camera (gl, r)
  = Some (gl ++ flush_calls camera r es, set_matricesCount 0 (set_count 0 r)).
Proof.
  intros Hes Hmc. unfold flush.
  destruct (Nat.eqb_spec (matricesCount r) 0) as [|_]; [done|].
  by rewrite Hes.
Qed.

Lemma drawn_lines_app gl1 gl2 :
  GL.drawn_lines (gl1 ++ gl2) = GL.drawn_lines gl1 + GL.drawn_lines gl2.
Proof. apply sum_list_with_app. Qed.

Lemma drawn_lines_draw_entries pi es :
  GL.drawn_lines (flat_map (draw_entry (F:=F) pi) es) = total es.
Proof.
  induction es as [|e es IH]; [done|].
  rewrite total_cons. cbn [flat_map]. rewrite drawn_lines_app, IH.
  unfold GL.drawn_lines. simpl. lia.
Qed.

Lemma drawn_lines_flush_calls camera r es :
  GL.drawn_lines (flush_calls camera r es) = total es.
Proof.
  unfold flush_calls. rewrite !drawn_lines_app, drawn_lines_draw_entries.
  unfold GL.drawn_lines. simpl. lia.
Qed.

Lemma loop_invariant_write i lv p color r :
  loop_invariant i lv r -> count r ≠ MAX_VERTICES ->
  loop_invariant (S i) lv (write_vertex p color r).
Proof.
  intros (es & Hes & Hc & Hlv & Hev & Hle & Hmax & _) Hne.
  exists es. change (count (write_vertex p color r)) with (S (S (count r))).
  rewrite MAX_VERTICES_eq in *.
  repeat split; try done; lia.
Qed.

(** At capacity the intra-call flush always has entries to draw:
    the ones recorded, with the pending one unless the call has just
    begun; together they tile the whole buffer. *)
Lemma capacity_flush camera matrix i lv gl r es :
  loop_invariant i lv r -> recorded r = Some es -> count r = MAX_VERTICES ->
  let es' := if 0 <? i then es ++ [pending_entry matrix lv r] else es in
  contiguous es' 0 (MAX_VERTICES / 2)
  /\ flush camera (gl, before_flush matrix i lv r)
     = Some (gl ++ flush_calls camera r es',
             set_matricesCount 0 (set_count 0 (before_flush matrix i lv r))).
Proof.
  intros (es0 & Hes0 & Hc & Hlv & Hev & Hle & Hmax & Hi0) Hes Heq.
  rewrite Hes in Hes0. injection Hes0 as <-.
  unfold before_flush. destruct i as [|i].
  - change (0 <? 0) with false. cbv iota zeta.
    specialize (Hi0 eq_refl). subst lv. rewrite Heq in Hc.
    split; [done|]. apply flush_nonempty; [done|].
    apply recorded_length in Hes. rewrite <- Hes.
    apply contiguous_total in Hc. destruct es; [|done].
    rewrite MAX_VERTICES_eq in Hc. by vm_compute in Hc.
  - change (0 <? S i) with true. cbv iota zeta.
    assert (Hc' : contiguous (es ++ [pending_entry matrix lv r]) 0 (MAX_VERTICES / 2)).
    { eapply contiguous_app; [done|].
      change (lv / 2 = lv / 2
              /\ lv / 2 + (count r - lv) / 2 = MAX_VERTICES / 2).
      split; [done|]. rewrite <- Heq. lia. }
    split; [done|].
    rewrite (flush_nonempty camera gl _ (es ++ [pending_entry matrix lv r]));
      [done|by apply recorded_push|by rewrite matricesCount_push].
Qed.

(** One iteration of the loop: it cannot throw, it keeps the loop
    invariant and accounts for exactly one more vertex; below capacity
    it only writes, at capacity it uploads the whole buffer first and
    writes at the start of the emptied buffer. *)
Lemma addVertices_body_spec camera matrix color i p lv gl r es :
  loop_invariant i lv r -> recorded r = Some es ->
  exists lv' gl' r',
    addVertices_body camera matrix color i p (lv, gl, r) = Some (lv', gl', r')
    /\ loop_invariant (S i) lv' r'
    /\ GL.drawn_lines gl' + count r' / 2 = GL.drawn_lines gl + count r / 2 + 1
    /\ (count r ≠ MAX_VERTICES ->
         lv' = lv /\ gl' = gl /\ r' = write_vertex p color r)
    /\ (count r = MAX_VERTICES ->
         let es' := if 0 <? i then es ++ [pending_entry matrix lv r] else es in
         partitions es' (MAX_VERTICES / 2)
         /\ gl' = gl ++ flush_calls camera r es'
         /\ lv' = 0 /\ count r' = 2 /\ recorded r' = Some []
         /\ vertices r'
            = typed_set 1 (fround (Vec2.y p))
                (typed_set 0 (fround (Vec2.x p)) (vertices r))).
Proof.
  intros Hinv Hes. unfold addVertices_body.
  destruct (Nat.eqb_spec (count r) MAX_VERTICES) as [Heq|Hne].
  - destruct (capacity_flush camera matrix i lv gl r es Hinv Hes Heq) as [Hc Hfl].
    set (es' := if 0 <? i then es ++ [pending_entry matrix lv r] else es) in *.
    rewrite Hfl. cbn -[Nat.div Nat.modulo MAX_VERTICES flush_calls write_vertex].
    eexists _, _, _. split; [reflexivity|]. split; [|split; [|split]].
    + exists []. rewrite MAX_VERTICES_eq. fields. repeat split; try done; lia.
    + rewrite drawn_lines_app, drawn_lines_flush_calls.
      apply contiguous_total in Hc. fields.
      rewrite MAX_VERTICES_eq in *. lia.
    + done.
    + intros _. split; [by apply contiguous_partitions|].
      repeat split; try done.
      unfold before_flush. by destruct (0 <? i).
  - cbn -[Nat.div Nat.modulo MAX_VERTICES flush_calls write_vertex].
    eexists _, _, _. split; [reflexivity|]. split; [|split; [|split]].
    + by apply loop_invariant_write.
    + fields. lia.
    + done.
    + done.
Qed.

Lemma addVertices_loop_app camera matrix color ps1 ps2 i ls :
  addVertices_loop camera matrix color i (ps1 ++ ps2) ls
  = ls' ← addVertices_loop camera matrix color i ps1 ls;
    addVertices_loop camera matrix color (i + length ps1) ps2 ls'.
Proof.
  revert i ls. induction ps1 as [|p ps1 IH]; intros i ls.
  - simpl. by rewrite Nat.add_0_r.
  - cbn [addVertices_loop app length].
    destruct (addVertices_body camera matrix color i p ls) as [ls1|]; [|done].
    cbn [mbind option_bind]. rewrite IH. by rewrite Nat.add_succ_r.
Qed.

(** The whole loop: it cannot throw, keeps the loop invariant and
    accounts for every point; when the points fit it neither uploads
    nor touches the recorded entries. *)
Lemma addVertices_loop_spec camera matrix color ps i lv gl r :
  loop_invariant i lv r ->
  exists lv' gl' r',
    addVertices_loop camera matrix color i ps (lv, gl, r) = Some (lv', gl', r')
    /\ loop_invariant (i + length ps) lv' r'
    /\ GL.drawn_lines gl' + count r' / 2
        = GL.drawn_lines gl + count r / 2 + length ps
    /\ (count r + 2 * length ps <= MAX_VERTICES ->
         lv' = lv /\ gl' = gl /\ count r' = count r + 2 * length ps
         /\ recorded r' = recorded r).
Proof.
  revert i lv gl r. induction ps as [|p ps IH]; intros i lv gl r Hinv.
  - exists lv, gl, r. cbn [addVertices_loop length].
    rewrite Nat.add_0_r. repeat split; try done; lia.
  - pose proof Hinv as (es & Hes & _).
    destruct (addVertices_body_spec camera matrix color i p lv gl r es Hinv Hes)
      as (lv1 & gl1 & r1 & Hbody & Hinv1 & Hacc1 & Hbelow & _).
    destruct (IH (S i) lv1 gl1 r1 Hinv1)
      as (lv2 & gl2 & r2 & Hloop & Hinv2 & Hacc2 & Hfit).
    exists lv2, gl2, r2. cbn [addVertices_loop length].
    rewrite Hbody. cbn [mbind option_bind]. rewrite Hloop.
    split; [done|]. split; [by rewrite Nat.add_succ_r|]. split; [lia|].
    intros Hroom.
    destruct Hbelow as (-> & -> & ->); [lia|].
    destruct Hfit as (-> & -> & Hcount & Hrec); [fields; lia|].
    fields. repeat split; try done. lia.
Qed.

Lemma invariant_new vb cb ib pi : invariant (new vb cb ib pi : RenderLine.t F M).
Proof.
  exists []. rewrite MAX_VERTICES_eq. repeat split; try done.
  cbn [count new]. lia.
Qed.

Lemma invariant_loop r : invariant r -> loop_invariant 0 (count r) r.
Proof.
  intros (es & Hes & Hc & Hev & Hmax). exists es. repeat split; try done.
Qed.

Lemma loop_invariant_pending matrix i lv r es :
  loop_invariant i lv r -> recorded r = Some es ->
  contiguous (es ++ [pending_entry matrix lv r]) 0 (count r / 2).
Proof.
  intros (es0 & Hes0 & Hc & Hlv & Hev & Hle & Hmax & _) Hes.
  rewrite Hes in Hes0. injection Hes0 as <-.
  eapply contiguous_app; [done|].
  change (lv / 2 = lv / 2 /\ lv / 2 + (count r - lv) / 2 = count r / 2).
  split; [done|]. lia.
Qed.

Lemma loop_invariant_finish matrix i lv r :
  loop_invariant i lv r ->
  invariant (push_matrix (pending_entry matrix lv r) r).
Proof.
  intros Hinv. pose proof Hinv as (es & Hes & Hc & Hlv & Hev & Hle & Hmax & _).
  eexists. split; [by apply recorded_push|].
  fields. split; [|done].
  by eapply loop_invariant_pending.
Qed.

Lemma addVertices_spec camera matrix ps color gl r :
  invariant r ->
  exists gl' r',
    addVertices camera matrix ps color (gl, r) = Some (gl', r')
    /\ invariant r'
    /\ GL.drawn_lines gl' + count r' / 2
        = GL.drawn_lines gl + count r / 2 + length ps
    /\ (count r + 2 * length ps <= MAX_VERTICES ->
         gl' = gl /\ count r' = count r + 2 * length ps
         /\ forall es, recorded r = Some es ->
              recorded r' = Some (es ++ [Entry.mk matrix (count r / 2) (length ps)])).
Proof.
  intros Hinv.
  destruct (addVertices_loop_spec camera matrix color ps 0 (count r) gl r
              (invariant_loop _ Hinv))
    as (lv1 & gl1 & r1 & Hloop & Hinv1 & Hacc & Hfit).
  unfold addVertices. rewrite Hloop. cbn [mbind option_bind].
  eexists _, _. split; [reflexivity|]. split; [|split].
  - by eapply loop_invariant_finish.
  - done.
  - intros Hroom. destruct (Hfit Hroom) as (-> & -> & Hcount & Hrec).
    split; [done|]. split; [done|]. intros es Hes.
    unfold pending_entry. rewrite Hcount.
    replace ((count r + 2 * length ps - count r) / 2) with (length ps) by lia.
    apply recorded_push. by rewrite Hrec.
Qed.

Lemma invariant_empty r : invariant r -> matricesCount r = 0 -> count r = 0.
Proof.
  intros (es & Hes & Hc & Hev & Hmax) Hmc.
  apply recorded_length in Hes. rewrite Hmc in Hes.
  destruct es; [|done]. cbn [contiguous] in Hc. lia.
Qed.

Lemma flush_spec camera gl r :
  invariant r ->
  exists gl' r',
    flush camera (gl, r) = Some (gl', r')
    /\ invariant r'
    /\ count r' = 0 /\ matricesCount r' = 0
    /\ GL.drawn_lines gl' = GL.drawn_lines gl + count r / 2.
Proof.
  intros Hinv. destruct (decide (matricesCount r = 0)) as [Hmc|Hmc].
  - rewrite (flush_empty _ _ _ Hmc). exists gl, r.
    pose proof (invariant_empty _ Hinv Hmc) as Hcount.
    repeat split; try done; lia.
  - pose proof Hinv as (es & Hes & Hc & Hev & Hmax).
    rewrite (flush_nonempty _ _ _ _ Hes Hmc). eexists _, _.
    split; [reflexivity|]. split; [|split; [done|split; [done|]]].
    + exists []. rewrite MAX_VERTICES_eq. fields. repeat split; try done; lia.
    + rewrite drawn_lines_app, drawn_lines_flush_calls.
      apply contiguous_total in Hc. lia.
Qed.

(** Every sequence of calls runs to completion, keeps the invariant
    and loses no vertex: what was drawn plus what is buffered is what
    was passed in. *)
Lemma run_spec camera os gl r :
  invariant r ->
  exists gl' r',
    run camera os (gl, r) = Some (gl', r')
    /\ invariant r'
    /\ GL.drawn_lines gl' + count r' / 2
        = GL.drawn_lines gl + count r / 2 + sum_list_with points_of os.
Proof.
  revert gl r. induction os as [|o os IH]; intros gl r Hinv.
  - exists gl, r. cbn [run sum_list_with]. repeat split; try done; lia.
  - assert (exists gl1 r1, exec camera o (gl, r) = Some (gl1, r1)
              /\ invariant r1
              /\ GL.drawn_lines gl1 + count r1 / 2
                  = GL.drawn_lines gl + count r / 2 + points_of o)
      as (gl1 & r1 & Hexec & Hinv1 & Hacc1).
    { destruct o as [matrix ps color|]; cbn [exec points_of].
      - destruct (addVertices_spec camera matrix ps color gl r Hinv)
          as (gl1 & r1 & ? & ? & ? & _). by exists gl1, r1.
      - destruct (flush_spec camera gl r Hinv)
          as (gl1 & r1 & ? & ? & Hc0 & ? & ?). exists gl1, r1.
        repeat split; try done; lia. }
    destruct (IH gl1 r1 Hinv1) as (gl2 & r2 & Hrun & Hinv2 & Hacc2).
    exists gl2, r2. cbn [run sum_list_with]. rewrite Hexec.
    cbn [mbind option_bind]. repeat split; try done; lia.
Qed.

(** *** Calls that fit in the buffer, and the size of the buffer *)

Lemma count_write_all color ps r :
  count (write_all color ps r) = count r + 2 * length ps.
Proof.
  revert r. induction ps as [|p ps IH]; intros r; cbn [write_all foldl length].
  - lia.
  - unfold write_all in IH. rewrite IH. fields. lia.
Qed.

Lemma recorded_write_all color ps r : recorded (write_all color ps r) = recorded r.
Proof.
  revert r. induction ps as [|p ps IH]; intros r; [done|].
  cbn [write_all foldl]. unfold write_all in IH. by rewrite IH.
Qed.

Lemma length_vertices_write_vertex p color r :
  length (vertices (write_vertex p color r)) = length (vertices r).
Proof. fields. unfold typed_set. by rewrite !length_insert. Qed.

Lemma length_vertices_write_all color ps r :
  length (vertices (write_all color ps r)) = length (vertices r).
Proof.
  revert r. induction ps as [|p ps IH]; intros r; [done|].
  cbn [write_all foldl]. unfold write_all in IH.
  by rewrite IH, length_vertices_write_vertex.
Qed.

Lemma take_vertices_write_vertex p color r :
  count r + 2 <= length (vertices r) ->
  take (count r + 2) (vertices (write_vertex p color r))
  = take (count r) (vertices r) ++ [fround (Vec2.x p); fround (Vec2.y p)].
Proof.
  intros Hlen. fields. unfold typed_set.
  generalize (fround (Vec2.x p)) (fround (Vec2.y p)). intros a b.
  generalize dependent (count r). generalize (vertices r). clear.
  intros v. induction v as [|c v IH]; intros n Hlen.
  - simpl in Hlen. lia.
  - destruct n as [|n].
    + destruct v as [|c' v]; [simpl in Hlen; lia|]. reflexivity.
    + cbn [length] in Hlen. cbn. f_equal. apply IH. lia.
Qed.

Lemma take_vertices_write_all color ps r :
  count r + 2 * length ps <= length (vertices r) ->
  take (count r + 2 * length ps) (vertices (write_all color ps r))
  = take (count r) (vertices r) ++ coords ps.
Proof.
  revert r. induction ps as [|p ps IH]; intros r Hlen.
  - cbn [write_all foldl length coords flat_map]. rewrite Nat.mul_0_r, Nat.add_0_r.
    by rewrite app_nil_r.
  - cbn [length] in Hlen. cbn [write_all foldl]. unfold write_all in IH.
    specialize (IH (write_vertex p color r)).
    rewrite length_vertices_write_vertex in IH.
    change (count (write_vertex p color r)) with (S (S (count r))) in IH.
    replace (count r + 2 * length (p :: ps)) with (S (S (count r)) + 2 * length ps)
      by (cbn [length]; lia).
    rewrite IH by lia.
    replace (S (S (count r))) with (count r + 2) by lia.
    rewrite take_vertices_write_vertex by lia.
    cbn [coords flat_map]. by rewrite <- app_assoc.
Qed.

(** A call whose points fit only writes. *)
Lemma addVertices_loop_fit camera matrix color ps i lv gl r :
  count r mod 2 = 0 -> count r + 2 * length ps <= MAX_VERTICES ->
  addVertices_loop camera matrix color i ps (lv, gl, r)
  = Some (lv, gl, write_all color ps r).
Proof.
  revert i r. induction ps as [|p ps IH]; intros i r Hev Hfit; [done|].
  cbn [length] in Hfit. cbn [addVertices_loop write_all foldl]. unfold addVertices_body.
  destruct (Nat.eqb_spec (count r) MAX_VERTICES) as [Heq|_]; [lia|].
  cbn [mbind option_bind]. apply IH; fields; lia.
Qed.

Lemma addVertices_fit camera matrix ps color gl r :
  count r mod 2 = 0 -> count r + 2 * length ps <= MAX_VERTICES ->
  addVertices camera matrix ps color (gl, r)
  = Some (gl, push_matrix (Entry.mk matrix (count r / 2) (length ps))
                (write_all color ps r)).
Proof.
  intros Hev Hfit. unfold addVertices.
  rewrite addVertices_loop_fit by done. cbn [mbind option_bind].
  unfold pending_entry. rewrite count_write_all.
  by replace ((count r + 2 * length ps - count r) / 2) with (length ps) by lia.
Qed.

Lemma flush_length camera gl r gl' r' :
  flush camera (gl, r) = Some (gl', r') -> length (vertices r') = length (vertices r).
Proof.
  unfold flush. destruct (matricesCount r =? 0).
  - by intros [= _ <-].
  - destruct (recorded r); [|done]. by intros [= _ <-].
Qed.

Lemma addVertices_body_length camera matrix color i p lv gl r lv' gl' r' :
  addVertices_body camera matrix color i p (lv, gl, r) = Some (lv', gl', r') ->
  length (vertices r') = length (vertices r).
Proof.
  unfold addVertices_body. destruct (count r =? MAX_VERTICES).
  - destruct (flush camera (gl, before_flush matrix i lv r)) as [[gl2 r2]|] eqn:Hfl;
      [|done].
    cbn [mbind option_bind]. intros [= _ _ <-].
    rewrite length_vertices_write_vertex. apply flush_length in Hfl.
    rewrite Hfl. unfold before_flush. by destruct (0 <? i).
  - cbn [mbind option_bind]. intros [= _ _ <-]. apply length_vertices_write_vertex.
Qed.

Lemma addVertices_loop_length camera matrix color ps i lv gl r lv' gl' r' :
  addVertices_loop camera matrix color i ps (lv, gl, r) = Some (lv', gl', r') ->
  length (vertices r') = length (vertices r).
Proof.
  revert i lv gl r. induction ps as [|p ps IH]; intros i lv gl r.
  - by intros [= _ _ <-].
  - cbn [addVertices_loop].
    destruct (addVertices_body camera matrix color i p (lv, gl, r))
      as [[[lv1 gl1] r1]|] eqn:Hbody; [|done].
    cbn [mbind option_bind]. intros Hloop.
    apply IH in Hloop. apply addVertices_body_length in Hbody. congruence.
Qed.

Lemma addVertices_length camera matrix ps color gl r gl' r' :
  addVertices camera matrix ps color (gl, r) = Some (gl', r') ->
  length (vertices r') = length (vertices r).
Proof.
  unfold addVertices.
  destruct (addVertices_loop camera matrix color 0 ps (count r, gl, r))
    as [[[lv1 gl1] r1]|] eqn:Hloop; [|done].
  cbn [mbind option_bind]. intros [= _ <-].
  by apply addVertices_loop_length in Hloop.
Qed.

Lemma at_loop_head_spec camera vb cb ib pi os matrix color ps :
  exists lv gl r,
    at_loop_head camera vb cb ib pi os matrix color ps = Some (lv, gl, r)
    /\ loop_invariant (length ps) lv r.
Proof.
  destruct (run_spec camera os [] (new vb cb ib pi) (invariant_new _ _ _ _))
    as (gl0 & r0 & Hrun & Hinv0 & _).
  destruct (addVertices_loop_spec camera matrix color ps 0 (count r0) gl0 r0
              (invariant_loop _ Hinv0))
    as (lv & gl & r & Hloop & Hinv & _).
  exists lv, gl, r. unfold at_loop_head. rewrite Hrun.
  cbn [mbind option_bind]. by rewrite Hloop.
Qed.
End Facts.
End RenderLineFacts.

(** ** RenderPoint *)

Module RenderPointFacts.
Import RenderPoint.

Lemma point_MAX_VERTICES_eq : MAX_VERTICES = 512.
Proof. reflexivity. Qed.

Ltac fields := cbn [count vertices colors write_vertex set_count] in *.

Section Facts.
Context {F M : Type} `{!Number F} `{!Mat4Ops F M} `{!Classic2d F}.
Implicit Types (r : RenderPoint.t F) (gl : list (GL.call F M))
  (camera : Camera.t F).

Lemma drawn_points_app gl1 gl2 :
  GL.drawn_points (gl1 ++ gl2) = GL.drawn_points gl1 + GL.drawn_points gl2.
Proof. apply sum_list_with_app. Qed.

Lemma drawn_points_flush_calls camera r :
  GL.drawn_points (flush_calls (M:=M) camera r) = count r / 2.
Proof. unfold flush_calls, GL.drawn_points. cbn -[Nat.div]. lia. Qed.

Lemma point_invariant_new vb cb ib pi : invariant (new vb cb ib pi : RenderPoint.t F).
Proof. split; [done|]. cbn [count new]. lia. Qed.

Lemma point_flush_spec camera gl r :
  exists gl' r',
    flush camera (gl, r) = (gl', r')
    /\ count r' = 0
    /\ GL.drawn_points gl' = GL.drawn_points gl + count r / 2
    /\ (count r = 0 -> gl' = gl /\ r' = r)
    /\ (count r ≠ 0 -> gl' = gl ++ flush_calls camera r).
Proof.
  unfold flush. destruct (Nat.eqb_spec (count r) 0) as [H0|Hn].
  - exists gl, r. repeat split; try done; lia.
  - eexists _, _. split; [reflexivity|]. fields.
    rewrite drawn_points_app, drawn_points_flush_calls. done.
Qed.

(** One call of [vertex]: below capacity it only writes; at capacity
    it uploads the buffer and writes at the start of the emptied
    buffer. *)
Lemma vertex_spec camera p color gl r :
  invariant r ->
  exists gl' r',
    vertex camera p color (gl, r) = (gl', r')
    /\ invariant r'
    /\ GL.drawn_points gl' + count r' / 2 = GL.drawn_points gl + count r / 2 + 1
    /\ (count r ≠ MAX_VERTICES -> gl' = gl /\ r' = write_vertex p color r)
    /\ (count r = MAX_VERTICES ->
         gl' = gl ++ flush_calls camera r
         /\ count r' = 2
         /\ vertices r'
            = typed_set 1 (fround (Vec2.y p))
                (typed_set 0 (fround (Vec2.x p)) (vertices r))).
Proof.
  intros [Hev Hmax]. unfold vertex. cbn [snd].
  destruct (Nat.eqb_spec (count r) MAX_VERTICES) as [Heq|Hne].
  - destruct (point_flush_spec camera gl r) as (gl1 & r1 & Hfl & Hc0 & Hacc & _ & Hup).
    pose proof Hfl as Hfl'. unfold flush in Hfl'.
    destruct (Nat.eqb_spec (count r) 0) as [H0|_].
    { rewrite point_MAX_VERTICES_eq in Heq. lia. }
    injection Hfl' as <- <-. rewrite Hfl.
    eexists _, _. split; [reflexivity|]. unfold invariant. fields.
    rewrite point_MAX_VERTICES_eq in *.
    rewrite drawn_points_app, drawn_points_flush_calls.
    repeat split; try done; lia.
  - eexists _, _. split; [reflexivity|]. unfold invariant. fields.
    rewrite point_MAX_VERTICES_eq in *. repeat split; try done; lia.
Qed.

Lemma point_exec_spec camera o gl r :
  invariant r ->
  exists gl' r',
    exec camera o (gl, r) = (gl', r')
    /\ invariant r'
    /\ GL.drawn_points gl' + count r' / 2
        = GL.drawn_points gl + count r / 2 + points_of o.
Proof.
  intros Hinv. destruct o as [p color|]; cbn [exec points_of].
  - destruct (vertex_spec camera p color gl r Hinv)
      as (gl1 & r1 & ? & ? & ? & _). by exists gl1, r1.
  - destruct (point_flush_spec camera gl r) as (gl1 & r1 & ? & Hc0 & ? & _).
    exists gl1, r1. split; [done|]. destruct Hinv as [? ?].
    unfold invariant. rewrite Hc0. split; [split; [done|lia]|lia].
Qed.

Lemma point_run_spec camera os gl r :
  invariant r ->
  exists gl' r',
    run camera os (gl, r) = (gl', r')
    /\ invariant r'
    /\ GL.drawn_points gl' + count r' / 2
        = GL.drawn_points gl + count r / 2 + sum_list_with points_of os.
Proof.
  revert gl r. induction os as [|o os IH]; intros gl r Hinv.
  - exists gl, r. split; [reflexivity|]. split; [done|].
    change (sum_list_with points_of []) with 0. lia.
  - destruct (point_exec_spec camera o gl r Hinv) as (gl1 & r1 & Hexec & Hinv1 & Hacc1).
    destruct (IH gl1 r1 Hinv1) as (gl2 & r2 & Hrun & Hinv2 & Hacc2).
    exists gl2, r2. unfold run in *. cbn [foldl sum_list_with].
    rewrite Hexec. split; [done|]. split; [done|]. lia.
Qed.
End Facts.
End RenderPointFacts.

(** ** The batching buffers *)

Section Batching.
Context {F M : Type} `{!Number F} `{!Mat4Ops F M} `{!Classic2d F}.

(** C1. The buffered coordinate count never exceeds the capacity, 1024
    for [RenderLine] and 512 for [RenderPoint]: after every sequence of
    calls on a fresh object, and at every iteration inside a call of
    [addVertices].  Below capacity a vertex is only written; when the
    next vertex meets a full buffer, the buffer is uploaded as it stands
    and the vertex is written at the start of the emptied buffer. *)
Theorem batching_never_exceeds_capacity (camera : Camera.t F) :
  RenderLine.MAX_VERTICES = 1024 /\ RenderPoint.MAX_VERTICES = 512
  /\ (forall vb cb ib pi os,
        exists gl r,
          RenderLine.run camera os ([], RenderLine.new (M:=M) vb cb ib pi) = Some (gl, r)
          /\ RenderLine.count r <= RenderLine.MAX_VERTICES)
  /\ (forall vb cb ib pi os matrix color ps p,
        exists lv gl r lv' gl' r',
          RenderLine.at_loop_head camera vb cb ib pi os matrix color ps
            = Some (lv, gl, r)
          /\ RenderLine.count r <= RenderLine.MAX_VERTICES
          /\ RenderLine.addVertices_body camera matrix color (length ps) p (lv, gl, r)
             = Some (lv', gl', r')
          /\ RenderLine.count r' <= RenderLine.MAX_VERTICES
          /\ (RenderLine.count r <> RenderLine.MAX_VERTICES ->
               gl' = gl /\ r' = RenderLine.write_vertex p color r)
          /\ (RenderLine.count r = RenderLine.MAX_VERTICES ->
               exists es,
                 gl' = gl ++ RenderLine.flush_calls camera r es
                 /\ RenderLine.count r' = 2
                 /\ RenderLine.vertices r'
                    = typed_set 1 (fround (Vec2.y p))
                        (typed_set 0 (fround (Vec2.x p)) (RenderLine.vertices r))))
  /\ (forall vb cb ib pi os p color,
        exists gl r gl' r',
          RenderPoint.run (M:=M) camera os ([], RenderPoint.new vb cb ib pi) = (gl, r)
          /\ RenderPoint.count r <= RenderPoint.MAX_VERTICES
          /\ RenderPoint.vertex camera p color (gl, r) = (gl', r')
          /\ RenderPoint.count r' <= RenderPoint.MAX_VERTICES
          /\ (RenderPoint.count r <> RenderPoint.MAX_VERTICES ->
               gl' = gl /\ r' = RenderPoint.write_vertex p color r)
          /\ (RenderPoint.count r = RenderPoint.MAX_VERTICES ->
               gl' = gl ++ RenderPoint.flush_calls camera r
               /\ RenderPoint.count r' = 2
               /\ RenderPoint.vertices r'
                  = typed_set 1 (fround (Vec2.y p))
                      (typed_set 0 (fround (Vec2.x p)) (RenderPoint.vertices r)))).
Proof.
  split; [reflexivity|]. split; [reflexivity|]. split; [|split].
  - intros vb cb ib pi os.
    destruct (RenderLineFacts.run_spec camera os [] (RenderLine.new vb cb ib pi)
                (RenderLineFacts.invariant_new _ _ _ _))
      as (gl & r & Hrun & (es & _ & _ & _ & Hmax) & _).
    by exists gl, r.
  - intros vb cb ib pi os matrix color ps p.
    destruct (RenderLineFacts.at_loop_head_spec camera vb cb ib pi os matrix color ps)
      as (lv & gl & r & Hhead & Hinv).
    pose proof Hinv as (es & Hes & _ & _ & _ & _ & Hmax & _).
    destruct (RenderLineFacts.addVertices_body_spec
                camera matrix color (length ps) p lv gl r es Hinv Hes)
      as (lv' & gl' & r' & Hbody & (es' & _ & _ & _ & _ & _ & Hmax' & _) & _
          & Hbelow & Hcap).
    exists lv, gl, r, lv', gl', r'.
    split; [done|]. split; [done|]. split; [done|]. split; [done|]. split.
    + intros Hne. by destruct (Hbelow Hne) as (_ & ? & ?).
    + intros Heq. destruct (Hcap Heq) as (_ & -> & _ & ? & _ & ?). eauto.
  - intros vb cb ib pi os p color.
    destruct (RenderPointFacts.point_run_spec camera os [] (RenderPoint.new vb cb ib pi)
                (RenderPointFacts.point_invariant_new _ _ _ _))
      as (gl & r & Hrun & Hinv & _).
    destruct (RenderPointFacts.vertex_spec camera p color gl r Hinv)
      as (gl' & r' & Hv & [_ Hmax'] & _ & Hbelow & Hcap).
    exists gl, r, gl', r'. destruct Hinv as [_ Hmax].
    split; [done|]. split; [done|]. split; [done|]. split; [done|].
    split; [exact Hbelow|].
    intros Heq. by destruct (Hcap Heq) as (? & ? & ?).
Qed.
(** C2. Every flush leaves its buffer empty.  [RenderLine.flush], called
    after any sequence of calls on a fresh object or from inside
    [addVertices] at capacity, leaves [count] and [matricesCount] at 0;
    when it returns early because no entry is recorded, nothing was
    buffered and the object is unchanged.  [RenderPoint.flush] leaves
    [count] at 0 from any state, by the reset or by the early return.
    [RenderText.flush] leaves no pending text and the print offset
    at 0. *)
Theorem flush_clears_buffers (camera : Camera.t F) :
  (forall vb cb ib pi os,
     exists gl r gl' r',
       RenderLine.run camera os ([], RenderLine.new (M:=M) vb cb ib pi) = Some (gl, r)
       /\ RenderLine.flush camera (gl, r) = Some (gl', r')
       /\ RenderLine.count r' = 0 /\ RenderLine.matricesCount r' = 0
       /\ (RenderLine.matricesCount r = 0 -> gl' = gl /\ r' = r))
  /\ (forall vb cb ib pi os matrix color ps,
        exists lv gl r,
          RenderLine.at_loop_head camera vb cb ib pi os matrix color ps
            = Some (lv, gl, r)
          /\ (RenderLine.count r = RenderLine.MAX_VERTICES ->
               exists gl' r',
                 RenderLine.flush camera
                   (gl, RenderLine.before_flush matrix (length ps) lv r)
                   = Some (gl', r')
                 /\ RenderLine.count r' = 0 /\ RenderLine.matricesCount r' = 0))
  /\ (forall gl (r : RenderPoint.t F),
        exists gl' r',
          RenderPoint.flush (M:=M) camera (gl, r) = (gl', r')
          /\ RenderPoint.count r' = 0
          /\ (RenderPoint.count r = 0 -> gl' = gl /\ r' = r))
  /\ (forall width height gl2d (r : RenderText.t F),
        exists gl2d' r',
          RenderText.flush width height (gl2d, r) = (gl2d', r')
          /\ RenderText.texts r' = [] /\ RenderText.yOffset r' = of_nat 0).
Proof.
  split; [|split; [|split]].
  - intros vb cb ib pi os.
    destruct (RenderLineFacts.run_spec camera os [] (RenderLine.new vb cb ib pi)
                (RenderLineFacts.invariant_new _ _ _ _))
      as (gl & r & Hrun & Hinv & _).
    destruct (RenderLineFacts.flush_spec camera gl r Hinv)
      as (gl' & r' & Hfl & _ & Hc & Hmc & _).
    exists gl, r, gl', r'.
    split; [done|]. split; [done|]. split; [done|]. split; [done|].
    intros H0. rewrite (RenderLineFacts.flush_empty _ _ _ H0) in Hfl.
    by injection Hfl.
  - intros vb cb ib pi os matrix color ps.
    destruct (RenderLineFacts.at_loop_head_spec camera vb cb ib pi os matrix color ps)
      as (lv & gl & r & Hhead & Hinv).
    exists lv, gl, r. split; [done|]. intros Heq.
    pose proof Hinv as (es & Hes & _).
    destruct (RenderLineFacts.capacity_flush camera matrix (length ps) lv gl r es
                Hinv Hes Heq) as [_ Hfl].
    eexists _, _. split; [exact Hfl|]. done.
  - intros gl r.
    destruct (RenderPointFacts.point_flush_spec (M:=M) camera gl r)
      as (gl' & r' & Hfl & Hc & _ & Hearly & _).
    by exists gl', r'.
  - intros width height gl2d r. eexists _, _. split; [reflexivity|]. done.
Qed.

(** C7. The recorded entries partition the buffered vertices: after
    every sequence of calls on a fresh object each entry lies in the
    buffer, each begins where the one before it ends, and their counts
    add up to the number of buffered vertices, which is at most the
    512 indices; together with the draw calls already issued they
    account for every point passed in.  Inside a call the same holds
    once the range written so far by the call is counted as an entry,
    and when the call meets a full buffer it is exactly that partition
    of the 512 vertices that is drawn, after which the call goes on
    with an empty list and a range that begins at 0. *)
Theorem entries_partition_buffer (camera : Camera.t F) :
  (forall vb cb ib pi os,
     exists gl r es,
       RenderLine.run camera os ([], RenderLine.new (M:=M) vb cb ib pi) = Some (gl, r)
       /\ RenderLine.recorded r = Some es
       /\ RenderLine.partitions es (RenderLine.count r / 2)
       /\ RenderLine.count r / 2 <= RenderLine.MAX_INDICES
       /\ GL.drawn_lines gl + RenderLine.count r / 2
          = sum_list_with RenderLine.points_of os)
  /\ (forall vb cb ib pi os matrix color ps p,
        exists lv gl r es lv' gl' r',
          RenderLine.at_loop_head camera vb cb ib pi os matrix color ps
            = Some (lv, gl, r)
          /\ RenderLine.recorded r = Some es
          /\ RenderLine.partitions (es ++ [RenderLine.pending_entry matrix lv r])
               (RenderLine.count r / 2)
          /\ RenderLine.addVertices_body camera matrix color (length ps) p (lv, gl, r)
             = Some (lv', gl', r')
          /\ (RenderLine.count r = RenderLine.MAX_VERTICES -> 0 < length ps ->
               gl' = gl ++ RenderLine.flush_calls camera r
                             (es ++ [RenderLine.pending_entry matrix lv r])
               /\ RenderLine.partitions (es ++ [RenderLine.pending_entry matrix lv r])
                    RenderLine.MAX_INDICES
               /\ lv' = 0 /\ RenderLine.recorded r' = Some []
               /\ RenderLine.count r' = 2)).
Proof.
  split.
  - intros vb cb ib pi os.
    destruct (RenderLineFacts.run_spec camera os [] (RenderLine.new vb cb ib pi)
                (RenderLineFacts.invariant_new _ _ _ _))
      as (gl & r & Hrun & (es & Hes & Hc & Hev & Hmax) & Hacc).
    exists gl, r, es. split; [done|]. split; [done|].
    split; [by apply RenderLineFacts.contiguous_partitions|].
    rewrite RenderLineFacts.MAX_VERTICES_eq in Hmax.
    split; [change RenderLine.MAX_INDICES with 512; lia|].
    rewrite Hacc. change (GL.drawn_lines []) with 0.
    change (RenderLine.count (RenderLine.new vb cb ib pi)) with 0. lia.
  - intros vb cb ib pi os matrix color ps p.
    destruct (RenderLineFacts.at_loop_head_spec camera vb cb ib pi os matrix color ps)
      as (lv & gl & r & Hhead & Hinv).
    pose proof Hinv as (es & Hes & _).
    destruct (RenderLineFacts.addVertices_body_spec
                camera matrix color (length ps) p lv gl r es Hinv Hes)
      as (lv' & gl' & r' & Hbody & _ & _ & _ & Hcap).
    exists lv, gl, r, es, lv', gl', r'.
    split; [done|]. split; [done|].
    split; [by eapply RenderLineFacts.contiguous_partitions,
                      RenderLineFacts.loop_invariant_pending|].
    split; [done|]. intros Heq Hpos.
    destruct (Hcap Heq) as (Hpart & Hgl & Hlv & Hcount & Hrec & _).
    destruct (Nat.ltb_spec 0 (length ps)) as [_|?]; [|lia].
    done.
Qed.
End Batching.

(** A call that fills the line buffer exactly (512 points) and a 513th
    point; 256 points that fill the point buffer and a 257th. *)
Lemma batching_never_exceeds_capacity_witness :
  (exists lv gl r lv' gl' r',
     RenderLine.at_loop_head Sample.camera 0 1 2 Sample.lineInfo []
       Sample.New Sample.red (Sample.pt <$> seq 0 512) = Some (lv, gl, r)
     /\ RenderLine.count r = RenderLine.MAX_VERTICES
     /\ RenderLine.addVertices_body Sample.camera Sample.New Sample.red
          (length (Sample.pt <$> seq 0 512)) (Sample.pt 512) (lv, gl, r)
        = Some (lv', gl', r')
     /\ RenderLine.count r' = 2)
  /\ (exists gl r gl' r',
        RenderPoint.run (M:=Sample.mat) Sample.camera
          (replicate 256 (RenderPoint.Vertex (Sample.pt 0) Sample.red))
          ([], Sample.points) = (gl, r)
        /\ RenderPoint.count r = RenderPoint.MAX_VERTICES
        /\ RenderPoint.vertex Sample.camera (Sample.pt 256) Sample.red (gl, r) = (gl', r')
        /\ gl' = gl ++ RenderPoint.flush_calls Sample.camera r
        /\ RenderPoint.count r' = 2).
Proof.
  destruct (batching_never_exceeds_capacity Sample.camera) as (_ & _ & _ & HL & HP).
  split.
  - destruct (HL 0 1 2 Sample.lineInfo [] Sample.New Sample.red
                (Sample.pt <$> seq 0 512) (Sample.pt 512))
      as (lv & gl & r & lv' & gl' & r' & Hhead & _ & Hbody & _ & _ & Hcap).
    assert (Hfull : RenderLine.count r = RenderLine.MAX_VERTICES).
    { assert (H : (fun ls : RenderLine.loop_state => RenderLine.count ls.2)
                    <$> RenderLine.at_loop_head Sample.camera 0 1 2 Sample.lineInfo []
                          Sample.New Sample.red (Sample.pt <$> seq 0 512)
                  = Some RenderLine.MAX_VERTICES) by (vm_compute; reflexivity).
      rewrite Hhead in H. by injection H. }
    destruct (Hcap Hfull) as (es & _ & Hcount & _).
    exists lv, gl, r, lv', gl', r'. repeat split; assumption.
  - destruct (HP 6 7 8 Sample.pointInfo
                (replicate 256 (RenderPoint.Vertex (Sample.pt 0) Sample.red))
                (Sample.pt 256) Sample.red)
      as (gl & r & gl' & r' & Hrun & _ & Hvertex & _ & _ & Hcap).
    assert (Hfull : RenderPoint.count r = RenderPoint.MAX_VERTICES).
    { assert (H : RenderPoint.count
                    (RenderPoint.run (M:=Sample.mat) Sample.camera
                       (replicate 256 (RenderPoint.Vertex (Sample.pt 0) Sample.red))
                       ([], RenderPoint.new 6 7 8 Sample.pointInfo)).2
                  = RenderPoint.MAX_VERTICES) by (vm_compute; reflexivity).
      by rewrite Hrun in H. }
    destruct (Hcap Hfull) as (Hgl & Hcount & _).
    exists gl, r, gl', r'. repeat split; assumption.
Defined.

(** A flush of a fresh line renderer and of a fresh point renderer (the
    early returns), and the flush inside a call that has filled the line
    buffer. *)
Lemma flush_clears_buffers_witness :
  RenderLine.flush Sample.camera ([], Sample.lines) = Some ([], Sample.lines)
  /\ (exists lv gl r gl' r',
        RenderLine.at_loop_head Sample.camera 0 1 2 Sample.lineInfo []
          Sample.New Sample.red (Sample.pt <$> seq 0 512) = Some (lv, gl, r)
        /\ RenderLine.count r = RenderLine.MAX_VERTICES
        /\ RenderLine.flush Sample.camera
             (gl, RenderLine.before_flush Sample.New
                    (length (Sample.pt <$> seq 0 512)) lv r) = Some (gl', r')
        /\ RenderLine.count r' = 0 /\ RenderLine.matricesCount r' = 0)
  /\ RenderPoint.flush (M:=Sample.mat) Sample.camera ([], Sample.points)
     = ([], Sample.points).
Proof.
  destruct (flush_clears_buffers Sample.camera) as (HA & HB & HC & _).
  split; [|split].
  - destruct (HA 0 1 2 Sample.lineInfo [])
      as (gl & r & gl' & r' & Hrun & Hfl & _ & _ & Hearly).
    cbn [RenderLine.run] in Hrun. injection Hrun as <- <-.
    destruct Hearly as [-> ->]; [reflexivity|]. exact Hfl.
  - destruct (HB 0 1 2 Sample.lineInfo [] Sample.New Sample.red
                (Sample.pt <$> seq 0 512)) as (lv & gl & r & Hhead & Hcap).
    assert (Hfull : RenderLine.count r = RenderLine.MAX_VERTICES).
    { assert (H : (fun ls : RenderLine.loop_state => RenderLine.count ls.2)
                    <$> RenderLine.at_loop_head Sample.camera 0 1 2 Sample.lineInfo []
                          Sample.New Sample.red (Sample.pt <$> seq 0 512)
                  = Some RenderLine.MAX_VERTICES) by (vm_compute; reflexivity).
      rewrite Hhead in H. by injection H. }
    destruct (Hcap Hfull) as (gl' & r' & Hfl & Hc & Hmc).
    exists lv, gl, r, gl', r'. repeat split; assumption.
  - destruct (HC [] Sample.points) as (gl' & r' & Hfl & _ & Hearly).
    destruct Hearly as [-> ->]; [reflexivity|]. exact Hfl.
Defined.

(** A call of 3 points, then a call whose 510th point meets the full
    buffer: the two ranges, 3 and 509 vertices, are drawn and the call
    starts over at 0. *)
Lemma entries_partition_buffer_witness :
  exists lv gl r es lv' gl' r',
    RenderLine.at_loop_head Sample.camera 0 1 2 Sample.lineInfo
      [RenderLine.AddVertices Sample.New (Sample.pt <$> seq 0 3) Sample.red]
      Sample.New Sample.red (Sample.pt <$> seq 3 509) = Some (lv, gl, r)
    /\ RenderLine.recorded r = Some es
    /\ RenderLine.count r = RenderLine.MAX_VERTICES
    /\ RenderLine.addVertices_body Sample.camera Sample.New Sample.red
         (length (Sample.pt <$> seq 3 509)) (Sample.pt 512) (lv, gl, r)
       = Some (lv', gl', r')
    /\ gl' = gl ++ RenderLine.flush_calls Sample.camera r
                     (es ++ [RenderLine.pending_entry Sample.New lv r])
    /\ RenderLine.partitions (es ++ [RenderLine.pending_entry Sample.New lv r])
         RenderLine.MAX_INDICES
    /\ lv' = 0 /\ RenderLine.count r' = 2.
Proof.
  destruct (entries_partition_buffer Sample.camera) as [_ HB].
  destruct (HB 0 1 2 Sample.lineInfo
              [RenderLine.AddVertices Sample.New (Sample.pt <$> seq 0 3) Sample.red]
              Sample.New Sample.red (Sample.pt <$> seq 3 509) (Sample.pt 512))
    as (lv & gl & r & es & lv' & gl' & r' & Hhead & Hes & _ & Hbody & Hcap).
  assert (Hfull : RenderLine.count r = RenderLine.MAX_VERTICES).
  { assert (H : (fun ls : RenderLine.loop_state => RenderLine.count ls.2)
                  <$> RenderLine.at_loop_head Sample.camera 0 1 2 Sample.lineInfo
                        [RenderLine.AddVertices Sample.New (Sample.pt <$> seq 0 3)
                           Sample.red]
                        Sample.New Sample.red (Sample.pt <$> seq 3 509)
                = Some RenderLine.MAX_VERTICES) by (vm_compute; reflexivity).
    rewrite Hhead in H. by injection H. }
  assert (Hpos : 0 < length (Sample.pt <$> seq 3 509)).
  { rewrite length_fmap, length_seq. lia. }
  destruct (Hcap Hfull Hpos) as (Hgl & Hpart & Hlv & _ & Hcount).
  exists lv, gl, r, es, lv', gl', r'. repeat split; try assumption.
  all: apply Hpart.
Defined.

(** ** Shader set-up *)

Section ShaderFacts.
Context {F M : Type} `{!Driver F M}.

(** C3. [loadShader] returns [null] exactly when the compile status read
    after [compileShader] is false; it has then logged one line and
    deleted the shader, and otherwise it returns the shader it created
    and does nothing more.  [initShaderProgram] returns [null] exactly
    when the link status read after [linkProgram] is false, whatever the
    two [loadShader] calls returned (their results, [null] included, are
    attached as they are); it has then logged one line, and otherwise it
    returns the program it created.  Nothing is deleted or retried. *)
Theorem shader_failures_return_null :
  (forall type source gl console,
     let shader := gl_createShader gl type in
     let gl1 := gl ++ [ GL.createShader type shader;
                        GL.shaderSource (Some shader) source;
                        GL.compileShader (Some shader) ] in
     exists res gl' console',
       loadShader type source (gl, console) = (res, (gl', console'))
       /\ (res = None <-> gl_COMPILE_STATUS gl1 shader = false)
       /\ (gl_COMPILE_STATUS gl1 shader = false ->
           gl' = gl1 ++ [GL.deleteShader (Some shader)]
           /\ console' = console ++ ["An error occurred compiling the shaders: "
                                       +:+ gl_getShaderInfoLog gl1 shader])
       /\ (gl_COMPILE_STATUS gl1 shader = true ->
           res = Some shader /\ gl' = gl1 /\ console' = console))
  /\ (forall vsSource fsSource st,
        exists vertexShader fragmentShader st1 gl2 console2,
          loadShader GL.VERTEX_SHADER vsSource st = (vertexShader, st1)
          /\ loadShader GL.FRAGMENT_SHADER fsSource st1 = (fragmentShader, (gl2, console2))
          /\ let program := gl_createProgram gl2 in
             let gl3 := gl2 ++ [ GL.createProgram program;
                                 GL.attachShader (Some program) vertexShader;
                                 GL.attachShader (Some program) fragmentShader;
                                 GL.linkProgram (Some program) ] in
             exists res console',
               initShaderProgram vsSource fsSource st = (res, (gl3, console'))
               /\ (res = None <-> gl_LINK_STATUS gl3 program = false)
               /\ (gl_LINK_STATUS gl3 program = false ->
                   console' = console2 ++ ["Unable to initialize the shader program: "
                                             +:+ gl_getProgramInfoLog gl3 program])
               /\ (gl_LINK_STATUS gl3 program = true ->
                   res = Some program /\ console' = console2)).
Proof.
  split.
  - intros type source gl console shader gl1. unfold loadShader.
    fold shader. fold gl1.
    destruct (gl_COMPILE_STATUS gl1 shader) eqn:Hstatus; cbn [negb];
      eexists _, _, _; (split; [reflexivity|]); repeat split; try done.
    all: by intros [_ [_ ?]] || by intros [? _].
  - intros vsSource fsSource st. unfold initShaderProgram.
    destruct (loadShader GL.VERTEX_SHADER vsSource st) as [vertexShader st1] eqn:Hvs.
    destruct (loadShader GL.FRAGMENT_SHADER fsSource st1)
      as [fragmentShader [gl2 console2]] eqn:Hfs.
    exists vertexShader, fragmentShader, st1, gl2, console2.
    split; [done|]. split; [done|]. cbv zeta.
    destruct (gl_LINK_STATUS _ _) eqn:Hstatus; cbn [negb];
      eexists _, _; (split; [reflexivity|]); repeat split; try done.
Qed.
End ShaderFacts.

(** On a driver that rejects everything both functions return [null]
    and log; on one that accepts everything they return the objects. *)
Lemma shader_failures_return_null_witness :
  loadShader (Driver0 := Sample.driver false) GL.VERTEX_SHADER "void main(void) {}" ([], [])
  = (None,
     ([ GL.createShader GL.VERTEX_SHADER 0;
        GL.shaderSource (Some 0) "void main(void) {}";
        GL.compileShader (Some 0);
        GL.deleteShader (Some 0) ],
      ["An error occurred compiling the shaders: syntax error"]))
  /\ loadShader (Driver0 := Sample.driver true) GL.VERTEX_SHADER "void main(void) {}" ([], [])
     = (Some 0,
        ([ GL.createShader GL.VERTEX_SHADER 0;
           GL.shaderSource (Some 0) "void main(void) {}";
           GL.compileShader (Some 0) ], []))
  /\ (initShaderProgram (Driver0 := Sample.driver false) "v" "f" ([], [])).1 = None
  /\ (initShaderProgram (Driver0 := Sample.driver true) "v" "f" ([], [])).1 = Some 6.
Proof.
  split; [|split; [|split]].
  - destruct (shader_failures_return_null (Driver0 := Sample.driver false)) as [HL _].
    destruct (HL GL.VERTEX_SHADER "void main(void) {}" [] [])
      as (res & gl' & console' & Heq & [_ Hnull] & Hfail & _).
    rewrite Heq. rewrite (Hnull eq_refl).
    by destruct (Hfail eq_refl) as [-> ->].
  - destruct (shader_failures_return_null (Driver0 := Sample.driver true)) as [HL _].
    destruct (HL GL.VERTEX_SHADER "void main(void) {}" [] [])
      as (res & gl' & console' & Heq & _ & _ & Hok).
    rewrite Heq. by destruct (Hok eq_refl) as (-> & -> & ->).
  - destruct (shader_failures_return_null (Driver0 := Sample.driver false)) as [_ HP].
    destruct (HP "v" "f" ([], []))
      as (vs & fs & st1 & gl2 & console2 & _ & _ & res & console' & Heq & [_ Hnull] & _).
    rewrite Heq. exact (Hnull eq_refl).
  - destruct (shader_failures_return_null (Driver0 := Sample.driver true)) as [_ HP].
    destruct (HP "v" "f" ([], []))
      as (vs & fs & st1 & gl2 & console2 & Hvs & Hfs & res & console' & Heq & _ & _ & Hok).
    rewrite Heq. destruct (Hok eq_refl) as [-> _].
    vm_compute in Hvs. injection Hvs as _ <-.
    vm_compute in Hfs. injection Hfs as _ <- _. reflexivity.
Defined.

(** ** DebugDraw *)

Module DebugDrawFacts.
Import DebugDraw.

Section Facts.
Context {F M B C : Type}.
Context `{!Number F} `{!Mat4Ops F M} `{!Classic2d F} `{!CanvasOps F C}.
Implicit Types (e : Env.t F M B C) (d : DebugDraw.t F M).

Lemma circle_ps_chords : circle_ps (F:=F) = chords.
Proof. reflexivity. Qed.

Lemma length_circle_ps : length (circle_ps (F:=F)) = 2 * CIRCLE_SEGMENT.
Proof. reflexivity. Qed.

Lemma circle_ps_head : circle_ps (F:=F) !! 0 = Some (perimeter 0).
Proof. reflexivity. Qed.

Lemma draw_invariant_new vb cb ib pi vb' cb' ib' pi' size :
  invariant (F:=F) (M:=M)
    (mk (RenderLine.new vb cb ib pi) (RenderText.new size)
        (RenderPoint.new vb' cb' ib' pi')).
Proof.
  split; [apply RenderLineFacts.invariant_new|].
  split; [|apply RenderPointFacts.point_invariant_new].
  cbn [lines RenderLine.new RenderLine.vertices]. apply length_replicate.
Qed.

(** [drawCircle] cannot throw and hands the line renderer two lists
    under one matrix: the centre with perimeter point 0, then the 64
    chord endpoints.  Whatever the fill of the buffer, 66 more vertices
    are drawn or buffered; when they fit they are appended to the buffer
    as two entries of 2 and 64 vertices. *)
Lemma drawCircle_spec position angle radius color e d :
  invariant d ->
  exists gl' l',
    drawCircle position angle radius color (e, d)
    = Some (Env.set_gl gl' e, mk l' (text d) (points d))
    /\ invariant (mk l' (text d) (points d))
    /\ GL.drawn_lines gl' + RenderLine.count l' / 2
       = GL.drawn_lines (Env.gl e) + RenderLine.count (lines d) / 2
         + (2 * CIRCLE_SEGMENT + 2)
    /\ (RenderLine.count (lines d) + 2 * (2 * CIRCLE_SEGMENT + 2)
          <= RenderLine.MAX_VERTICES ->
        gl' = Env.gl e
        /\ RenderLine.count l' = RenderLine.count (lines d) + 2 * (2 * CIRCLE_SEGMENT + 2)
        /\ (forall es, RenderLine.recorded (lines d) = Some es ->
              RenderLine.recorded l'
              = Some (es ++ [ RenderLine.Entry.mk (circle_matrix position angle radius)
                                (RenderLine.count (lines d) / 2) 2;
                              RenderLine.Entry.mk (circle_matrix position angle radius)
                                (RenderLine.count (lines d) / 2 + 2)
                                (2 * CIRCLE_SEGMENT) ]))
        /\ take (RenderLine.count l') (RenderLine.vertices l')
           = take (RenderLine.count (lines d)) (RenderLine.vertices (lines d))
               ++ RenderLine.coords ([center; perimeter 0] ++ chords)).
Proof.
  intros (Hl & Hlen & Hp). unfold drawCircle.
  rewrite <- circle_ps_chords.
  pose proof (circle_ps_head) as Hhead. pose proof length_circle_ps as Hlps.
  set (ps := circle_ps) in *. clearbody ps.
  set (n := 2 * CIRCLE_SEGMENT) in *. clearbody n.
  set (matrix := circle_matrix position angle radius).
  rewrite Hhead. cbn [mbind option_bind].
  destruct (RenderLineFacts.addVertices_spec (Env.camera e) matrix
              [center; perimeter 0] color (Env.gl e) (lines d) Hl)
    as (gl1 & l1 & Hadd1 & Hl1 & Hacc1 & _).
  destruct (RenderLineFacts.addVertices_spec (Env.camera e) matrix
              ps color gl1 l1 Hl1)
    as (gl2 & l2 & Hadd2 & Hl2 & Hacc2 & _).
  rewrite Hadd1. cbn [mbind option_bind]. rewrite Hadd2. cbn [mbind option_bind].
  exists gl2, l2. split; [done|].
  pose proof (RenderLineFacts.addVertices_length _ _ _ _ _ _ _ _ Hadd1) as Hlen1.
  pose proof (RenderLineFacts.addVertices_length _ _ _ _ _ _ _ _ Hadd2) as Hlen2.
  split; [|split].
  - split; [done|]. split; [|done]. cbn [lines]. congruence.
  - rewrite Hacc2, Hacc1, Hlps. cbn [length]. lia.
  - intros Hfit.
    destruct Hl as (es0 & Hes0 & _ & Hev & _).
    rewrite RenderLineFacts.addVertices_fit in Hadd1 by (cbn [length]; lia).
    apply (inj Some), pair_equal_spec in Hadd1 as [<- <-].
    set (l1 := RenderLine.push_matrix _
                 (RenderLine.write_all color [center; perimeter 0] (lines d))) in *.
    assert (Hc1 : RenderLine.count l1 = RenderLine.count (lines d) + 4).
    { subst l1. rewrite RenderLineFacts.count_push, RenderLineFacts.count_write_all.
      cbn [length]. lia. }
    assert (Hv1 : RenderLine.vertices l1
                  = RenderLine.vertices
                      (RenderLine.write_all color [center; perimeter 0] (lines d)))
      by apply RenderLineFacts.vertices_push.
    rewrite RenderLineFacts.addVertices_fit in Hadd2 by lia.
    apply (inj Some), pair_equal_spec in Hadd2 as [<- <-].
    rewrite RenderLineFacts.count_push, RenderLineFacts.vertices_push.
    rewrite (RenderLineFacts.count_write_all color ps l1).
    split; [done|]. split; [|split].
    + lia.
    + intros es Hes.
      erewrite RenderLineFacts.recorded_push.
      2:{ rewrite RenderLineFacts.recorded_write_all. subst l1.
          apply RenderLineFacts.recorded_push.
          by rewrite RenderLineFacts.recorded_write_all. }
      rewrite <- app_assoc. cbn [app length]. rewrite Hlps, Hc1.
      by replace ((RenderLine.count (lines d) + 4) / 2)
        with (RenderLine.count (lines d) / 2 + 2) by lia.
    + rewrite RenderLineFacts.take_vertices_write_all
        by (rewrite Hv1, RenderLineFacts.length_vertices_write_all, Hlen; lia).
      rewrite Hc1, Hv1.
      change 4 with (2 * length [center (F:=F); perimeter 0]).
      rewrite RenderLineFacts.take_vertices_write_all
        by (rewrite Hlen; cbn [length]; lia).
      rewrite <- app_assoc. f_equal.
Qed.

Lemma same_page_refl e : Env.same_page e e.
Proof. by repeat split. Qed.

Lemma same_page_trans e1 e2 e3 :
  Env.same_page e1 e2 -> Env.same_page e2 e3 -> Env.same_page e1 e3.
Proof.
  intros (? & ? & ? & ?) (? & ? & ? & ?). repeat split; congruence.
Qed.

Lemma drawPoint_spec position color e d :
  invariant d ->
  exists e' d',
    drawPoint position color (e, d) = (e', d')
    /\ invariant d' /\ Env.same_page e e'
    /\ lines d' = lines d /\ text d' = text d
    /\ GL.drawn_points (Env.gl e') + RenderPoint.count (points d') / 2
       = GL.drawn_points (Env.gl e) + RenderPoint.count (points d) / 2 + 1.
Proof.
  intros (Hl & Hlen & Hp). unfold drawPoint.
  destruct (RenderPointFacts.vertex_spec (Env.camera e) position color
              (Env.gl e) (points d) Hp) as (gl' & p' & Hv & Hp' & Hacc & _).
  rewrite Hv. eexists _, _. split; [reflexivity|].
  split; [exact (conj Hl (conj Hlen Hp'))|].
  split; [by repeat split|]. split; [done|]. split; [done|]. exact Hacc.
Qed.

Lemma drawText_spec text0 x y e d :
  invariant d -> invariant (drawText text0 x y (e, d)).2
                 /\ (drawText text0 x y (e, d)).1 = e.
Proof. intros (Hl & Hlen & Hp). split; [exact (conj Hl (conj Hlen Hp))|done]. Qed.

Lemma printText_spec text0 e d :
  invariant d -> invariant (printText text0 (e, d)).2
                 /\ (printText text0 (e, d)).1 = e.
Proof. intros (Hl & Hlen & Hp). split; [exact (conj Hl (conj Hlen Hp))|done]. Qed.

(** [flush] cannot throw and leaves the three renderers empty. *)
Lemma draw_flush_spec e d :
  invariant d ->
  exists e' d',
    flush (e, d) = Some (e', d')
    /\ invariant d' /\ Env.same_page e e'
    /\ RenderLine.count (lines d') = 0 /\ RenderLine.matricesCount (lines d') = 0
    /\ RenderPoint.count (points d') = 0
    /\ RenderText.texts (text d') = [] /\ RenderText.yOffset (text d') = of_nat 0.
Proof.
  intros (Hl & Hlen & Hp). unfold flush.
  destruct (RenderLineFacts.flush_spec (Env.camera e) (Env.gl e) (lines d) Hl)
    as (gl1 & l1 & Hfl & Hl1 & Hc & Hmc & _).
  rewrite Hfl. cbn [mbind option_bind].
  pose proof (RenderLineFacts.flush_length _ _ _ _ _ Hfl) as Hlen1.
  destruct (RenderPointFacts.point_flush_spec (Env.camera e) gl1 (points d))
    as (gl2 & p2 & Hpf & Hpc & _).
  unfold RenderText.flush. rewrite Hpf.
  eexists _, _. split; [reflexivity|]. cbn [lines text points].
  split.
  { split; [done|].
    split; [change (length (RenderLine.vertices l1) = RenderLine.MAX_VERTICES);
            congruence|].
    destruct Hp as [_ Hmax].
    change (RenderPoint.invariant p2). split; rewrite Hpc; [done|lia]. }
  by repeat split.
Qed.

Lemma draw_exec_spec o e d :
  invariant d ->
  exists e' d', exec o (e, d) = Some (e', d') /\ invariant d' /\ Env.same_page e e'.
Proof.
  intros Hinv. destruct o as [position angle radius color|position color|t x y|t|];
    cbn [exec].
  - destruct (drawCircle_spec position angle radius color e d Hinv)
      as (gl' & l' & Heq & Hinv' & _).
    eexists _, _. split; [exact Heq|]. split; [done|]. by repeat split.
  - destruct (drawPoint_spec position color e d Hinv)
      as (e' & d' & Heq & Hinv' & Hpage & _).
    exists e', d'. by rewrite Heq.
  - destruct (drawText_spec t x y e d Hinv) as [Hinv' He].
    eexists _, _. split; [by rewrite <- surjective_pairing|].
    split; [done|]. rewrite He. apply same_page_refl.
  - destruct (printText_spec t e d Hinv) as [Hinv' He].
    eexists _, _. split; [by rewrite <- surjective_pairing|].
    split; [done|]. rewrite He. apply same_page_refl.
  - destruct (draw_flush_spec e d Hinv) as (e' & d' & Heq & Hinv' & Hpage & _).
    by exists e', d'.
Qed.

Lemma draw_run_spec os e d :
  invariant d ->
  exists e' d', run os (e, d) = Some (e', d') /\ invariant d' /\ Env.same_page e e'.
Proof.
  revert e d. induction os as [|o os IH]; intros e d Hinv.
  - exists e, d. split; [done|]. split; [done|]. apply same_page_refl.
  - destruct (draw_exec_spec o e d Hinv) as (e1 & d1 & Hexec & Hinv1 & Hpage1).
    destruct (IH e1 d1 Hinv1) as (e2 & d2 & Hrun & Hinv2 & Hpage2).
    exists e2, d2. cbn [run]. rewrite Hexec. cbn [mbind option_bind].
    split; [done|]. split; [done|]. by eapply same_page_trans.
Qed.

End Facts.
End DebugDrawFacts.

Section Circle.
Context {F M B C : Type}.
Context `{!Number F} `{!Mat4Ops F M} `{!Classic2d F} `{!CanvasOps F C}.

End Circle.


(** ** Test *)

Module TestFacts.
Import Test.

Section Facts.
Context {F M B C W MA : Type}.
Context `{!Number F} `{!Mat4Ops F M} `{!Classic2d F} `{!CanvasOps F C}.
Context `{!EqDecision B} `{!WorldOps F B W} `{!MovingAverageOps F MA}.
Implicit Types (e : Env.t F M B C) (t : Test.t F M B W MA)
  (contact c : Contact.t F B) (cs : list (Contact.t F B)).

Lemma world_steps_app (tr1 tr2 : list (Ext.call F B)) :
  Ext.world_steps (tr1 ++ tr2) = Ext.world_steps tr1 + Ext.world_steps tr2.
Proof. apply sum_list_with_app. Qed.

Lemma world_steps_log (x : Ext.call F B) e :
  Ext.world_steps (Env.ext (Env.log x e))
  = Ext.world_steps (Env.ext e) + (if Ext.is_world_step x then 1 else 0).
Proof.
  cbn [Env.log Env.ext]. rewrite world_steps_app.
  unfold Ext.world_steps at 2. cbn [sum_list_with]. lia.
Qed.

Lemma same_bodies_spec c contact :
  same_bodies c contact = true <-> bodies c = bodies contact.
Proof.
  unfold same_bodies, bodies. rewrite andb_true_iff, !bool_decide_eq_true.
  split; [by intros [-> ->]|by intros [= -> ->]].
Qed.

Lemma hasContact_loop_spec contact cs :
  hasContact_loop contact cs = true
  <-> exists c, c ∈ cs /\ bodies c = bodies contact.
Proof.
  induction cs as [|c cs IH]; cbn [hasContact_loop].
  - split; [done|]. intros (c & Hin & _). by apply elem_of_nil in Hin.
  - destruct (same_bodies c contact) eqn:Hsame.
    + split; [|done]. intros _. exists c. split; [by left|].
      by apply same_bodies_spec.
    + rewrite IH. split.
      * intros (c' & Hin & Heq). exists c'. split; [by right|done].
      * intros (c' & Hin & Heq). apply elem_of_cons in Hin as [->|Hin].
        { apply same_bodies_spec in Heq. congruence. }
        by exists c'.
Qed.

Lemma notify_spec (x : Ext.call F B) e t :
  Ext.is_world_step x = false ->
  (notify x (e, t)).2 = t /\ callback_frame (e, t) (notify x (e, t)).
Proof.
  intros Hx. unfold notify, callback_frame. destruct (contactListener t); cbn [fst snd].
  - rewrite world_steps_log, Hx. repeat split; try done; lia.
  - by repeat split.
Qed.

Lemma beginContact_spec contact e t :
  callback_frame (e, t) (beginContact contact (e, t))
  /\ contacts (beginContact contact (e, t)).2
     = (if hasContact contact t then contacts t else contacts t ++ [contact])
  /\ (invariant t -> invariant (beginContact contact (e, t)).2).
Proof.
  unfold beginContact.
  set (t1 := if negb (hasContact contact t)
             then set_contacts (contacts t ++ [contact]) t else t).
  destruct (notify_spec (Ext.listener_beginContact contact) e t1 eq_refl)
    as [Ht1 Hframe].
  assert (Hsame : isPause t1 = isPause t /\ shouldMakeStep t1 = shouldMakeStep t
                  /\ debugDraw t1 = debugDraw t /\ world t1 = world t).
  { subst t1. by destruct (hasContact contact t). }
  destruct Hsame as (? & ? & ? & ?).
  destruct Hframe as (? & ? & ? & ? & ?). rewrite Ht1 in *. cbn [fst snd] in *.
  split; [|split].
  - unfold callback_frame. cbn [fst snd]. repeat split; congruence.
  - subst t1. by destruct (hasContact contact t).
  - intros [Hd Hnd]. split; [congruence|]. subst t1. unfold hasContact.
    destruct (hasContact_loop contact (contacts t)) eqn:Hhas; cbn [negb]; [done|].
    cbn [contacts set_contacts]. rewrite fmap_app. apply NoDup_app.
    split; [done|]. split; [|apply NoDup_singleton].
    intros b Hb Hb'. apply list_elem_of_singleton in Hb'. subst b.
    apply list_elem_of_fmap in Hb as (c & Hc & Hin).
    assert (hasContact_loop contact (contacts t) = true); [|congruence].
    apply hasContact_loop_spec. by exists c.
Qed.

Lemma dispatch_spec (call : Listener.call F B) e t :
  callback_frame (e, t) (dispatch (e, t) call)
  /\ (invariant t -> invariant (dispatch (e, t) call).2).
Proof.
  destruct call as [contact|contact|contact]; cbn [dispatch].
  - by destruct (beginContact_spec contact e t) as (? & _ & ?).
  - unfold endContact.
    destruct (notify_spec (Ext.listener_endContact contact) e t eq_refl) as [-> ?].
    done.
  - unfold preSolve.
    destruct (notify_spec (Ext.listener_preSolve contact) e t eq_refl) as [-> ?].
    done.
Qed.

Lemma callback_frame_trans (st1 st2 st3 : Env.t F M B C * Test.t F M B W MA) :
  callback_frame st1 st2 -> callback_frame st2 st3 -> callback_frame st1 st3.
Proof.
  intros (? & ? & ? & ? & ?) (? & ? & ? & ? & ?). repeat split; congruence.
Qed.

Lemma dispatch_all_spec (calls : list (Listener.call F B)) e t :
  callback_frame (e, t) (foldl dispatch (e, t) calls)
  /\ (invariant t -> invariant (foldl dispatch (e, t) calls).2).
Proof.
  revert e t. induction calls as [|call calls IH]; intros e t.
  - split; [by repeat split|done].
  - cbn [foldl]. destruct (dispatch_spec call e t) as [Hframe1 Hinv1].
    destruct (dispatch (e, t) call) as [e1 t1]. cbn [snd] in Hinv1.
    destruct (IH e1 t1) as [Hframe2 Hinv2].
    split; [by eapply callback_frame_trans|]. auto.
Qed.

(** The callbacks only add calls on the user's listener to the trace
    and leave the rendering contexts alone. *)
Lemma notify_ext (x : Ext.call F B) e t :
  is_listener_call x ->
  exists tr, Env.ext (notify x (e, t)).1 = Env.ext e ++ tr
             /\ Forall is_listener_call tr
             /\ Env.gl (notify x (e, t)).1 = Env.gl e.
Proof.
  intros Hx. unfold notify. destruct (contactListener t); cbn [fst].
  - exists [x]. split; [done|]. split; [by constructor|done].
  - exists []. split; [by rewrite app_nil_r|]. split; [constructor|done].
Qed.

Lemma dispatch_ext (call : Listener.call F B) e t :
  exists tr, Env.ext (dispatch (e, t) call).1 = Env.ext e ++ tr
             /\ Forall is_listener_call tr
             /\ Env.gl (dispatch (e, t) call).1 = Env.gl e.
Proof.
  destruct call as [contact|contact|contact]; cbn [dispatch];
    unfold beginContact, endContact, preSolve; by apply notify_ext.
Qed.

Lemma dispatch_all_ext (calls : list (Listener.call F B)) e t :
  exists tr, Env.ext (foldl dispatch (e, t) calls).1 = Env.ext e ++ tr
             /\ Forall is_listener_call tr
             /\ Env.gl (foldl dispatch (e, t) calls).1 = Env.gl e.
Proof.
  revert e t. induction calls as [|call calls IH]; intros e t.
  - exists []. split; [by rewrite app_nil_r|]. split; [constructor|done].
  - cbn [foldl]. destruct (dispatch_ext call e t) as (tr1 & Htr1 & Hall1 & Hgl1).
    destruct (dispatch (e, t) call) as [e1 t1]. cbn [fst] in *.
    destruct (IH e1 t1) as (tr2 & Htr2 & Hall2 & Hgl2).
    exists (tr1 ++ tr2). split; [by rewrite Htr2, Htr1, app_assoc|].
    split; [by apply Forall_app|congruence].
Qed.

(** [step]: paused and with no step pending it does nothing at all;
    otherwise it calls [world.step] once and clears the pending flag. *)
Lemma step_spec time e t :
  exists e' t',
    step time (e, t) = (e', t')
    /\ isPause t' = isPause t
    /\ debugDraw t' = debugDraw t
    /\ (negb (isPause t) || shouldMakeStep t = false -> e' = e /\ t' = t)
    /\ (negb (isPause t) || shouldMakeStep t = true ->
        Ext.world_steps (Env.ext e') = S (Ext.world_steps (Env.ext e))
        /\ shouldMakeStep t' = false
        /\ exists tr, Env.ext e' = Env.ext e ++ [Ext.world_step time] ++ tr
                      /\ Forall is_listener_call tr)
    /\ (invariant t -> invariant t').
Proof.
  unfold step.
  destruct (negb (isPause t) || shouldMakeStep t) eqn:Hgo.
  - destruct (World_step time (world t)) as [w calls].
    destruct (dispatch_all_spec calls (Env.log (Ext.world_step time) e) (set_world w t))
      as [(Hp & Hs & Hd & Hw & Hn) Hinv'].
    destruct (dispatch_all_ext calls (Env.log (Ext.world_step time) e) (set_world w t))
      as (tr & Htr & Hall & _).
    destruct (foldl dispatch _ calls) as [e1 t1]. cbn [fst snd] in *.
    eexists _, _. split; [reflexivity|].
    split; [exact Hp|]. split; [exact Hd|].
    split; [done|]. split; [|exact Hinv']. intros _. split; [|split; [done|]].
    + rewrite Hn, world_steps_log. cbn [Ext.is_world_step]. lia.
    + exists tr. split; [|done]. rewrite Htr. cbn [Env.log Env.ext].
      by rewrite <- app_assoc.
  - exists e, t. split; [done|]. split; [done|]. split; [done|].
    split; [done|]. split; [intros [=]|done].
Qed.

Lemma drawContacts_spec cs e (d : DebugDraw.t F M) :
  DebugDraw.invariant d ->
  exists e' d',
    foldl (fun ed contact =>
             DebugDraw.drawPoint (Contact.getPoint contact) COLORS_CONTACT ed)
          (e, d) cs = (e', d')
    /\ DebugDraw.invariant d' /\ Env.same_page e e'
    /\ GL.drawn_points (Env.gl e') + RenderPoint.count (DebugDraw.points d') / 2
       = GL.drawn_points (Env.gl e) + RenderPoint.count (DebugDraw.points d) / 2
         + length cs.
Proof.
  revert e d. induction cs as [|c cs IH]; intros e d Hinv.
  - exists e, d. split; [done|]. split; [done|].
    split; [apply DebugDrawFacts.same_page_refl|]. cbn [length]. lia.
  - cbn [foldl].
    destruct (DebugDrawFacts.drawPoint_spec (Contact.getPoint c) COLORS_CONTACT e d Hinv)
      as (e1 & d1 & Heq & Hinv1 & Hpage1 & _ & _ & Hacc1).
    rewrite Heq.
    destruct (IH e1 d1 Hinv1) as (e2 & d2 & Heq2 & Hinv2 & Hpage2 & Hacc2).
    exists e2, d2. split; [done|]. split; [done|].
    split; [by eapply DebugDrawFacts.same_page_trans|]. cbn [length]. lia.
Qed.

Lemma drawHelp_spec time e t :
  DebugDraw.invariant (debugDraw t) ->
  exists d ma,
    drawHelp time (e, t) = (e, set_debugDraw d (set_frameTimeMovingAverage ma t))
    /\ DebugDraw.invariant d.
Proof.
  intros (Hl & Hlen & Hp). unfold drawHelp.
  destruct (MovingAverage_get time (frameTimeMovingAverage t)) as [avg ma].
  destruct (isPause t); eexists _, _; (split; [reflexivity|]);
    exact (conj Hl (conj Hlen Hp)).
Qed.

(** [draw] cannot throw; it flushes, then gives every buffered contact
    point to the point renderer, then empties the contact list. *)
Lemma draw_spec time e t :
  invariant t ->
  exists e' t' e1 d1,
    draw time (e, t) = Some (e', t')
    /\ invariant t'
    /\ isPause t' = isPause t /\ shouldMakeStep t' = shouldMakeStep t
    /\ Env.ext e' = Env.ext e ++ [Ext.world_drawDebugData]
    /\ contacts t' = []
    /\ RenderPoint.count (DebugDraw.points d1) = 0
    /\ (e', debugDraw t')
       = foldl (fun ed contact =>
                  DebugDraw.drawPoint (Contact.getPoint contact) COLORS_CONTACT ed)
               (e1, d1) (contacts t)
    /\ GL.drawn_points (Env.gl e') + RenderPoint.count (DebugDraw.points (debugDraw t')) / 2
       = GL.drawn_points (Env.gl e1) + length (contacts t).
Proof.
  intros [Hd Hnd]. unfold draw.
  destruct (DebugDrawFacts.draw_run_spec (World_drawDebugData (world t))
              (Env.log Ext.world_drawDebugData e) (debugDraw t) Hd)
    as (e1 & d1 & Hrun & Hd1 & Hpage1).
  rewrite Hrun. cbn [mbind option_bind].
  destruct (drawHelp_spec time e1 (set_debugDraw d1 t) Hd1) as (d2 & ma & Hhelp & Hd2).
  rewrite Hhelp.
  destruct (DebugDrawFacts.draw_flush_spec e1 d2 Hd2)
    as (e3 & d3 & Hfl & Hd3 & Hpage3 & _ & _ & Hc3 & _).
  change (debugDraw (set_debugDraw d2 (set_frameTimeMovingAverage ma (set_debugDraw d1 t))))
    with d2.
  rewrite Hfl. cbn [mbind option_bind]. unfold drawContacts.
  change (debugDraw (set_debugDraw d3 _)) with d3.
  change (contacts (set_debugDraw d3 _)) with (contacts t).
  destruct (drawContacts_spec (contacts t) e3 d3 Hd3)
    as (e4 & d4 & Hdc & Hd4 & Hpage4 & Hacc4).
  rewrite Hdc. eexists _, _, e3, d3. split; [reflexivity|].
  split; [split; [exact Hd4|apply NoDup_nil_2]|].
  split; [done|]. split; [done|].
  split.
  { destruct Hpage1 as [He1 _], Hpage3 as [He3 _], Hpage4 as [He4 _].
    by rewrite He4, He3, He1. }
  split; [done|]. split; [exact Hc3|]. split; [by rewrite Hdc|].
  cbn [debugDraw clearContacts set_contacts set_debugDraw].
  rewrite Hacc4, Hc3. lia.
Qed.

(** The effect of one call on the pending flag and on the count of
    world steps. *)
Lemma test_exec_spec o e t :
  invariant t ->
  exists e' t',
    exec o (e, t) = Some (e', t')
    /\ invariant t'
    /\ Ext.world_steps (Env.ext e) <= Ext.world_steps (Env.ext e')
    /\ (let n := Ext.world_steps (Env.ext e') - Ext.world_steps (Env.ext e) in
        shouldMakeStep t'
        = (if 0 <? n then false
           else if is_makeStep o then true else shouldMakeStep t)
        /\ (if isPause t then n else 0) + (if shouldMakeStep t' then 1 else 0)
           <= (if is_makeStep o then 1 else 0) + (if shouldMakeStep t then 1 else 0)).
Proof.
  intros Hinv.
  assert (Hquiet : forall e' t',
            shouldMakeStep t' = shouldMakeStep t ->
            Ext.world_steps (Env.ext e') = Ext.world_steps (Env.ext e) ->
            is_makeStep o = false ->
            Ext.world_steps (Env.ext e) <= Ext.world_steps (Env.ext e')
            /\ (let n := Ext.world_steps (Env.ext e') - Ext.world_steps (Env.ext e) in
                shouldMakeStep t'
                = (if 0 <? n then false
                   else if is_makeStep o then true else shouldMakeStep t)
                /\ (if isPause t then n else 0) + (if shouldMakeStep t' then 1 else 0)
                   <= (if is_makeStep o then 1 else 0)
                      + (if shouldMakeStep t then 1 else 0))).
  { intros e' t' Hs Hn Ho. rewrite Hn, Ho, Hs, Nat.sub_diag.
    cbn [Nat.ltb Nat.leb]. split; [done|]. split; [done|].
    destruct (isPause t), (shouldMakeStep t); lia. }
  destruct o as [contact|contact|contact|time| |arg|l|time]; cbn [exec].
  - destruct (beginContact_spec contact e t) as ((Hp & Hs & _ & _ & Hn) & _ & Hinv').
    destruct (beginContact contact (e, t)) as [e' t']. cbn [fst snd] in *.
    exists e', t'. split; [done|]. split; [auto|]. by apply Hquiet.
  - unfold endContact.
    destruct (notify_spec (Ext.listener_endContact contact) e t eq_refl)
      as [Ht (Hp & Hs & _ & _ & Hn)].
    destruct (notify _ (e, t)) as [e' t']. cbn [fst snd] in *. subst t'.
    exists e', t. split; [done|]. split; [done|]. by apply Hquiet.
  - unfold preSolve.
    destruct (notify_spec (Ext.listener_preSolve contact) e t eq_refl)
      as [Ht (Hp & Hs & _ & _ & Hn)].
    destruct (notify _ (e, t)) as [e' t']. cbn [fst snd] in *. subst t'.
    exists e', t. split; [done|]. split; [done|]. by apply Hquiet.
  - destruct (draw_spec time e t Hinv)
      as (e' & t' & _ & _ & Hdraw & Hinv' & _ & Hs & Hn & _).
    exists e', t'. split; [done|]. split; [done|]. apply Hquiet; [done| |done].
    rewrite Hn, world_steps_app. unfold Ext.world_steps at 2.
    cbn [sum_list_with Ext.is_world_step]. lia.
  - exists e, (makeStep t). split; [done|]. split; [exact Hinv|].
    split; [done|]. rewrite Nat.sub_diag. cbn [fst snd Nat.ltb Nat.leb is_makeStep].
    split; [done|]. destruct (isPause t), (shouldMakeStep t); cbn; lia.
  - exists e, (pause arg t). split; [done|]. split; [exact Hinv|]. by apply Hquiet.
  - exists e, (setContactListener l t). split; [done|]. split; [exact Hinv|].
    by apply Hquiet.
  - destruct (step_spec time e t) as (e' & t' & Hstep & Hp & _ & Hstay & Hgo & Hinv').
    exists e', t'. split; [by rewrite Hstep|]. split; [auto|].
    destruct (negb (isPause t) || shouldMakeStep t) eqn:Hcond.
    + destruct (Hgo eq_refl) as (Hn & Hs & _). rewrite Hn, Hs.
      replace (S (Ext.world_steps (Env.ext e)) - Ext.world_steps (Env.ext e)) with 1
        by lia.
      split; [lia|]. cbn [Nat.ltb Nat.leb is_makeStep]. split; [done|].
      destruct (isPause t), (shouldMakeStep t); cbn in Hcond; try done; lia.
    + destruct (Hstay eq_refl) as [-> ->]. by apply Hquiet.
Qed.

(** A run from a state that satisfies the invariant never throws; the
    pending flag is what the history says, and the world steps taken
    while paused are paid for by calls of [makeStep]. *)
Lemma run_history os e t :
  invariant t ->
  exists e' t',
    run os (e, t) = Some (e', t')
    /\ invariant t'
    /\ length (history os (e, t)) = length os
    /\ shouldMakeStep t' = makeStep_pending (history os (e, t)) (shouldMakeStep t)
    /\ paused_world_steps (history os (e, t)) + (if shouldMakeStep t' then 1 else 0)
       <= makeStep_calls (history os (e, t)) + (if shouldMakeStep t then 1 else 0).
Proof.
  revert e t. induction os as [|o os IH]; intros e t Hinv.
  - exists e, t. split; [done|]. split; [done|]. split; [done|]. split; [done|].
    unfold paused_world_steps, makeStep_calls. cbn [history sum_list_with]. lia.
  - destruct (test_exec_spec o e t Hinv) as (e1 & t1 & Hexec & Hinv1 & _ & Hflag & Hpay).
    destruct (IH e1 t1 Hinv1) as (e2 & t2 & Hrun & Hinv2 & Hlen & Hpending & Hle).
    exists e2, t2. cbn [run history]. rewrite Hexec. cbn [mbind option_bind fst snd].
    split; [done|]. split; [done|]. split; [cbn [length]; by rewrite Hlen|].
    split.
    + cbn [makeStep_pending]. by rewrite <- Hflag.
    + unfold paused_world_steps, makeStep_calls in *.
      cbn [sum_list_with fst snd]. lia.
Qed.

End Facts.
End TestFacts.

(** ** Pause, single step and the contact list *)

Section TestClaims.
Context {F M B C W MA : Type}.
Context `{!Number F} `{!Mat4Ops F M} `{!Classic2d F} `{!CanvasOps F C}.
Context `{!EqDecision B} `{!WorldOps F B W} `{!MovingAverageOps F MA}.

(** C4. While the test is paused, [step] does nothing at all when no
    step is pending, and when one is pending it calls [world.step]
    exactly once and clears the flag, staying paused.  In every run of a
    new test the flag is set exactly when [makeStep()] has been called
    since the last world step, so the number of world steps taken while
    paused never exceeds the number of [makeStep()] calls.  The key [o]
    pauses the test and requests one step. *)
Theorem pause_and_single_step :
  (forall time (e : Env.t F M B C) (t : Test.t F M B W MA),
     Test.isPause t = true -> Test.shouldMakeStep t = false ->
     Test.step time (e, t) = (e, t))
  /\ (forall time (e : Env.t F M B C) (t : Test.t F M B W MA),
        Test.isPause t = true -> Test.shouldMakeStep t = true ->
        exists e' t',
          Test.step time (e, t) = (e', t')
          /\ Ext.world_steps (Env.ext e') = S (Ext.world_steps (Env.ext e))
          /\ Test.shouldMakeStep t' = false /\ Test.isPause t' = true)
  /\ (forall os (e : Env.t F M B C) (world : W) debugDraw contactListener,
        DebugDraw.invariant debugDraw ->
        let st0 := Test.new (MA:=MA) world debugDraw contactListener e in
        exists e' t',
          Test.run os st0 = Some (e', t')
          /\ length (Test.history os st0) = length os
          /\ Test.shouldMakeStep t' = Test.makeStep_pending (Test.history os st0) false
          /\ Test.paused_world_steps (Test.history os st0)
             <= Test.makeStep_calls (Test.history os st0))
  /\ (forall (e : Env.t F M B C) (s : Sandbox.t F M B W MA),
        let s' := (Sandbox.keyDown "o" (e, s)).2 in
        Test.isPause (Sandbox.test s') = true
        /\ Test.shouldMakeStep (Sandbox.test s') = true).
Proof.
  split; [|split; [|split]].
  - intros time e t Hp Hs.
    destruct (TestFacts.step_spec time e t) as (e' & t' & Hstep & _ & _ & Hstay & _).
    rewrite Hstep. destruct Hstay as [-> ->]; [|done]. by rewrite Hp, Hs.
  - intros time e t Hp Hs.
    destruct (TestFacts.step_spec time e t) as (e' & t' & Hstep & Hp' & _ & _ & Hgo & _).
    exists e', t'. split; [done|].
    destruct Hgo as (Hn & Hs' & _); [by rewrite Hp, Hs|]. by rewrite Hp' in *.
  - intros os e world debugDraw contactListener Hd st0.
    destruct (TestFacts.run_history os st0.1 st0.2)
      as (e' & t' & Hrun & _ & Hlen & Hpending & Hle).
    { split; [exact Hd|apply NoDup_nil_2]. }
    exists e', t'. split; [exact Hrun|]. split; [exact Hlen|].
    split; [exact Hpending|].
    change (Test.shouldMakeStep st0.2) with false in Hle.
    change (Test.history os (st0.1, st0.2)) with (Test.history os st0) in Hle.
    destruct (Test.shouldMakeStep t'); lia.
  - intros e s. by cbv.
Qed.

(** C8. [beginContact] appends the contact exactly when no buffered
    contact has the same [bodyA] and the same [bodyB]; hence in every
    run of a new test no two entries of the list share their pair of
    bodies.  From every such state [draw] cannot throw: after its flush
    it hands the point of every buffered contact to the point renderer
    and leaves the list empty. *)
Theorem contacts_unique_and_per_frame :
  (forall contact (e : Env.t F M B C) (t : Test.t F M B W MA),
     Test.contacts (Test.beginContact contact (e, t)).2
     = (if Test.hasContact contact t then Test.contacts t
        else Test.contacts t ++ [contact])
     /\ (Test.hasContact contact t = true
         <-> exists c, c ∈ Test.contacts t
                       /\ Contact.bodyA c = Contact.bodyA contact
                       /\ Contact.bodyB c = Contact.bodyB contact))
  /\ (forall os (e : Env.t F M B C) (world : W) debugDraw contactListener time,
        DebugDraw.invariant debugDraw ->
        exists e' t' e'' t'' e1 d1,
          Test.run os (Test.new (MA:=MA) world debugDraw contactListener e) = Some (e', t')
          /\ (forall i j ci cj,
                Test.contacts t' !! i = Some ci -> Test.contacts t' !! j = Some cj ->
                Contact.bodyA ci = Contact.bodyA cj ->
                Contact.bodyB ci = Contact.bodyB cj -> i = j)
          /\ Test.draw time (e', t') = Some (e'', t'')
          /\ Test.contacts t'' = []
          /\ RenderPoint.count (DebugDraw.points d1) = 0
          /\ (e'', Test.debugDraw t'')
             = foldl (fun ed contact =>
                        DebugDraw.drawPoint (Contact.getPoint contact) COLORS_CONTACT ed)
                     (e1, d1) (Test.contacts t')
          /\ GL.drawn_points (Env.gl e'')
               + RenderPoint.count (DebugDraw.points (Test.debugDraw t'')) / 2
             = GL.drawn_points (Env.gl e1) + length (Test.contacts t')).
Proof.
  split.
  - intros contact e t.
    destruct (TestFacts.beginContact_spec contact e t) as (_ & Hcs & _).
    split; [exact Hcs|]. unfold Test.hasContact.
    rewrite TestFacts.hasContact_loop_spec. unfold Test.bodies.
    split; intros (c & Hin & Heq); exists c; (split; [done|]).
    + by injection Heq.
    + destruct Heq as [-> ->]. done.
  - intros os e world debugDraw contactListener time Hd.
    set (st0 := Test.new (MA:=MA) world debugDraw contactListener e).
    destruct (TestFacts.run_history os st0.1 st0.2)
      as (e' & t' & Hrun & Hinv & _).
    { split; [exact Hd|apply NoDup_nil_2]. }
    destruct (TestFacts.draw_spec time e' t' Hinv)
      as (e'' & t'' & e1 & d1 & Hdraw & _ & _ & _ & _ & Hnil & Hc & Hfold & Hacc).
    exists e', t', e'', t'', e1, d1.
    split; [exact Hrun|]. split; [|by repeat split].
    intros i j ci cj Hi Hj HA HB. destruct Hinv as [_ Hnd].
    eapply NoDup_lookup; [exact Hnd| |].
    + rewrite list_lookup_fmap, Hi. reflexivity.
    + rewrite list_lookup_fmap, Hj. unfold Test.bodies. cbn. by rewrite HA, HB.
Qed.
End TestClaims.

(** A paused test ignores [step]; with a step requested it steps the
    world once; and in the run pause, makeStep, step, step the second
    step does nothing. *)
Lemma pause_and_single_step_witness :
  Test.step (Sample.Lit 16) (Sample.page, Sample.paused) = (Sample.page, Sample.paused)
  /\ (exists e' t',
        Test.step (Sample.Lit 16) (Sample.page, Sample.paused_pending) = (e', t')
        /\ Ext.world_steps (Env.ext e') = 1
        /\ Test.shouldMakeStep t' = false /\ Test.isPause t' = true)
  /\ (let os := [Test.Pause (Some true); Test.MakeStep;
                 Test.Step (Sample.Lit 16); Test.Step (Sample.Lit 32)] in
      let st0 := Test.new (MA:=Sample.num) Sample.quiet Sample.debugDraw None Sample.page in
      exists e' t',
        Test.run os st0 = Some (e', t')
        /\ Test.shouldMakeStep t' = false
        /\ Test.paused_world_steps (Test.history os st0) = 1
        /\ Test.makeStep_calls (Test.history os st0) = 1).
Proof.
  destruct (pause_and_single_step (F:=Sample.num) (M:=Sample.mat) (B:=nat)
              (C:=Sample.canvas) (W:=Sample.world) (MA:=Sample.num))
    as (HA & HB & HC & _).
  split; [|split].
  - apply HA; reflexivity.
  - destruct (HB (Sample.Lit 16) Sample.page Sample.paused_pending eq_refl eq_refl)
      as (e' & t' & Hstep & Hn & Hs & Hp).
    exists e', t'. repeat split; assumption.
  - intros os st0.
    destruct (HC os Sample.page Sample.quiet Sample.debugDraw None
                (DebugDrawFacts.draw_invariant_new 0 1 2 Sample.lineInfo 6 7 8
                   Sample.pointInfo None))
      as (e' & t' & Hrun & _ & Hpending & _).
    exists e', t'. split; [exact Hrun|]. split; [|split].
    + rewrite Hpending. vm_compute. reflexivity.
    + vm_compute. reflexivity.
    + vm_compute. reflexivity.
Defined.

(** A second contact between the same two bodies is not buffered, and
    the frame's [draw] empties the list. *)
Lemma contacts_unique_and_per_frame_witness :
  let os := [Test.BeginContact Sample.contact1; Test.BeginContact Sample.contact2] in
  exists e' t' e'' t'',
    Test.run os (Test.new (MA:=Sample.num) Sample.quiet Sample.debugDraw None Sample.page)
    = Some (e', t')
    /\ Test.contacts t' = [Sample.contact1]
    /\ Test.draw (Sample.Lit 16) (e', t') = Some (e'', t'')
    /\ Test.contacts t'' = [].
Proof.
  intros os.
  destruct (contacts_unique_and_per_frame (F:=Sample.num) (M:=Sample.mat) (B:=nat)
              (C:=Sample.canvas) (W:=Sample.world) (MA:=Sample.num)) as [_ HB].
  destruct (HB os Sample.page Sample.quiet Sample.debugDraw None (Sample.Lit 16)
              (DebugDrawFacts.draw_invariant_new 0 1 2 Sample.lineInfo 6 7 8
                 Sample.pointInfo None))
    as (e' & t' & e'' & t'' & e1 & d1 & Hrun & _ & Hdraw & Hnil & _).
  exists e', t', e'', t''. split; [exact Hrun|]. split; [|split; assumption].
  assert (H : (fun st : Env.t Sample.num Sample.mat nat Sample.canvas * _ =>
                 Test.contacts st.2)
                <$> Test.run os (Test.new (MA:=Sample.num) Sample.quiet Sample.debugDraw
                                   None Sample.page)
              = Some [Sample.contact1]) by (vm_compute; reflexivity).
  rewrite Hrun in H. by injection H.
Defined.

(** ** Sandbox *)

Module SandboxFacts.
Import Sandbox.

Section Facts.
Context {F M B C W MA : Type}.
Context `{!Number F} `{!Mat4Ops F M} `{!Classic2d F} `{!CanvasOps F C}.
Context `{!EqDecision B} `{!WorldOps F B W} `{!MovingAverageOps F MA}.
Implicit Types (e : Env.t F M B C) (s : Sandbox.t F M B W MA).

(** Every call other than [run()] leaves a stopped sandbox stopped,
    makes none of the calls of a frame and draws nothing. *)
Lemma stopped_exec o e s :
  is_run o = false -> running s = false ->
  exists e' s' tr,
    exec o (e, s) = Some (e', s')
    /\ running s' = false
    /\ Env.gl e' = Env.gl e /\ Env.gl2d e' = Env.gl2d e
    /\ Env.ext e' = Env.ext e ++ tr
    /\ Forall (fun x => Ext.is_frame_call x = false) tr
    /\ (is_render o = true -> e' = e /\ s' = s).
Proof.
  intros Ho Hs.
  destruct o as [| | |z|width height|key|now]; [done|..]; cbn [exec].
  - exists e, (set_running false s), []. rewrite app_nil_r. by repeat split.
  - unfold reset. destruct (has reset_action _).
    + eexists _, _, [Ext.world_clear; Ext.action_reset].
      split; [reflexivity|]. cbn [Env.log Env.ext Env.gl Env.gl2d].
      rewrite <- app_assoc. repeat split; try done. by repeat constructor.
    + eexists _, _, [Ext.world_clear].
      split; [reflexivity|]. repeat split; try done. by repeat constructor.
  - eexists _, _, []. split; [reflexivity|]. cbn [Env.set_camera Env.ext].
    rewrite app_nil_r. by repeat split.
  - eexists _, _, []. split; [reflexivity|].
    cbn [Env.set_camera Env.set_canvases Env.ext]. rewrite app_nil_r. by repeat split.
  - unfold keyDown, handleKeyDown. repeat case_decide.
    + unfold reset. destruct (has reset_action _).
      * eexists _, _, [Ext.world_clear; Ext.action_reset].
        split; [reflexivity|]. cbn [Env.log Env.ext Env.gl Env.gl2d].
        rewrite <- app_assoc. repeat split; try done. by repeat constructor.
      * eexists _, _, [Ext.world_clear].
        split; [reflexivity|]. repeat split; try done. by repeat constructor.
    + eexists _, _, []. split; [reflexivity|]. rewrite app_nil_r. by repeat split.
    + eexists _, _, []. split; [reflexivity|]. rewrite app_nil_r. by repeat split.
    + destruct (has keyDown_action s).
      * eexists _, _, [Ext.action_keyDown key].
        split; [reflexivity|]. repeat split; try done. by repeat constructor.
      * eexists _, _, []. split; [reflexivity|]. rewrite app_nil_r. by repeat split.
  - exists e, s, []. unfold render. rewrite Hs. cbn [negb].
    rewrite app_nil_r. by repeat split.
Qed.

Lemma stopped_exec_all os e s :
  Forall (fun o => is_run o = false) os -> running s = false ->
  exists e' s' tr,
    exec_all os (e, s) = Some (e', s')
    /\ running s' = false
    /\ Env.gl e' = Env.gl e /\ Env.gl2d e' = Env.gl2d e
    /\ Env.ext e' = Env.ext e ++ tr
    /\ Forall (fun x => Ext.is_frame_call x = false) tr
    /\ exec_all (filter (fun o => is_render o = false) os) (e, s) = Some (e', s').
Proof.
  intros Hos. revert e s. induction Hos as [|o os Ho Hos IH]; intros e s Hs.
  - exists e, s, []. rewrite app_nil_r. by repeat split.
  - destruct (stopped_exec o e s Ho Hs)
      as (e1 & s1 & tr1 & Hexec & Hs1 & Hgl1 & Hgl2d1 & Hext1 & Hall1 & Hrender).
    destruct (IH e1 s1 Hs1)
      as (e2 & s2 & tr2 & Hrun & Hs2 & Hgl2 & Hgl2d2 & Hext2 & Hall2 & Hfilter).
    exists e2, s2, (tr1 ++ tr2). cbn [exec_all]. rewrite Hexec.
    cbn [mbind option_bind].
    split; [done|]. split; [done|]. split; [congruence|]. split; [congruence|].
    split; [by rewrite Hext2, Hext1, app_assoc|]. split; [by apply Forall_app|].
    rewrite filter_cons. case_decide as Hr.
    + cbn [exec_all]. rewrite Hexec. done.
    + destruct Hrender as [-> ->]; [by destruct (is_render o)|]. done.
Qed.

End Facts.
End SandboxFacts.

Section SandboxClaims.
Context {F M B C W MA : Type}.
Context `{!Number F} `{!Mat4Ops F M} `{!Classic2d F} `{!CanvasOps F C}.
Context `{!EqDecision B} `{!WorldOps F B W} `{!MovingAverageOps F MA}.

(** C6. [stop()] only sets [running] to false.  While [running] is
    false the frame callback returns at once and changes nothing; and as
    long as [run()] is not called, whatever else is (keys, resizing,
    zooming, resetting, stopping again, further frame callbacks), the
    sandbox stays stopped, the rendering contexts receive no call, the
    world is not stepped or drawn and no frame is requested, the frame
    callbacks being without any effect.  [run()] sets [running] to true
    and requests a frame, and a stopped sandbox that is found running
    again has had [run()] called. *)
Theorem stop_halts_the_loop :
  (forall (e : Env.t F M B C) (s : Sandbox.t F M B W MA),
     Sandbox.stop (e, s) = (e, Sandbox.set_running false s))
  /\ (forall now (e : Env.t F M B C) (s : Sandbox.t F M B W MA),
        Sandbox.running s = false -> Sandbox.render now (e, s) = Some (e, s))
  /\ (forall os (e : Env.t F M B C) (s : Sandbox.t F M B W MA),
        Sandbox.running s = false ->
        Forall (fun o => Sandbox.is_run o = false) os ->
        exists e' s' tr,
          Sandbox.exec_all os (e, s) = Some (e', s')
          /\ Sandbox.running s' = false
          /\ Env.gl e' = Env.gl e /\ Env.gl2d e' = Env.gl2d e
          /\ Env.ext e' = Env.ext e ++ tr
          /\ Forall (fun x => Ext.is_frame_call x = false) tr
          /\ Sandbox.exec_all (filter (fun o => Sandbox.is_render o = false) os) (e, s)
             = Some (e', s'))
  /\ (forall (e : Env.t F M B C) (s : Sandbox.t F M B W MA),
        Sandbox.run (e, s)
        = (Env.log Ext.requestAnimationFrame e, Sandbox.set_running true s))
  /\ (forall os (e e' : Env.t F M B C) (s s' : Sandbox.t F M B W MA),
        Sandbox.running s = false ->
        Sandbox.exec_all os (e, s) = Some (e', s') ->
        Sandbox.running s' = true ->
        Exists (fun o => Sandbox.is_run o = true) os).
Proof.
  split; [done|]. split; [|split; [|split; [done|]]].
  - intros now e s Hs. unfold Sandbox.render. by rewrite Hs.
  - intros os e s Hs Hos. by apply SandboxFacts.stopped_exec_all.
  - intros os e e' s s' Hs Hexec Hs'.
    destruct (decide (Forall (fun o => Sandbox.is_run o = false) os)) as [Hos|Hos].
    + destruct (SandboxFacts.stopped_exec_all os e s Hos Hs)
        as (e2 & s2 & tr & Hexec2 & Hs2 & _).
      congruence.
    + apply not_Forall_Exists in Hos; [|apply _].
      eapply Exists_impl; [exact Hos|]. intros o Ho. unfold compose in Ho.
      destruct (Sandbox.is_run o); [done|by destruct Ho].
Qed.

End SandboxClaims.

(** A stopped sandbox: the frame callback changes nothing, a reset key
    between two callbacks only clears the world and calls the reset
    action, and [run()] is what sets it running. *)
Lemma stop_halts_the_loop_witness :
  Sandbox.render (Sample.Lit 16) (Sample.page, Sample.sandbox0)
  = Some (Sample.page, Sample.sandbox0)
  /\ (exists e' s' tr,
        Sandbox.exec_all
          [Sandbox.Render (Sample.Lit 16); Sandbox.KeyDown "r"; Sandbox.Render (Sample.Lit 32)]
          (Sample.page, Sample.sandbox0) = Some (e', s')
        /\ Sandbox.running s' = false
        /\ Env.gl e' = [] /\ Env.gl2d e' = []
        /\ Env.ext e' = Env.ext Sample.page ++ tr
        /\ Forall (fun x => Ext.is_frame_call x = false) tr)
  /\ Exists (fun o : Sandbox.op Sample.num => Sandbox.is_run o = true) [Sandbox.Run].
Proof.
  destruct (stop_halts_the_loop (F:=Sample.num) (M:=Sample.mat) (B:=nat)
              (C:=Sample.canvas) (W:=Sample.world) (MA:=Sample.num))
    as (_ & HB & HC & _ & HE).
  split; [|split].
  - apply HB. reflexivity.
  - destruct (HC [Sandbox.Render (Sample.Lit 16); Sandbox.KeyDown "r";
                  Sandbox.Render (Sample.Lit 32)] Sample.page Sample.sandbox0 eq_refl)
      as (e' & s' & tr & Hexec & Hs & Hgl & Hgl2d & Hext & Hall & _).
    { repeat constructor. }
    exists e', s', tr. repeat split; assumption.
  - apply (HE [Sandbox.Run] Sample.page _ Sample.sandbox0 _ eq_refl eq_refl).
    reflexivity.
Defined.



(** * Further properties of the code *)

(** ** Stores into typed arrays *)

Section TypedArrayFacts.
Context {A : Type}.
Implicit Types (l : list A).

Lemma take_typed_set_end i v l :
  i < length l -> take (S i) (typed_set i v l) = take i l ++ [v].
Proof.
  unfold typed_set. intros Hi.
  rewrite (take_S_r _ _ v) by by apply list_lookup_insert_eq.
  by rewrite take_insert_ge.
Qed.

Lemma take_typed_set_pair c x y l :
  c + 2 <= length l ->
  take (c + 2) (typed_set (S c) y (typed_set c x l)) = take c l ++ [x; y].
Proof.
  intros Hlen. replace (c + 2) with (S (S c)) by lia.
  rewrite take_typed_set_end by (unfold typed_set; rewrite length_insert; lia).
  rewrite take_typed_set_end by lia.
  by rewrite <- app_assoc.
Qed.

Lemma length_store_loop (f : nat -> A) offset n l :
  length (foldl (fun cs j => typed_set (offset + j) (f j) cs) l (seq 0 n)) = length l.
Proof.
  induction n as [|n IH]; [done|].
  rewrite seq_S, foldl_snoc. unfold typed_set at 1. by rewrite length_insert.
Qed.

(** A loop that stores [f 0], ..., [f (n - 1)] from [offset] on, inside
    the array, leaves them there and keeps what lies in front. *)
Lemma take_store_loop (f : nat -> A) offset n l :
  offset + n <= length l ->
  take (offset + n) (foldl (fun cs j => typed_set (offset + j) (f j) cs) l (seq 0 n))
  = take offset l ++ (f <$> seq 0 n).
Proof.
  induction n as [|n IH]; intros Hlen.
  - cbn [seq foldl fmap list_fmap]. by rewrite Nat.add_0_r, app_nil_r.
  - rewrite seq_S, foldl_snoc, fmap_app. cbn [fmap list_fmap Nat.add].
    replace (offset + S n) with (S (offset + n)) by lia.
    rewrite take_typed_set_end by (rewrite length_store_loop; lia).
    rewrite IH by lia. by rewrite <- app_assoc.
Qed.
End TypedArrayFacts.

(** ** RenderPoint: the buffer is the queue of points *)

Module RenderPointQueue.
Import RenderPoint.

Section Facts.
Context {F M : Type} `{!Number F} `{!Mat4Ops F M} `{!Classic2d F}.
Implicit Types (r : RenderPoint.t F) (gl : list (GL.call F M))
  (camera : Camera.t F) (q : list (Vec2.t F * Color F)).

Lemma holds_new vb cb ib pi : holds [] (new vb cb ib pi : RenderPoint.t F).
Proof.
  split; [done|]. split; [cbn; lia|]. split; [|done].
  cbn [vertices new]. by rewrite length_replicate.
Qed.

Lemma holds_colors_new vb cb ib pi :
  holds_colors [] (new vb cb ib pi : RenderPoint.t F).
Proof.
  split; [|done]. cbn [colors new]. by rewrite length_replicate.
Qed.

Lemma coords_snoc (ps : list (Vec2.t F)) p :
  RenderLine.coords (ps ++ [p])
  = RenderLine.coords ps ++ [fround (Vec2.x p); fround (Vec2.y p)].
Proof. unfold RenderLine.coords. by rewrite flat_map_app. Qed.

Lemma holds_write q p color r :
  holds q r -> length q < MAX_INDICES ->
  holds (q ++ [(p, color)]) (write_vertex p color r).
Proof.
  intros (Hc & Hq & Hlen & Htake) Hlt.
  unfold holds. change MAX_INDICES with 256 in *. change MAX_VERTICES with 512 in *.
  cbn [count vertices write_vertex]. rewrite length_app. cbn [length].
  split; [lia|]. split; [lia|]. split.
  - unfold typed_set. by rewrite !length_insert.
  - rewrite fmap_app. change ([(p, color)].*1) with [p].
    rewrite coords_snoc, <- Htake. replace (S (S (count r))) with (count r + 2) by lia.
    apply take_typed_set_pair. lia.
Qed.

Lemma holds_flush camera gl q r :
  holds q r ->
  holds [] (flush camera (gl, r)).2
  /\ GL.drawn_points (flush camera (gl, r)).1 = GL.drawn_points gl + length q.
Proof.
  intros (Hc & Hq & Hlen & Htake). unfold flush.
  destruct (Nat.eqb_spec (count r) 0) as [H0|H0]; cbn [fst snd].
  - split; [|lia]. split; [by rewrite H0|]. split; [cbn; lia|]. split; [done|].
    by rewrite H0.
  - split.
    + split; [done|]. split; [cbn; lia|]. by split.
    + rewrite RenderPointFacts.drawn_points_app,
        RenderPointFacts.drawn_points_flush_calls. lia.
Qed.

Lemma holds_exec camera o gl q r :
  holds q r ->
  holds (queue_step q o) (exec camera o (gl, r)).2
  /\ GL.drawn_points (exec camera o (gl, r)).1 + length (queue_step q o)
     = GL.drawn_points gl + length q + points_of o.
Proof.
  intros Hh. pose proof Hh as (Hc & Hq & Hlen & Htake).
  destruct o as [p color|]; cbn [exec queue_step points_of].
  - unfold vertex. cbn [snd].
    change MAX_INDICES with 256 in *. change MAX_VERTICES with 512 in *.
    destruct (Nat.eqb_spec (length q) 256) as [Hfull|Hroom].
    + destruct (Nat.eqb_spec (count r) 512) as [_|]; [|lia].
      destruct (holds_flush camera gl q r Hh) as [Hh' Hd].
      destruct (flush camera (gl, r)) as [gl1 r1]. cbn [fst snd app] in *.
      split; [apply (holds_write []); [done|]|]; cbn [length];
        change MAX_INDICES with 256; lia.
    + destruct (Nat.eqb_spec (count r) 512) as [|_]; [lia|].
      cbn [fst snd]. split; [apply holds_write; [done|change MAX_INDICES with 256; lia]|].
      rewrite length_app. cbn [length]. lia.
  - destruct (holds_flush camera gl q r Hh) as [Hh' Hd].
    split; [done|]. cbn [length]. lia.
Qed.

Lemma holds_run camera os gl q r :
  holds q r ->
  holds (foldl queue_step q os) (run camera os (gl, r)).2
  /\ GL.drawn_points (run camera os (gl, r)).1 + length (foldl queue_step q os)
     = GL.drawn_points gl + length q + sum_list_with points_of os.
Proof.
  revert gl q r. induction os as [|o os IH]; intros gl q r Hh.
  - cbn [run foldl sum_list_with fst snd]. split; [done|lia].
  - destruct (holds_exec camera o gl q r Hh) as [Hh1 Hd1].
    cbn [run foldl sum_list_with].
    destruct (exec camera o (gl, r)) as [gl1 r1]. cbn [fst snd] in *.
    destruct (IH gl1 _ r1 Hh1) as [Hh2 Hd2].
    split; [done|]. unfold run in Hd2. lia.
Qed.

(** The colour loop of one vertex, when it stays inside the array. *)
Lemma write_color_take k color (cs : list F) :
  (k + 1) * COLOR_COMPONENTS <= length cs ->
  length (write_color (k * COLOR_COMPONENTS) color cs) = length cs
  /\ take ((k + 1) * COLOR_COMPONENTS) (write_color (k * COLOR_COMPONENTS) color cs)
     = take (k * COLOR_COMPONENTS) cs ++ RenderLine.components color.
Proof.
  intros Hlen. unfold write_color, RenderLine.components.
  split; [apply length_store_loop|].
  replace ((k + 1) * COLOR_COMPONENTS)
    with (k * COLOR_COMPONENTS + COLOR_COMPONENTS) by lia.
  apply (take_store_loop (fun j => fround (color j))). lia.
Qed.

Lemma holds_colors_write q p color r :
  COLOR_COMPONENTS <= 4 ->
  holds q r -> holds_colors q r -> length q < MAX_INDICES ->
  holds_colors (q ++ [(p, color)]) (write_vertex p color r).
Proof.
  intros Hcc (Hc & Hq & _) (Hlen & Htake) Hlt.
  unfold holds_colors. change MAX_INDICES with 256 in *.
  change MAX_COLORS with 1024 in *. cbn [colors write_vertex].
  replace (S (S (count r)) / 2 - 1) with (length q) by lia.
  destruct (write_color_take (length q) color (colors r)) as [Hl Ht]; [nia|].
  split; [lia|].
  rewrite length_app, flat_map_app. cbn [length flat_map snd].
  rewrite app_nil_r, <- Htake. done.
Qed.

Lemma holds_colors_flush camera gl q r :
  holds_colors q r -> holds_colors [] (flush camera (gl, r)).2.
Proof.
  intros (Hlen & _). unfold flush.
  by destruct (count r =? 0); cbn [fst snd]; split.
Qed.

Lemma holds_colors_exec camera o gl q r :
  COLOR_COMPONENTS <= 4 ->
  holds q r -> holds_colors q r ->
  holds_colors (queue_step q o) (exec camera o (gl, r)).2.
Proof.
  intros Hcc Hh Hcol. pose proof Hh as (Hc & Hq & _).
  destruct o as [p color|]; cbn [exec queue_step].
  - unfold vertex. cbn [snd].
    change MAX_INDICES with 256 in *. change MAX_VERTICES with 512 in *.
    destruct (Nat.eqb_spec (length q) 256) as [Hfull|Hroom].
    + destruct (Nat.eqb_spec (count r) 512) as [_|]; [|lia].
      pose proof (holds_flush camera gl q r Hh) as [Hh' _].
      pose proof (holds_colors_flush camera gl q r Hcol) as Hcol'.
      destruct (flush camera (gl, r)) as [gl1 r1]. cbn [fst snd app] in *.
      apply (holds_colors_write []); try done.
      cbn [length]. change MAX_INDICES with 256. lia.
    + destruct (Nat.eqb_spec (count r) 512) as [|_]; [lia|].
      cbn [fst snd]. apply holds_colors_write; try done.
      change MAX_INDICES with 256. lia.
  - by apply (holds_colors_flush camera gl q).
Qed.

Lemma holds_colors_run camera os gl q r :
  COLOR_COMPONENTS <= 4 ->
  holds q r -> holds_colors q r ->
  holds_colors (foldl queue_step q os) (run camera os (gl, r)).2.
Proof.
  intros Hcc. revert gl q r. induction os as [|o os IH]; intros gl q r Hh Hcol.
  - done.
  - pose proof (holds_exec camera o gl q r Hh) as [Hh1 _].
    pose proof (holds_colors_exec camera o gl q r Hcc Hh Hcol) as Hcol1.
    cbn [run foldl].
    destruct (exec camera o (gl, r)) as [gl1 r1]. cbn [fst snd] in *.
    by apply IH.
Qed.
End Facts.
End RenderPointQueue.

Section PointBuffer.
Context {F M : Type} `{!Number F} `{!Mat4Ops F M} `{!Classic2d F}.

(** X1.  After any sequence of [vertex] and [flush] calls on a fresh
    [RenderPoint], the object buffers exactly the points passed since
    the last upload: there are at most 256 of them, [count] is twice
    their number, their rounded coordinates fill the front of the
    vertex array in the order of the calls, and the points drawn so far
    plus the points buffered are the points passed in. *)
Theorem point_buffer_holds_queue (camera : Camera.t F) vb cb ib pi
    (os : list (RenderPoint.op F)) :
  let st := RenderPoint.run (M:=M) camera os ([], RenderPoint.new vb cb ib pi) in
  let q := RenderPoint.queue os in
  length q <= RenderPoint.MAX_INDICES
  /\ RenderPoint.count st.2 = 2 * length q
  /\ take (RenderPoint.count st.2) (RenderPoint.vertices st.2) = RenderLine.coords q.*1
  /\ GL.drawn_points st.1 + length q = sum_list_with RenderPoint.points_of os.
Proof.
  intros st q.
  destruct (RenderPointQueue.holds_run camera os [] [] (RenderPoint.new vb cb ib pi)
              (RenderPointQueue.holds_new vb cb ib pi))
    as [(Hc & Hq & _ & Htake) Hd].
  repeat split; done.
Qed.

(** X2.  When a colour has at most four components, no colour store of
    [vertex] falls outside the colour array: after any sequence of
    calls on a fresh [RenderPoint] the front of the colour array holds,
    vertex by vertex, the rounded components of the colours of the
    buffered points. *)
Theorem point_colors_follow_queue (camera : Camera.t F) vb cb ib pi
    (os : list (RenderPoint.op F)) :
  COLOR_COMPONENTS <= 4 ->
  let st := RenderPoint.run (M:=M) camera os ([], RenderPoint.new vb cb ib pi) in
  let q := RenderPoint.queue os in
  length (RenderPoint.colors st.2) = RenderPoint.MAX_COLORS
  /\ take (length q * COLOR_COMPONENTS) (RenderPoint.colors st.2)
     = flat_map (fun pc => RenderLine.components pc.2) q.
Proof.
  intros Hcc st q.
  exact (RenderPointQueue.holds_colors_run camera os [] [] _ Hcc
           (RenderPointQueue.holds_new vb cb ib pi)
           (RenderPointQueue.holds_colors_new vb cb ib pi)).
Qed.
End PointBuffer.

(** ** RenderLine: what the calls leave in the buffers *)

Module RenderLineLayout.
Import RenderLine.

Section Facts.
Context {F M : Type} `{!Number F} `{!Mat4Ops F M} `{!Classic2d F}.
Implicit Types (r : RenderLine.t F M) (gl : list (GL.call F M))
  (es : list (Entry.t M)) (camera : Camera.t F).

(** The two ways an iteration of the loop can go, with its result. *)
Lemma addVertices_body_cases camera matrix color i p lv gl r es :
  loop_invariant i lv r -> recorded r = Some es ->
  (count r ≠ MAX_VERTICES
   /\ addVertices_body camera matrix color i p (lv, gl, r)
      = Some (lv, gl, write_vertex p color r))
  \/ (count r = MAX_VERTICES
      /\ addVertices_body camera matrix color i p (lv, gl, r)
         = Some (0, gl ++ flush_calls camera r
                          (if 0 <? i then es ++ [pending_entry matrix lv r] else es),
                 write_vertex p color
                   (set_matricesCount 0 (set_count 0 (before_flush matrix i lv r))))).
Proof.
  intros Hinv Hes. unfold addVertices_body.
  destruct (Nat.eqb_spec (count r) MAX_VERTICES) as [Heq|Hne].
  - right. split; [done|].
    destruct (RenderLineFacts.capacity_flush camera matrix i lv gl r es Hinv Hes Heq)
      as [_ Hfl].
    by rewrite Hfl.
  - left. by split.
Qed.

Lemma colors_push e r : colors (push_matrix e r) = colors r.
Proof. reflexivity. Qed.

Lemma write_color_take_line k color (cs : list F) :
  (k + 1) * COLOR_COMPONENTS <= length cs ->
  length (write_color (k * COLOR_COMPONENTS) color cs) = length cs
  /\ take ((k + 1) * COLOR_COMPONENTS) (write_color (k * COLOR_COMPONENTS) color cs)
     = take (k * COLOR_COMPONENTS) cs ++ components color.
Proof.
  intros Hlen. unfold write_color, components.
  split; [apply length_store_loop|].
  replace ((k + 1) * COLOR_COMPONENTS)
    with (k * COLOR_COMPONENTS + COLOR_COMPONENTS) by lia.
  apply (take_store_loop (fun j => fround (color j))). lia.
Qed.

Lemma colors_write_vertex p color r :
  colors (write_vertex p color r)
  = write_color (count r / 2 * COLOR_COMPONENTS) color (colors r).
Proof.
  cbn [colors write_vertex set_colors].
  by replace (S (S (count r)) / 2 - 1) with (count r / 2) by lia.
Qed.

(** The colour stores of the iterations that meet no full buffer. *)
Lemma colors_write_all color ps r :
  count r mod 2 = 0 ->
  (count r / 2 + length ps) * COLOR_COMPONENTS <= length (colors r) ->
  length (colors (write_all color ps r)) = length (colors r)
  /\ take ((count r / 2 + length ps) * COLOR_COMPONENTS) (colors (write_all color ps r))
     = take (count r / 2 * COLOR_COMPONENTS) (colors r)
         ++ flat_map (fun _ => components color) ps.
Proof.
  revert r. induction ps as [|p ps IH]; intros r Hev Hlen.
  - cbn [write_all foldl length flat_map]. rewrite Nat.add_0_r, app_nil_r. done.
  - cbn [length] in Hlen. cbn [write_all foldl]. unfold write_all in IH.
    destruct (write_color_take_line (count r / 2) color (colors r)) as [Hl Ht]; [nia|].
    specialize (IH (write_vertex p color r)).
    rewrite colors_write_vertex in IH.
    change (count (write_vertex p color r)) with (S (S (count r))) in IH.
    replace (S (S (count r)) / 2) with (count r / 2 + 1) in IH by lia.
    destruct IH as [IHl IHt]; [lia|rewrite Hl; nia|].
    rewrite Hl in IHl. split; [done|].
    replace ((count r / 2 + length (p :: ps)) * COLOR_COMPONENTS)
      with ((count r / 2 + 1 + length ps) * COLOR_COMPONENTS)
      by (cbn [length]; lia).
    rewrite IHt, Ht. cbn [flat_map]. by rewrite <- app_assoc.
Qed.

(** Calls of [addVertices] that fit upload nothing and append to the
    buffers and to the recorded entries. *)
Lemma run_fit camera os gl r es :
  Forall (fun o => is_flush o = false) os ->
  count r mod 2 = 0 ->
  count r + 2 * sum_list_with points_of os <= MAX_VERTICES ->
  length (vertices r) = MAX_VERTICES ->
  recorded r = Some es ->
  exists r',
    run camera os (gl, r) = Some (gl, r')
    /\ count r' = count r + 2 * sum_list_with points_of os
    /\ recorded r' = Some (es ++ layout (count r / 2) os)
    /\ take (count r') (vertices r')
       = take (count r) (vertices r) ++ coords (flat_map passed os)
    /\ (COLOR_COMPONENTS <= 4 -> length (colors r) = MAX_COLORS ->
        take (count r' / 2 * COLOR_COMPONENTS) (colors r')
        = take (count r / 2 * COLOR_COMPONENTS) (colors r)
            ++ flat_map passed_colors os).
Proof.
  intros Hnf. revert r es.
  induction Hnf as [|o os Ho Hnf IH]; intros r es Hev Hfit Hlen Hes.
  - exists r. cbn [run sum_list_with layout flat_map coords].
    rewrite !app_nil_r, Nat.mul_0_r, Nat.add_0_r. repeat split; try done.
  - destruct o as [matrix ps color|]; [clear Ho|done].
    cbn [sum_list_with points_of] in Hfit.
    cbn [run exec sum_list_with points_of layout flat_map passed passed_colors].
    rewrite RenderLineFacts.addVertices_fit by lia.
    cbn [mbind option_bind].
    set (r1 := push_matrix (Entry.mk matrix (count r / 2) (length ps))
                 (write_all color ps r)).
    assert (Hc1 : count r1 = count r + 2 * length ps).
    { unfold r1. by rewrite RenderLineFacts.count_push, RenderLineFacts.count_write_all. }
    assert (Hv1 : vertices r1 = vertices (write_all color ps r)) by done.
    assert (Hk1 : colors r1 = colors (write_all color ps r)) by done.
    destruct (IH r1 (es ++ [Entry.mk matrix (count r / 2) (length ps)]))
      as (r' & Hrun & Hc' & Hrec' & Hv' & Hk'); try lia.
    { by rewrite Hv1, RenderLineFacts.length_vertices_write_all. }
    { apply RenderLineFacts.recorded_push.
      by rewrite RenderLineFacts.recorded_write_all. }
    exists r'. split; [done|]. split; [lia|]. split; [|split].
    + rewrite Hrec', <- app_assoc. cbn [app]. do 4 f_equal. lia.
    + rewrite Hv', Hc1, Hv1.
      rewrite RenderLineFacts.take_vertices_write_all by lia.
      unfold coords. by rewrite flat_map_app, app_assoc.
    + intros Hcc Hlk. change MAX_COLORS with 2048 in *.
      rewrite RenderLineFacts.MAX_VERTICES_eq in *.
      destruct (colors_write_all color ps r) as [Hl Ht]; [done|nia|].
      rewrite Hk'; [|done|by rewrite Hk1, Hl].
      rewrite Hk1, Hc1.
      replace ((count r + 2 * length ps) / 2) with (count r / 2 + length ps) by lia.
      by rewrite Ht, app_assoc.
Qed.
End Facts.
End RenderLineLayout.

Section LineLayout.
Context {F M : Type} `{!Number F} `{!Mat4Ops F M} `{!Classic2d F}.

(** X3.  Calls of [addVertices] on a fresh [RenderLine] whose points
    fit together in the buffer upload nothing: [count] is twice the
    number of points, one entry per call is recorded with the call's
    matrix, the position of its first vertex and its number of points,
    the front of the vertex array holds the rounded coordinates of all
    the points in the order passed, and, when a colour has at most four
    components, the front of the colour array holds the colour of each
    call once per point. *)
Theorem calls_that_fit_are_laid_out (camera : Camera.t F) vb cb ib pi
    (os : list (RenderLine.op F M)) :
  Forall (fun o => RenderLine.is_flush o = false) os ->
  2 * sum_list_with RenderLine.points_of os <= RenderLine.MAX_VERTICES ->
  exists r,
    RenderLine.run camera os ([], RenderLine.new vb cb ib pi) = Some ([], r)
    /\ RenderLine.count r = 2 * sum_list_with RenderLine.points_of os
    /\ RenderLine.recorded r = Some (RenderLine.layout 0 os)
    /\ take (RenderLine.count r) (RenderLine.vertices r)
       = RenderLine.coords (flat_map RenderLine.passed os)
    /\ (COLOR_COMPONENTS <= 4 ->
        take (RenderLine.count r / 2 * COLOR_COMPONENTS) (RenderLine.colors r)
        = flat_map RenderLine.passed_colors os).
Proof.
  intros Hnf Hfit.
  destruct (RenderLineLayout.run_fit camera os [] (RenderLine.new vb cb ib pi) []
              Hnf eq_refl)
    as (r & Hrun & Hc & Hrec & Hv & Hk).
  { cbn [RenderLine.count RenderLine.new]. lia. }
  { cbn [RenderLine.vertices RenderLine.new]. by rewrite length_replicate. }
  { done. }
  exists r. cbn [RenderLine.count RenderLine.new] in *.
  repeat split; try done.
  intros Hcc. rewrite Hk; [done|done|].
  cbn [RenderLine.colors RenderLine.new]. by rewrite length_replicate.
Qed.
End LineLayout.

(** ** RenderLine: whole segments, and the number of entries *)

Module RenderLineEntries.
Import RenderLine.

Section Facts.
Context {F M : Type} `{!Number F} `{!Mat4Ops F M} `{!Classic2d F}.
Implicit Types (r : RenderLine.t F M) (gl : list (GL.call F M))
  (es : list (Entry.t M)) (camera : Camera.t F).

(** An iteration of the loop, with the invariant and the entries of
    its result. *)
Lemma addVertices_body_result camera matrix color i p lv gl r es :
  loop_invariant i lv r -> recorded r = Some es ->
  exists lv' gl' r',
    addVertices_body camera matrix color i p (lv, gl, r) = Some (lv', gl', r')
    /\ loop_invariant (S i) lv' r'
    /\ ((count r ≠ MAX_VERTICES
         /\ lv' = lv /\ gl' = gl /\ r' = write_vertex p color r
         /\ recorded r' = Some es)
        \/ (count r = MAX_VERTICES
            /\ lv' = 0
            /\ gl' = gl ++ flush_calls camera r
                            (if 0 <? i then es ++ [pending_entry matrix lv r] else es)
            /\ r' = write_vertex p color
                      (set_matricesCount 0 (set_count 0 (before_flush matrix i lv r)))
            /\ recorded r' = Some [])).
Proof.
  intros Hinv Hes.
  destruct (RenderLineFacts.addVertices_body_spec camera matrix color i p lv gl r es
              Hinv Hes) as (lv' & gl' & r' & Hbody & Hinv' & _).
  exists lv', gl', r'. split; [done|]. split; [done|].
  destruct (RenderLineLayout.addVertices_body_cases camera matrix color i p lv gl r es
              Hinv Hes) as [[Hne Hb]|[Heq Hb]];
    rewrite Hb in Hbody; injection Hbody as <- <- <-.
  - left. by repeat split.
  - right. by repeat split.
Qed.

Lemma whole_draws_flush_calls camera r es :
  whole_entries es -> whole_draws (flush_calls camera r es).
Proof.
  intros Hes. unfold whole_draws, flush_calls.
  apply Forall_app. split; [by repeat constructor|].
  apply Forall_app. split; [|by repeat constructor].
  induction Hes as [|e es He Hes IH]; [constructor|].
  cbn [flat_map draw_entry app]. by repeat constructor.
Qed.

(** The loop over points whose number keeps the vertex count a
    multiple of four at the end of the call. *)
Lemma addVertices_loop_whole camera matrix color ps i lv gl r es :
  loop_invariant i lv r -> recorded r = Some es ->
  lv mod 4 = 0 -> (count r + 2 * length ps) mod 4 = 0 ->
  whole_entries es -> whole_draws gl ->
  exists lv' gl' r' es',
    addVertices_loop camera matrix color i ps (lv, gl, r) = Some (lv', gl', r')
    /\ loop_invariant (i + length ps) lv' r'
    /\ recorded r' = Some es'
    /\ lv' mod 4 = 0 /\ count r' mod 4 = 0
    /\ whole_entries es' /\ whole_draws gl'.
Proof.
  revert i lv gl r es.
  induction ps as [|p ps IH]; intros i lv gl r es Hinv Hes Hlv Hc Hwe Hwd.
  - exists lv, gl, r, es. cbn [addVertices_loop length] in *.
    rewrite Nat.add_0_r. repeat split; try done. lia.
  - destruct (addVertices_body_result camera matrix color i p lv gl r es Hinv Hes)
      as (lv1 & gl1 & r1 & Hbody & Hinv1 & Hcase).
    cbn [addVertices_loop length] in *. rewrite Hbody. cbn [mbind option_bind].
    replace (i + S (length ps)) with (S i + length ps) by lia.
    pose proof Hinv as (_ & _ & _ & _ & _ & Hle & _ & _).
    destruct Hcase as [(Hne & -> & -> & -> & Hrec1)|(Heq & -> & -> & -> & Hrec1)].
    + apply (IH (S i) lv gl _ es); try done.
      change (count (write_vertex p color r)) with (S (S (count r))). lia.
    + apply (IH (S i) 0 _ _ []); try done.
      * change (count (write_vertex p color
                 (set_matricesCount 0 (set_count 0 (before_flush matrix i lv r)))))
          with 2.
        rewrite RenderLineFacts.MAX_VERTICES_eq in Heq. lia.
      * constructor.
      * apply Forall_app. split; [done|].
        apply whole_draws_flush_calls.
        destruct (0 <? i); [|done].
        apply Forall_app. split; [done|]. constructor; [|constructor].
        cbn [Entry.count pending_entry].
        rewrite RenderLineFacts.MAX_VERTICES_eq in Heq. lia.
Qed.

Lemma addVertices_whole camera matrix ps color gl r es :
  invariant r -> recorded r = Some es ->
  length ps mod 2 = 0 -> count r mod 4 = 0 ->
  whole_entries es -> whole_draws gl ->
  exists gl' r' es',
    addVertices camera matrix ps color (gl, r) = Some (gl', r')
    /\ invariant r' /\ recorded r' = Some es'
    /\ count r' mod 4 = 0 /\ whole_entries es' /\ whole_draws gl'.
Proof.
  intros Hinv Hes Hev Hc Hwe Hwd.
  destruct (addVertices_loop_whole camera matrix color ps 0 (count r) gl r es
              (RenderLineFacts.invariant_loop _ Hinv) Hes)
    as (lv1 & gl1 & r1 & es1 & Hloop & Hinv1 & Hes1 & Hlv1 & Hc1 & Hwe1 & Hwd1);
    try done; [lia|].
  unfold addVertices. rewrite Hloop. cbn [mbind option_bind].
  eexists _, _, _. split; [reflexivity|].
  split; [by eapply RenderLineFacts.loop_invariant_finish|].
  split; [by apply RenderLineFacts.recorded_push|].
  split; [by rewrite RenderLineFacts.count_push|]. split; [|done].
  apply Forall_app. split; [done|]. constructor; [|constructor].
  cbn [Entry.count pending_entry].
  destruct Hinv1 as (_ & _ & _ & _ & _ & Hle & _ & _). lia.
Qed.

Lemma flush_whole camera gl r es :
  invariant r -> recorded r = Some es -> whole_entries es -> whole_draws gl ->
  exists gl' r',
    flush camera (gl, r) = Some (gl', r')
    /\ invariant r' /\ count r' = 0 /\ recorded r' = Some [] /\ whole_draws gl'.
Proof.
  intros Hinv Hes Hwe Hwd.
  destruct (RenderLineFacts.flush_spec camera gl r Hinv)
    as (gl' & r' & Hfl & Hinv' & Hc' & Hmc' & _).
  exists gl', r'. split; [done|]. split; [done|]. split; [done|]. split.
  - unfold recorded. by rewrite Hmc'.
  - destruct (decide (matricesCount r = 0)) as [Hmc|Hmc].
    + rewrite (RenderLineFacts.flush_empty _ _ _ Hmc) in Hfl. by injection Hfl as <- _.
    + rewrite (RenderLineFacts.flush_nonempty _ _ _ _ Hes Hmc) in Hfl.
      injection Hfl as <- _. apply Forall_app. split; [done|].
      by apply whole_draws_flush_calls.
Qed.

Lemma run_whole camera os gl r es :
  Forall (fun o => points_of o mod 2 = 0) os ->
  invariant r -> recorded r = Some es -> count r mod 4 = 0 ->
  whole_entries es -> whole_draws gl ->
  exists gl' r' es',
    run camera os (gl, r) = Some (gl', r')
    /\ recorded r' = Some es' /\ whole_entries es' /\ whole_draws gl'.
Proof.
  intros Hos. revert gl r es.
  induction Hos as [|o os Ho Hos IH]; intros gl r es Hinv Hes Hc Hwe Hwd.
  - by exists gl, r, es.
  - cbn [run]. destruct o as [matrix ps color|]; cbn [exec points_of] in *.
    + destruct (addVertices_whole camera matrix ps color gl r es)
        as (gl1 & r1 & es1 & -> & Hinv1 & Hes1 & Hc1 & Hwe1 & Hwd1); try done.
      cbn [mbind option_bind]. by apply (IH gl1 r1 es1).
    + destruct (flush_whole camera gl r es)
        as (gl1 & r1 & -> & Hinv1 & Hc1 & Hes1 & Hwd1); try done.
      cbn [mbind option_bind]. apply (IH gl1 r1 []); try done.
      * by rewrite Hc1.
      * constructor.
Qed.

(** *** Calls that pass at least one point *)

Lemma length_matrices_push e r :
  matricesCount r < length (matrices r) ->
  length (matrices (push_matrix e r)) = length (matrices r).
Proof.
  intros Hlt. rewrite RenderLineFacts.matrices_push. unfold array_set.
  destruct (decide (matricesCount r < length (matrices r))); [|done].
  by rewrite length_insert.
Qed.

Lemma length_le_total es :
  Forall (fun e => 0 < Entry.count e) es -> length es <= total es.
Proof.
  induction 1 as [|e es He _ IH]; [done|].
  rewrite RenderLineFacts.total_cons. cbn [length]. lia.
Qed.

(** With [lv < count], the entries recorded so far leave room for one
    more in the array. *)
Lemma room_for_pending i lv r es :
  loop_invariant i lv r -> recorded r = Some es ->
  Forall (fun e => 0 < Entry.count e) es -> lv < count r ->
  matricesCount r < MAX_MATRICES /\ 0 < (count r - lv) / 2.
Proof.
  intros (es0 & Hes0 & Hcont & Hlv & Hev & Hle & Hmax & _) Hes Hpos Hlt.
  rewrite Hes in Hes0. injection Hes0 as <-.
  apply RenderLineFacts.contiguous_total in Hcont.
  apply length_le_total in Hpos.
  apply RenderLineFacts.recorded_length in Hes.
  rewrite RenderLineFacts.MAX_VERTICES_eq in Hmax. change MAX_MATRICES with 512.
  lia.
Qed.

Lemma addVertices_loop_nonempty camera matrix color ps i lv gl r es :
  loop_invariant i lv r -> recorded r = Some es ->
  Forall (fun e => 0 < Entry.count e) es -> (0 < i -> lv < count r) ->
  length (matrices r) = MAX_MATRICES ->
  exists lv' gl' r' es',
    addVertices_loop camera matrix color i ps (lv, gl, r) = Some (lv', gl', r')
    /\ loop_invariant (i + length ps) lv' r'
    /\ recorded r' = Some es'
    /\ Forall (fun e => 0 < Entry.count e) es'
    /\ (0 < i + length ps -> lv' < count r')
    /\ length (matrices r') = MAX_MATRICES.
Proof.
  revert i lv gl r es.
  induction ps as [|p ps IH]; intros i lv gl r es Hinv Hes Hpos Hlt Hlen.
  - exists lv, gl, r, es. cbn [addVertices_loop length].
    rewrite Nat.add_0_r. by repeat split.
  - destruct (addVertices_body_result camera matrix color i p lv gl r es Hinv Hes)
      as (lv1 & gl1 & r1 & Hbody & Hinv1 & Hcase).
    cbn [addVertices_loop length]. rewrite Hbody. cbn [mbind option_bind].
    replace (i + S (length ps)) with (S i + length ps) by lia.
    pose proof Hinv as (_ & _ & _ & _ & _ & Hle & _ & _).
    destruct Hcase as [(Hne & -> & -> & -> & Hrec1)|(Heq & -> & -> & -> & Hrec1)].
    + apply (IH (S i) lv gl _ es); try done.
      intros _. change (count (write_vertex p color r)) with (S (S (count r))). lia.
    + apply (IH (S i) 0 _ _ []); try done.
      * intros _. cbn. lia.
      * change (length (matrices (before_flush matrix i lv r)) = MAX_MATRICES).
        unfold before_flush. destruct (Nat.ltb_spec 0 i) as [Hi|_]; [|done].
        rewrite length_matrices_push; [done|]. rewrite Hlen.
        by apply (room_for_pending i lv r es); [..|apply Hlt].
Qed.

Lemma addVertices_nonempty camera matrix ps color gl r es :
  ps <> [] ->
  invariant r -> recorded r = Some es ->
  Forall (fun e => 0 < Entry.count e) es ->
  length (matrices r) = MAX_MATRICES ->
  exists gl' r' es',
    addVertices camera matrix ps color (gl, r) = Some (gl', r')
    /\ invariant r' /\ recorded r' = Some es'
    /\ Forall (fun e => 0 < Entry.count e) es'
    /\ length (matrices r') = MAX_MATRICES.
Proof.
  intros Hps Hinv Hes Hpos Hlen.
  destruct (addVertices_loop_nonempty camera matrix color ps 0 (count r) gl r es
              (RenderLineFacts.invariant_loop _ Hinv) Hes Hpos)
    as (lv1 & gl1 & r1 & es1 & Hloop & Hinv1 & Hes1 & Hpos1 & Hlt1 & Hlen1);
    [lia|done|].
  assert (Hlt : lv1 < count r1).
  { apply Hlt1. destruct ps; [done|]. cbn [length]. lia. }
  destruct (room_for_pending _ lv1 r1 es1 Hinv1 Hes1 Hpos1 Hlt) as [Hroom Hcount].
  unfold addVertices. rewrite Hloop. cbn [mbind option_bind].
  eexists _, _, _. split; [reflexivity|].
  split; [by eapply RenderLineFacts.loop_invariant_finish|].
  split; [by apply RenderLineFacts.recorded_push|]. split.
  - apply Forall_app. split; [done|]. by constructor; [|constructor].
  - rewrite length_matrices_push; [done|]. by rewrite Hlen1.
Qed.

Lemma run_nonempty camera os gl r es :
  Forall nonempty os ->
  invariant r -> recorded r = Some es ->
  Forall (fun e => 0 < Entry.count e) es ->
  length (matrices r) = MAX_MATRICES ->
  exists gl' r' es',
    run camera os (gl, r) = Some (gl', r')
    /\ invariant r' /\ recorded r' = Some es'
    /\ Forall (fun e => 0 < Entry.count e) es'
    /\ length (matrices r') = MAX_MATRICES.
Proof.
  intros Hos. revert gl r es.
  induction Hos as [|o os Ho Hos IH]; intros gl r es Hinv Hes Hpos Hlen.
  - by exists gl, r, es.
  - cbn [run]. destruct o as [matrix ps color|]; cbn [exec nonempty] in *.
    + destruct (addVertices_nonempty camera matrix ps color gl r es)
        as (gl1 & r1 & es1 & -> & Hinv1 & Hes1 & Hpos1 & Hlen1); try done.
      cbn [mbind option_bind]. by apply (IH gl1 r1 es1).
    + destruct (RenderLineFacts.flush_spec camera gl r Hinv)
        as (gl1 & r1 & Hfl & Hinv1 & Hc1 & Hmc1 & _).
      rewrite Hfl. cbn [mbind option_bind]. apply (IH gl1 r1 []); try done.
      * unfold recorded. by rewrite Hmc1.
      * unfold flush in Hfl. destruct (matricesCount r =? 0).
        -- by injection Hfl as _ <-.
        -- destruct (recorded r); [|done]. by injection Hfl as _ <-.
Qed.

(** *** Calls that pass no point *)

Lemma addVertices_nil camera matrix color gl r :
  addVertices camera matrix [] color (gl, r)
  = Some (gl, push_matrix (Entry.mk matrix (count r / 2) 0) r).
Proof.
  unfold addVertices, pending_entry. cbn [addVertices_loop mbind option_bind].
  by rewrite Nat.sub_diag.
Qed.

Lemma recorded_within r es :
  recorded r = Some es -> matricesCount r <= length (matrices r).
Proof.
  unfold recorded. intros H. apply mapM_Some in H.
  destruct (matricesCount r) as [|k]; [lia|].
  rewrite seq_S in H. apply Forall2_app_inv_l in H as (es1 & es2 & _ & H2 & _).
  apply Forall2_cons_inv_l in H2 as (e & ? & Hget & _ & _).
  unfold array_get in Hget. cbn [Nat.add] in Hget.
  destruct (matrices r !! k) as [o|] eqn:Hk; [|done].
  apply lookup_lt_Some in Hk. lia.
Qed.

Lemma run_nil_calls camera matrix color n gl r es :
  recorded r = Some es ->
  exists r',
    run camera (replicate n (AddVertices matrix [] color)) (gl, r) = Some (gl, r')
    /\ count r' = count r
    /\ vertices r' = vertices r
    /\ matricesCount r' = matricesCount r + n
    /\ recorded r' = Some (es ++ replicate n (Entry.mk matrix (count r / 2) 0))
    /\ length (matrices r') = length (matrices r) `max` (matricesCount r + n).
Proof.
  revert r es. induction n as [|n IH]; intros r es Hes.
  - exists r. cbn [run replicate]. rewrite app_nil_r, Nat.add_0_r.
    repeat split; try done.
    apply recorded_within in Hes. lia.
  - cbn [run replicate exec]. rewrite addVertices_nil. cbn [mbind option_bind].
    set (e := Entry.mk matrix (count r / 2) 0).
    destruct (IH (push_matrix e r) (es ++ [e]))
      as (r' & Hrun & Hc & Hv & Hmc & Hrec & Hlen).
    { by apply RenderLineFacts.recorded_push. }
    exists r'. split; [done|]. split; [done|]. split; [done|].
    rewrite RenderLineFacts.matricesCount_push in *.
    rewrite RenderLineFacts.count_push in Hrec.
    split; [lia|]. split.
    + rewrite Hrec, <- app_assoc. done.
    + rewrite Hlen, RenderLineFacts.matrices_push. unfold array_set.
      destruct (decide (matricesCount r < length (matrices r))).
      * rewrite length_insert. lia.
      * rewrite !length_app, length_replicate. cbn [length]. lia.
Qed.
End Facts.
End RenderLineEntries.

Section LineEntries.
Context {F M : Type} `{!Number F} `{!Mat4Ops F M} `{!Classic2d F}.

(** X4.  When every call of [addVertices] passes an even number of
    points (whole line segments, as [drawCircle] does), the batching
    never tears a segment: every entry left recorded and every
    [drawElements] call issued in mode LINES takes an even number of
    vertices, also where a call was split by a full buffer. *)
Theorem even_calls_keep_segments_whole (camera : Camera.t F) vb cb ib pi
    (os : list (RenderLine.op F M)) :
  Forall (fun o => RenderLine.points_of o mod 2 = 0) os ->
  exists gl r es,
    RenderLine.run camera os ([], RenderLine.new vb cb ib pi) = Some (gl, r)
    /\ RenderLine.recorded r = Some es
    /\ RenderLine.whole_entries es
    /\ RenderLine.whole_draws gl.
Proof.
  intros Hos.
  apply (RenderLineEntries.run_whole camera os [] _ []); try done.
  - apply RenderLineFacts.invariant_new.
  - constructor.
  - constructor.
Qed.

(** X5.  When every call of [addVertices] passes at least one point,
    there are never more recorded entries than buffered vertices: the
    entry counter stays within [MAX_MATRICES] and the array of entries
    keeps its initial length. *)
Theorem nonempty_calls_bound_entries (camera : Camera.t F) vb cb ib pi
    (os : list (RenderLine.op F M)) :
  Forall RenderLine.nonempty os ->
  exists gl r,
    RenderLine.run camera os ([], RenderLine.new vb cb ib pi) = Some (gl, r)
    /\ RenderLine.matricesCount r <= RenderLine.count r / 2
    /\ RenderLine.matricesCount r <= RenderLine.MAX_MATRICES
    /\ length (RenderLine.matrices r) = RenderLine.MAX_MATRICES.
Proof.
  intros Hos.
  destruct (RenderLineEntries.run_nonempty camera os [] (RenderLine.new vb cb ib pi) []
              Hos (RenderLineFacts.invariant_new vb cb ib pi) eq_refl (Forall_nil_2 _))
    as (gl & r & es & Hrun & Hinv & Hes & Hpos & Hlen).
  { cbn [RenderLine.matrices RenderLine.new]. by rewrite length_replicate. }
  exists gl, r. split; [done|].
  destruct Hinv as (es0 & Hes0 & Hcont & _ & Hmax).
  rewrite Hes in Hes0. injection Hes0 as <-.
  apply RenderLineFacts.contiguous_total in Hcont.
  apply RenderLineEntries.length_le_total in Hpos.
  apply RenderLineFacts.recorded_length in Hes.
  rewrite RenderLineFacts.MAX_VERTICES_eq in Hmax.
  change RenderLine.MAX_MATRICES with 512 in *.
  repeat split; try done; lia.
Qed.

(** X6.  A call of [addVertices] with no points still records an
    entry.  After [n] such calls on a fresh [RenderLine] the vertex
    buffer is empty, [n] entries of zero vertices are recorded, the
    array of entries has grown to [n] slots once [n] exceeds
    [MAX_MATRICES], and the next flush issues one draw call of zero
    vertices per entry. *)
Theorem empty_calls_still_record_entries (camera : Camera.t F) vb cb ib pi
    (matrix : M) (color : Color F) (n : nat) :
  exists r,
    RenderLine.run camera (replicate n (RenderLine.AddVertices matrix [] color))
      ([], RenderLine.new vb cb ib pi) = Some ([], r)
    /\ RenderLine.count r = 0
    /\ RenderLine.matricesCount r = n
    /\ RenderLine.recorded r = Some (replicate n (RenderLine.Entry.mk matrix 0 0))
    /\ length (RenderLine.matrices r) = RenderLine.MAX_MATRICES `max` n
    /\ (0 < n ->
        RenderLine.flush camera ([], r)
        = Some (RenderLine.flush_calls camera r
                  (replicate n (RenderLine.Entry.mk matrix 0 0)),
                RenderLine.set_matricesCount 0 (RenderLine.set_count 0 r))).
Proof.
  destruct (RenderLineEntries.run_nil_calls camera matrix color n []
              (RenderLine.new vb cb ib pi) [] eq_refl)
    as (r & Hrun & Hc & _ & Hmc & Hrec & Hlen).
  exists r. cbn [RenderLine.count RenderLine.matricesCount RenderLine.matrices
                 RenderLine.new app] in *.
  rewrite length_replicate in Hlen.
  repeat split; try done.
  intros Hn. rewrite (RenderLineFacts.flush_nonempty _ _ _ _ Hrec) by lia. done.
Qed.
End LineEntries.

(** ** RenderText: the texts of a frame *)

Module RenderTextFacts.
Import RenderText.

Section Facts.
Context {F : Type} `{!Number F}.
Implicit Types (r : RenderText.t F) (gl2d : list (G2D.call F)).

(** Calls without a flush leave the canvas alone and queue their
    texts, the printed ones on consecutive rows. *)
Lemma text_run_layout os gl2d r k :
  Forall (fun o => is_flush o = false) os ->
  yOffset r = row (size r) k ->
  exists k',
    run os (gl2d, r)
    = (gl2d, mk (size r) (row (size r) k') (texts r ++ layout (size r) k os)).
Proof.
  intros Hos. revert r k.
  induction Hos as [|o os Ho Hos IH]; intros r k Hy.
  - exists k. cbn [run foldl layout]. rewrite app_nil_r, <- Hy. by destruct r.
  - destruct o as [text x y|text|w h]; [| |done]; cbn [run foldl exec fst snd layout].
    + destruct (IH (fill text x y r) k Hy) as (k' & Hrun). exists k'.
      unfold run in Hrun. rewrite Hrun. cbn [size texts fill].
      by rewrite <- app_assoc.
    + destruct (IH (print text r) (S k)) as (k' & Hrun).
      { cbn [yOffset size print fill row Nat.iter]. by rewrite Hy. }
      exists k'. unfold run in Hrun. rewrite Hrun. cbn [size texts print fill].
      by rewrite Hy, <- app_assoc.
Qed.
End Facts.
End RenderTextFacts.

Section TextFrames.
Context {F : Type} `{!Number F}.

(** X7.  The texts queued on a fresh [RenderText] before a flush are
    drawn by that flush, after the canvas is cleared and the style set,
    in the order of the calls: a filled text at its own position, the
    [k]-th printed text at x = 0 and at the offset obtained by adding
    the size [k] times to 0, whatever calls of [fill] come in between.
    The flush leaves the object as it was when created, so that every
    frame is laid out alike. *)
Theorem text_flush_draws_layout (size : option F) gl2d
    (os : list (RenderText.op F)) (w h : F) :
  Forall (fun o => RenderText.is_flush o = false) os ->
  let sz := default (of_nat RenderText.DEFAULT_SIZE) size in
  RenderText.run (os ++ [RenderText.Flush w h]) (gl2d, RenderText.new size)
  = (gl2d ++ RenderText.frame sz w h (RenderText.layout sz 0 os),
     RenderText.new size).
Proof.
  intros Hos sz.
  destruct (RenderTextFacts.text_run_layout os gl2d (RenderText.new size) 0 Hos eq_refl)
    as (k' & Hrun).
  unfold RenderText.run in *. rewrite foldl_app, Hrun. reflexivity.
Qed.
End TextFrames.

(** ** DebugDraw: nothing handed to the renderers is lost *)

Module DebugDrawAccounts.
Import DebugDraw.

Section Facts.
Context {F M B C : Type}.
Context `{!Number F} `{!Mat4Ops F M} `{!Classic2d F} `{!CanvasOps F C}.
Implicit Types (e : Env.t F M B C) (d : DebugDraw.t F M).

Lemma drawn_points_line_calls camera (r : RenderLine.t F M) es :
  GL.drawn_points (RenderLine.flush_calls camera r es) = 0.
Proof.
  unfold RenderLine.flush_calls.
  rewrite !RenderPointFacts.drawn_points_app.
  assert (H : GL.drawn_points (flat_map (RenderLine.draw_entry (F:=F)
                                 (RenderLine.programInfo r)) es) = 0).
  { induction es as [|x es IH]; [done|].
    cbn [flat_map]. by rewrite RenderPointFacts.drawn_points_app, IH. }
  by rewrite H.
Qed.

Lemma drawn_lines_point_calls camera (r : RenderPoint.t F) :
  GL.drawn_lines (RenderPoint.flush_calls (M:=M) camera r) = 0.
Proof. reflexivity. Qed.

Lemma line_flush_points camera gl (r : RenderLine.t F M) gl' r' :
  RenderLine.flush camera (gl, r) = Some (gl', r') ->
  GL.drawn_points gl' = GL.drawn_points gl.
Proof.
  unfold RenderLine.flush. destruct (RenderLine.matricesCount r =? 0).
  - by intros [= <- _].
  - destruct (RenderLine.recorded r) as [es|]; [|done].
    cbn [mbind option_bind]. intros [= <- _].
    rewrite RenderPointFacts.drawn_points_app, drawn_points_line_calls. lia.
Qed.

Lemma addVertices_loop_points camera matrix color ps i lv gl (r : RenderLine.t F M)
    lv' gl' r' :
  RenderLine.loop_invariant i lv r ->
  RenderLine.addVertices_loop camera matrix color i ps (lv, gl, r) = Some (lv', gl', r') ->
  GL.drawn_points gl' = GL.drawn_points gl.
Proof.
  revert i lv gl r. induction ps as [|p ps IH]; intros i lv gl r Hinv.
  - by intros [= _ <- _].
  - pose proof Hinv as (es & Hes & _).
    destruct (RenderLineEntries.addVertices_body_result camera matrix color i p
                lv gl r es Hinv Hes) as (lv1 & gl1 & r1 & Hbody & Hinv1 & Hcase).
    cbn [RenderLine.addVertices_loop]. rewrite Hbody. cbn [mbind option_bind].
    intros Hloop. rewrite (IH _ _ _ _ Hinv1 Hloop).
    destruct Hcase as [(_ & _ & -> & _)|(_ & _ & -> & _)]; [done|].
    rewrite RenderPointFacts.drawn_points_app, drawn_points_line_calls. lia.
Qed.

Lemma addVertices_points camera matrix ps color gl (r : RenderLine.t F M) gl' r' :
  RenderLine.invariant r ->
  RenderLine.addVertices camera matrix ps color (gl, r) = Some (gl', r') ->
  GL.drawn_points gl' = GL.drawn_points gl.
Proof.
  intros Hinv. unfold RenderLine.addVertices.
  destruct (RenderLine.addVertices_loop camera matrix color 0 ps
              (RenderLine.count r, gl, r)) as [[[lv1 gl1] r1]|] eqn:Hloop; [|done].
  cbn [mbind option_bind]. intros [= <- _].
  eapply addVertices_loop_points; [|done]. by apply RenderLineFacts.invariant_loop.
Qed.

Lemma point_flush_lines camera gl (r : RenderPoint.t F) :
  GL.drawn_lines (RenderPoint.flush (M:=M) camera (gl, r)).1 = GL.drawn_lines gl.
Proof.
  unfold RenderPoint.flush. destruct (RenderPoint.count r =? 0); [done|].
  cbn [fst]. rewrite RenderLineFacts.drawn_lines_app, drawn_lines_point_calls. lia.
Qed.

Lemma vertex_lines camera p color gl (r : RenderPoint.t F) :
  GL.drawn_lines (RenderPoint.vertex (M:=M) camera p color (gl, r)).1
  = GL.drawn_lines gl.
Proof.
  unfold RenderPoint.vertex. cbn [snd].
  destruct (RenderPoint.count r =? RenderPoint.MAX_VERTICES); [|done].
  pose proof (point_flush_lines camera gl r) as H.
  by destruct (RenderPoint.flush camera (gl, r)).
Qed.

Lemma drawCircle_points position angle radius color e d e' d' :
  invariant d ->
  drawCircle position angle radius color (e, d) = Some (e', d') ->
  GL.drawn_points (Env.gl e') = GL.drawn_points (Env.gl e)
  /\ points d' = points d /\ text d' = text d.
Proof.
  intros (Hl & _ & _). unfold drawCircle.
  rewrite DebugDrawFacts.circle_ps_head. cbn [mbind option_bind].
  set (ps := circle_ps). clearbody ps.
  set (matrix := circle_matrix position angle radius). clearbody matrix.
  destruct (RenderLineFacts.addVertices_spec (Env.camera e) matrix
              [center; perimeter 0] color (Env.gl e) (lines d) Hl)
    as (gl1 & l1 & Hadd1 & Hl1 & _).
  rewrite Hadd1. cbn [mbind option_bind].
  destruct (RenderLine.addVertices (Env.camera e) matrix ps color (gl1, l1))
    as [[gl2 l2]|] eqn:Hadd2; [|done].
  cbn [mbind option_bind]. intros [= <- <-]. cbn [Env.gl Env.set_gl points text].
  split; [|done].
  rewrite (addVertices_points _ _ _ _ _ _ _ _ Hl1 Hadd2).
  by rewrite (addVertices_points _ _ _ _ _ _ _ _ Hl Hadd1).
Qed.

(** Flushing a debug draw uploads what its three renderers buffer. *)
Lemma draw_flush_accounts e d :
  invariant d ->
  exists e' d',
    flush (e, d) = Some (e', d')
    /\ invariant d' /\ Env.same_page e e'
    /\ GL.drawn_lines (Env.gl e')
       = GL.drawn_lines (Env.gl e) + RenderLine.count (lines d) / 2
    /\ GL.drawn_points (Env.gl e')
       = GL.drawn_points (Env.gl e) + RenderPoint.count (points d) / 2
    /\ Env.gl2d e'
       = Env.gl2d e ++ RenderText.frame (RenderText.size (text d))
                         (canvas_width (Env.canvas2d e))
                         (canvas_height (Env.canvas2d e))
                         (RenderText.texts (text d))
    /\ RenderLine.count (lines d') = 0 /\ RenderLine.matricesCount (lines d') = 0
    /\ RenderPoint.count (points d') = 0
    /\ text d' = RenderText.mk (RenderText.size (text d)) (of_nat 0) [].
Proof.
  intros Hinv.
  destruct (DebugDrawFacts.draw_flush_spec e d Hinv)
    as (e' & d' & Hfl & Hinv' & Hpage & Hc & Hmc & Hpc & _).
  exists e', d'. split; [done|]. split; [done|]. split; [done|].
  destruct Hinv as (Hl & _ & _).
  destruct (RenderLineFacts.flush_spec (Env.camera e) (Env.gl e) (lines d) Hl)
    as (gl1 & l1 & Hlf & _ & _ & _ & Hacc).
  pose proof (line_flush_points _ _ _ _ _ Hlf) as Hlp.
  destruct (RenderPointFacts.point_flush_spec (Env.camera e) gl1 (points d))
    as (gl2 & p2 & Hpf & _ & Hpacc & _).
  pose proof (point_flush_lines (Env.camera e) gl1 (points d)) as Hpl.
  unfold flush in Hfl. rewrite Hlf in Hfl. cbn [mbind option_bind] in Hfl.
  unfold RenderText.flush in Hfl. rewrite Hpf in *. cbn [fst] in Hpl.
  injection Hfl as <- <-. cbn [Env.gl Env.gl2d Env.set_gl Env.set_gl2d text] in *.
  repeat split; try done; congruence.
Qed.

Lemma draw_exec_accounts o e d :
  invariant d ->
  exists e' d',
    exec o (e, d) = Some (e', d')
    /\ invariant d' /\ Env.same_page e e'
    /\ GL.drawn_lines (Env.gl e') + RenderLine.count (lines d') / 2
       = GL.drawn_lines (Env.gl e) + RenderLine.count (lines d) / 2 + lines_of o
    /\ GL.drawn_points (Env.gl e') + RenderPoint.count (points d') / 2
       = GL.drawn_points (Env.gl e) + RenderPoint.count (points d) / 2 + points_of o.
Proof.
  intros Hinv. destruct o as [position angle radius color|position color|text0 x y|text0|];
    cbn [exec lines_of points_of].
  - destruct (DebugDrawFacts.drawCircle_spec position angle radius color e d Hinv)
      as (gl' & l' & Heq & Hinv' & Hacc & _).
    destruct (drawCircle_points _ _ _ _ _ _ _ _ Hinv Heq) as (Hp & _ & _).
    eexists _, _. split; [exact Heq|]. split; [done|]. split; [by repeat split|].
    cbn [lines points Env.gl Env.set_gl] in *. split; lia.
  - destruct (DebugDrawFacts.drawPoint_spec position color e d Hinv)
      as (e' & d' & Heq & Hinv' & Hpage & Hl & _ & Hacc).
    exists e', d'. split; [by rewrite Heq|]. split; [done|]. split; [done|].
    split; [|lia]. rewrite Hl.
    unfold drawPoint in Heq.
    pose proof (vertex_lines (Env.camera e) position color (Env.gl e) (points d)) as Hv.
    destruct (RenderPoint.vertex (Env.camera e) position color (Env.gl e, points d))
      as [gl1 p1]. injection Heq as <- _. cbn [Env.gl Env.set_gl fst] in *. lia.
  - eexists _, _. split; [reflexivity|]. unfold drawText.
    split; [apply (DebugDrawFacts.drawText_spec text0 x y e d Hinv)|].
    split; [apply DebugDrawFacts.same_page_refl|]. cbn [lines points]. lia.
  - eexists _, _. split; [reflexivity|]. unfold printText.
    split; [apply (DebugDrawFacts.printText_spec text0 e d Hinv)|].
    split; [apply DebugDrawFacts.same_page_refl|]. cbn [lines points]. lia.
  - destruct (draw_flush_accounts e d Hinv)
      as (e' & d' & Heq & Hinv' & Hpage & Hl & Hp & _ & Hc & _ & Hpc & _).
    exists e', d'. split; [done|]. split; [done|]. split; [done|].
    rewrite Hc, Hpc. lia.
Qed.

Lemma draw_run_accounts os e d :
  invariant d ->
  exists e' d',
    run os (e, d) = Some (e', d')
    /\ invariant d' /\ Env.same_page e e'
    /\ GL.drawn_lines (Env.gl e') + RenderLine.count (lines d') / 2
       = GL.drawn_lines (Env.gl e) + RenderLine.count (lines d) / 2
         + sum_list_with lines_of os
    /\ GL.drawn_points (Env.gl e') + RenderPoint.count (points d') / 2
       = GL.drawn_points (Env.gl e) + RenderPoint.count (points d) / 2
         + sum_list_with points_of os.
Proof.
  revert e d. induction os as [|o os IH]; intros e d Hinv.
  - exists e, d. cbn [run sum_list_with]. split; [done|]. split; [done|].
    split; [apply DebugDrawFacts.same_page_refl|]. lia.
  - destruct (draw_exec_accounts o e d Hinv)
      as (e1 & d1 & Hexec & Hinv1 & Hpage1 & Hl1 & Hp1).
    destruct (IH e1 d1 Hinv1) as (e2 & d2 & Hrun & Hinv2 & Hpage2 & Hl2 & Hp2).
    exists e2, d2. cbn [run sum_list_with]. rewrite Hexec. cbn [mbind option_bind].
    split; [done|]. split; [done|].
    split; [by eapply DebugDrawFacts.same_page_trans|]. lia.
Qed.
End Facts.
End DebugDrawAccounts.

Section DebugDrawExtras.
Context {F M B C : Type}.
Context `{!Number F} `{!Mat4Ops F M} `{!Classic2d F} `{!CanvasOps F C}.

(** X8.  After any sequence of calls on a fresh debug draw, [flush]
    cannot throw and draws everything that is buffered: the line
    vertices and the points buffered are drawn by this very call, the
    queued texts are drawn on the cleared canvas in the order queued,
    the three renderers are left empty, and nothing else of the page
    is touched. *)
Theorem debug_draw_flush_draws_everything (e0 : Env.t F M B C)
    vb cb ib pi vb' cb' ib' pi' size (os : list (DebugDraw.op F)) :
  exists e d e' d',
    DebugDraw.run os
      (e0, DebugDraw.mk (RenderLine.new (M:=M) vb cb ib pi) (RenderText.new size)
             (RenderPoint.new vb' cb' ib' pi')) = Some (e, d)
    /\ DebugDraw.flush (e, d) = Some (e', d')
    /\ GL.drawn_lines (Env.gl e')
       = GL.drawn_lines (Env.gl e) + RenderLine.count (DebugDraw.lines d) / 2
    /\ GL.drawn_points (Env.gl e')
       = GL.drawn_points (Env.gl e) + RenderPoint.count (DebugDraw.points d) / 2
    /\ Env.gl2d e'
       = Env.gl2d e ++ RenderText.frame (RenderText.size (DebugDraw.text d))
                         (canvas_width (Env.canvas2d e))
                         (canvas_height (Env.canvas2d e))
                         (RenderText.texts (DebugDraw.text d))
    /\ RenderLine.count (DebugDraw.lines d') = 0
    /\ RenderLine.matricesCount (DebugDraw.lines d') = 0
    /\ RenderPoint.count (DebugDraw.points d') = 0
    /\ DebugDraw.text d'
       = RenderText.mk (RenderText.size (DebugDraw.text d)) (of_nat 0) []
    /\ Env.same_page e e'.
Proof.
  destruct (DebugDrawFacts.draw_run_spec os e0 _
              (DebugDrawFacts.draw_invariant_new vb cb ib pi vb' cb' ib' pi' size))
    as (e & d & Hrun & Hinv & _).
  destruct (DebugDrawAccounts.draw_flush_accounts e d Hinv)
    as (e' & d' & Hfl & _ & Hpage & Hl & Hp & Ht & Hc & Hmc & Hpc & Htx).
  exists e, d, e', d'. repeat (split; [done|]). done.
Qed.

(** X9.  The two WebGL renderers of a debug draw share one context
    without disturbing each other's count: after any sequence of calls
    on a fresh debug draw, the line vertices drawn plus those buffered
    are 66 for each [drawCircle], the points drawn plus those buffered
    are one for each [drawPoint], and the calls change nothing of the
    page but the traces of the two contexts. *)
Theorem debug_draw_loses_nothing (e0 : Env.t F M B C)
    vb cb ib pi vb' cb' ib' pi' size (os : list (DebugDraw.op F)) :
  exists e d,
    DebugDraw.run os
      (e0, DebugDraw.mk (RenderLine.new (M:=M) vb cb ib pi) (RenderText.new size)
             (RenderPoint.new vb' cb' ib' pi')) = Some (e, d)
    /\ GL.drawn_lines (Env.gl e) + RenderLine.count (DebugDraw.lines d) / 2
       = GL.drawn_lines (Env.gl e0) + sum_list_with DebugDraw.lines_of os
    /\ GL.drawn_points (Env.gl e) + RenderPoint.count (DebugDraw.points d) / 2
       = GL.drawn_points (Env.gl e0) + sum_list_with DebugDraw.points_of os
    /\ Env.same_page e0 e.
Proof.
  destruct (DebugDrawAccounts.draw_run_accounts os e0 _
              (DebugDrawFacts.draw_invariant_new vb cb ib pi vb' cb' ib' pi' size))
    as (e & d & Hrun & _ & Hpage & Hl & Hp).
  exists e, d. split; [done|]. cbn [DebugDraw.lines DebugDraw.points
    RenderLine.count RenderPoint.count RenderLine.new RenderPoint.new] in *.
  change (0 / 2) with 0 in *. split; [lia|]. split; [lia|done].
Qed.
End DebugDrawExtras.

(** ** Test: contact points across frames, and the user's listener *)

Module TestAccounts.
Import Test.

Section Facts.
Context {F M B C W MA : Type}.
Context `{!Number F} `{!Mat4Ops F M} `{!Classic2d F} `{!CanvasOps F C}.
Context `{!EqDecision B} `{!WorldOps F B W} `{!MovingAverageOps F MA}.
Implicit Types (e : Env.t F M B C) (t : Test.t F M B W MA)
  (contact c : Contact.t F B) (cs : list (Contact.t F B)).

(** [drawHelp] only queues texts. *)
Lemma drawHelp_renderers time e t :
  exists d ma,
    drawHelp time (e, t) = (e, set_debugDraw d (set_frameTimeMovingAverage ma t))
    /\ DebugDraw.lines d = DebugDraw.lines (debugDraw t)
    /\ DebugDraw.points d = DebugDraw.points (debugDraw t).
Proof.
  unfold drawHelp.
  destruct (MovingAverage_get time (frameTimeMovingAverage t)) as [avg ma].
  destruct (isPause t); eexists _, _; (split; [reflexivity|]); done.
Qed.

(** A point that finds room in the point buffer is only written. *)
Lemma drawPoint_fit position color e (d : DebugDraw.t F M) :
  RenderPoint.count (DebugDraw.points d) ≠ RenderPoint.MAX_VERTICES ->
  DebugDraw.drawPoint position color (e, d)
  = (Env.set_gl (Env.gl e) e,
     DebugDraw.mk (DebugDraw.lines d) (DebugDraw.text d)
       (RenderPoint.write_vertex position color (DebugDraw.points d))).
Proof.
  intros Hne. unfold DebugDraw.drawPoint, RenderPoint.vertex. cbn [snd].
  by destruct (Nat.eqb_spec (RenderPoint.count (DebugDraw.points d))
                 RenderPoint.MAX_VERTICES).
Qed.

(** Contact points that fit in the point buffer are only written. *)
Lemma drawContacts_fit cs e (d : DebugDraw.t F M) :
  RenderPoint.count (DebugDraw.points d) mod 2 = 0 ->
  RenderPoint.count (DebugDraw.points d) + 2 * length cs <= RenderPoint.MAX_VERTICES ->
  let ed' := foldl (fun ed contact =>
                      DebugDraw.drawPoint (Contact.getPoint contact) COLORS_CONTACT ed)
                   (e, d) cs in
  Env.gl ed'.1 = Env.gl e
  /\ RenderPoint.count (DebugDraw.points ed'.2)
     = RenderPoint.count (DebugDraw.points d) + 2 * length cs.
Proof.
  revert e d. induction cs as [|c cs IH]; intros e d Hev Hfit.
  - cbn [foldl fst snd length]. split; [done|lia].
  - cbn [foldl length] in *. rewrite drawPoint_fit by lia.
    set (d1 := DebugDraw.mk _ _ _).
    assert (Hc1 : RenderPoint.count (DebugDraw.points d1)
                  = S (S (RenderPoint.count (DebugDraw.points d)))) by done.
    destruct (IH (Env.set_gl (Env.gl e) e) d1) as [Hgl Hc]; [lia|lia|].
    split; [by rewrite Hgl|]. rewrite Hc. lia.
Qed.

(** One frame's [draw], with the account of the points: those the
    world draws and those buffered before are counted with the drawn or
    buffered ones, and so are the contact points, which stay in the
    buffer when they fit. *)
Lemma draw_accounts time e t :
  invariant t ->
  exists e' t',
    draw time (e, t) = Some (e', t')
    /\ invariant t'
    /\ world t' = world t /\ contacts t' = []
    /\ GL.drawn_points (Env.gl e')
         + RenderPoint.count (DebugDraw.points (debugDraw t')) / 2
       = GL.drawn_points (Env.gl e)
         + RenderPoint.count (DebugDraw.points (debugDraw t)) / 2
         + sum_list_with DebugDraw.points_of (World_drawDebugData (world t))
         + length (contacts t)
    /\ (length (contacts t) <= RenderPoint.MAX_INDICES ->
        RenderPoint.count (DebugDraw.points (debugDraw t')) = 2 * length (contacts t)).
Proof.
  intros [Hd Hnd]. unfold draw.
  destruct (DebugDrawAccounts.draw_run_accounts (World_drawDebugData (world t))
              (Env.log Ext.world_drawDebugData e) (debugDraw t) Hd)
    as (e1 & d1 & Hrun & Hd1 & _ & _ & Hp1).
  rewrite Hrun. cbn [mbind option_bind].
  destruct (drawHelp_renderers time e1 (set_debugDraw d1 t))
    as (d2 & ma & Hhelp & Hl2 & Hp2).
  rewrite Hhelp.
  change (debugDraw (set_debugDraw d1 t)) with d1 in *.
  assert (Hd2 : DebugDraw.invariant d2).
  { destruct Hd1 as (? & ? & ?). unfold DebugDraw.invariant. by rewrite Hl2, Hp2. }
  destruct (DebugDrawAccounts.draw_flush_accounts e1 d2 Hd2)
    as (e3 & d3 & Hfl & Hd3 & _ & _ & Hp3 & _ & _ & _ & Hc3 & _).
  change (debugDraw (set_debugDraw d2 (set_frameTimeMovingAverage ma (set_debugDraw d1 t))))
    with d2.
  rewrite Hfl. cbn [mbind option_bind]. unfold drawContacts.
  change (debugDraw (set_debugDraw d3 _)) with d3.
  change (contacts (set_debugDraw d3 _)) with (contacts t).
  destruct (TestFacts.drawContacts_spec (contacts t) e3 d3 Hd3)
    as (e4 & d4 & Hdc & Hd4 & _ & Hacc4).
  pose proof (drawContacts_fit (contacts t) e3 d3) as Hfit.
  rewrite Hdc in *. cbn [fst snd] in Hfit.
  eexists _, _. split; [reflexivity|].
  split; [split; [exact Hd4|apply NoDup_nil_2]|].
  split; [done|]. split; [done|].
  cbn [debugDraw clearContacts set_contacts set_debugDraw].
  rewrite Hp2 in Hp3. cbn [Env.log Env.gl] in Hp1.
  split; [rewrite Hc3 in Hacc4; lia|].
  intros Hlen. change RenderPoint.MAX_INDICES with 256 in Hlen.
  destruct Hfit as [_ Hc4].
  - by rewrite Hc3.
  - rewrite Hc3. change RenderPoint.MAX_VERTICES with 512. lia.
  - rewrite Hc4, Hc3. lia.
Qed.

(** Callbacks reach the user's listener one for one. *)
Lemma dispatch_forward (call : Listener.call F B) e t :
  Env.ext (dispatch (e, t) call).1
  = Env.ext e ++ match contactListener t with
                 | Some _ => [forward call]
                 | None => []
                 end
  /\ contactListener (dispatch (e, t) call).2 = contactListener t.
Proof.
  destruct call as [c|c|c]; cbn [dispatch forward];
    unfold beginContact, endContact, preSolve, notify.
  - destruct (negb (hasContact c t)); cbn [contactListener set_contacts];
      destruct (contactListener t) eqn:Hl; cbn [fst snd Env.ext Env.log contactListener];
      rewrite ?app_nil_r; done.
  - destruct (contactListener t) eqn:Hl; cbn [fst snd Env.ext Env.log];
      rewrite ?app_nil_r; done.
  - destruct (contactListener t) eqn:Hl; cbn [fst snd Env.ext Env.log];
      rewrite ?app_nil_r; done.
Qed.

Lemma dispatch_all_forward (calls : list (Listener.call F B)) e t :
  Env.ext (foldl dispatch (e, t) calls).1
  = Env.ext e ++ match contactListener t with
                 | Some _ => forward <$> calls
                 | None => []
                 end
  /\ contactListener (foldl dispatch (e, t) calls).2 = contactListener t.
Proof.
  revert e t. induction calls as [|call calls IH]; intros e t.
  - cbn [foldl fst snd fmap list_fmap]. split; [|done].
    destruct (contactListener t); by rewrite app_nil_r.
  - cbn [foldl]. destruct (dispatch_forward call e t) as [Hext Hl].
    destruct (dispatch (e, t) call) as [e1 t1]. cbn [fst snd] in *.
    destruct (IH e1 t1) as [Hext2 Hl2]. rewrite Hext2, Hl2, Hl, Hext.
    split; [|done]. destruct (contactListener t); rewrite <- app_assoc; done.
Qed.
End Facts.
End TestAccounts.

Section TestExtras.
Context {F M B C W MA : Type}.
Context `{!Number F} `{!Mat4Ops F M} `{!Classic2d F} `{!CanvasOps F C}.
Context `{!EqDecision B} `{!WorldOps F B W} `{!MovingAverageOps F MA}.

(** X10.  [draw] of src/src/test.ts flushes before it draws the
    contacts, so the contact points of a frame are not uploaded by that
    frame: when there are at most 256 they are all left in the point
    buffer, and it is the [draw] of the next frame that uploads them,
    together with the points the world draws in that frame. *)
Theorem contact_points_are_drawn_a_frame_late time time'
    (e : Env.t F M B C) (t : Test.t F M B W MA) :
  Test.invariant t ->
  length (Test.contacts t) <= RenderPoint.MAX_INDICES ->
  exists e' t' e'' t'',
    Test.draw time (e, t) = Some (e', t')
    /\ RenderPoint.count (DebugDraw.points (Test.debugDraw t'))
       = 2 * length (Test.contacts t)
    /\ Test.contacts t' = []
    /\ Test.draw time' (e', t') = Some (e'', t'')
    /\ RenderPoint.count (DebugDraw.points (Test.debugDraw t'')) = 0
    /\ GL.drawn_points (Env.gl e'')
       = GL.drawn_points (Env.gl e') + length (Test.contacts t)
         + sum_list_with DebugDraw.points_of (World_drawDebugData (Test.world t')).
Proof.
  intros Hinv Hlen.
  destruct (TestAccounts.draw_accounts time e t Hinv)
    as (e' & t' & Hdraw & Hinv' & Hw & Hnil & _ & Hfit).
  destruct (TestAccounts.draw_accounts time' e' t' Hinv')
    as (e'' & t'' & Hdraw' & _ & _ & _ & Hacc' & Hfit').
  specialize (Hfit Hlen). rewrite Hnil in Hfit', Hacc'. cbn [length] in Hfit', Hacc'.
  exists e', t', e'', t''. repeat (split; [done|]).
  split; [apply Hfit'; lia|]. rewrite Hfit' in Hacc' by lia. rewrite Hfit in Hacc'.
  change (2 * 0 / 2) with 0 in Hacc'. lia.
Qed.

(** X11.  The test forwards every callback of the world to the user's
    contact listener, when one is set, as the same callback on the same
    contact and in the order made, a repeated [beginContact] included;
    with no listener it forwards nothing.  So during a step that is
    taken, the outside calls are [world.step] followed by the forwarded
    callbacks of that step. *)
Theorem callbacks_are_forwarded_in_order :
  (forall (calls : list (Listener.call F B)) (e : Env.t F M B C)
          (t : Test.t F M B W MA),
     Env.ext (foldl Test.dispatch (e, t) calls).1
     = Env.ext e ++ match Test.contactListener t with
                    | Some _ => Test.forward <$> calls
                    | None => []
                    end)
  /\ (forall time (e : Env.t F M B C) (t : Test.t F M B W MA),
        negb (Test.isPause t) || Test.shouldMakeStep t = true ->
        Env.ext (Test.step time (e, t)).1
        = Env.ext e ++ Ext.world_step time
            :: match Test.contactListener t with
               | Some _ => Test.forward <$> (World_step time (Test.world t)).2
               | None => []
               end).
Proof.
  split.
  - intros calls e t. apply TestAccounts.dispatch_all_forward.
  - intros time e t Hgo. unfold Test.step. rewrite Hgo.
    destruct (World_step time (Test.world t)) as [w calls]. cbn [snd].
    destruct (TestAccounts.dispatch_all_forward calls
                (Env.log (Ext.world_step time) e) (Test.set_world w t)) as [Hext _].
    destruct (foldl Test.dispatch _ calls) as [e1 t1]. cbn [fst] in *.
    rewrite Hext. cbn [Env.ext Env.log Test.contactListener Test.set_world].
    by rewrite <- app_assoc.
Qed.
End TestExtras.

(** ** Sandbox: frames, keys and time *)

Module SandboxFrames.
Import Sandbox.

Section Facts.
Context {F M B C W MA : Type}.
Context `{!Number F} `{!Mat4Ops F M} `{!Classic2d F} `{!CanvasOps F C}.
Context `{!EqDecision B} `{!WorldOps F B W} `{!MovingAverageOps F MA}.
Implicit Types (e : Env.t F M B C) (s : Sandbox.t F M B W MA)
  (tr : list (Ext.call F B)).








End Facts.
End SandboxFrames.

Section SandboxExtras.
Context {F M B C W MA : Type}.
Context `{!Number F} `{!Mat4Ops F M} `{!Classic2d F} `{!CanvasOps F C}.
Context `{!EqDecision B} `{!WorldOps F B W} `{!MovingAverageOps F MA}.




End SandboxExtras.

(** ** Shader set-up: what a failure leaves behind *)

Section ShaderExtras.
Context {F M : Type} `{!Driver F M}.

(** X16.  [loadShader] deletes the shader object it created exactly
    when the compilation fails, and deletes nothing else.
    [initShaderProgram] deletes nothing itself: the shaders deleted are
    those that failed to compile, so that after a link failure the
    shaders that did compile, and the program, are left alive; and it
    writes one line on the console for each failure, of a compilation
    or of the link. *)
Theorem shaders_deleted_only_on_compile_failure :
  (forall type source gl console,
     exists res gl' console',
       loadShader type source (gl, console) = (res, (gl', console'))
       /\ GL.deleted_shaders gl'
          = GL.deleted_shaders gl
              ++ match res with
                 | Some _ => []
                 | None => [Some (gl_createShader gl type)]
                 end
       /\ length console' = length console + failed res)
  /\ (forall vsSource fsSource (st : shader_state (F:=F) (M:=M)),
        exists vertexShader fragmentShader st1 st2 res st3,
          loadShader GL.VERTEX_SHADER vsSource st = (vertexShader, st1)
          /\ loadShader GL.FRAGMENT_SHADER fsSource st1 = (fragmentShader, st2)
          /\ initShaderProgram vsSource fsSource st = (res, st3)
          /\ GL.deleted_shaders st3.1 = GL.deleted_shaders st2.1
          /\ length (GL.deleted_shaders st3.1)
             = length (GL.deleted_shaders st.1)
               + failed vertexShader + failed fragmentShader
          /\ length st3.2
             = length st.2 + failed vertexShader + failed fragmentShader + failed res).
Proof.
  assert (Hload : forall type source gl console,
     exists res gl' console',
       loadShader type source (gl, console) = (res, (gl', console'))
       /\ GL.deleted_shaders gl'
          = GL.deleted_shaders gl
              ++ match res with
                 | Some _ => []
                 | None => [Some (gl_createShader gl type)]
                 end
       /\ length console' = length console + failed res).
  { intros type source gl console. unfold loadShader.
    destruct (gl_COMPILE_STATUS _ _); cbn [negb]; eexists _, _, _;
      (split; [reflexivity|]); unfold GL.deleted_shaders;
      rewrite ?omap_app, ?length_app; cbn; rewrite ?app_nil_r; split; done || lia. }
  split; [exact Hload|].
  intros vsSource fsSource [gl console].
  destruct (Hload GL.VERTEX_SHADER vsSource gl console)
    as (vs & gl1 & console1 & Hvs & Hd1 & Hc1).
  destruct (Hload GL.FRAGMENT_SHADER fsSource gl1 console1)
    as (fs & gl2 & console2 & Hfs & Hd2 & Hc2).
  unfold initShaderProgram. rewrite Hvs, Hfs.
  exists vs, fs, (gl1, console1), (gl2, console2).
  destruct (gl_LINK_STATUS _ _); cbn [negb]; eexists _, _;
    (split; [reflexivity|]); (split; [exact Hfs|]); (split; [reflexivity|]);
    cbn [fst snd]; unfold GL.deleted_shaders in *;
    rewrite ?omap_app, ?length_app; cbn [omap list_omap app length failed];
    rewrite ?app_nil_r; (split; [done|]);
    rewrite Hd2, Hd1, !length_app, Hc2, Hc1; destruct vs, fs; cbn; split; lia.
Qed.
End ShaderExtras.

(** ** The test with an optional debug draw *)

Module Test2Facts.
Import Test2.

Section Facts.
Context {F M B C W MA : Type}.
Context `{!Number F} `{!Mat4Ops F M} `{!Classic2d F} `{!CanvasOps F C}.
Context `{!EqDecision B} `{!WorldOps F B W} `{!MovingAverageOps F MA}.
Implicit Types (e : Env.t F M B C) (t : Test2.t F M B W MA)
  (d : DebugDraw.t F M).

Lemma drawHelp_some time e t d :
  debugDraw t = Some d ->
  exists d' ma,
    drawHelp time (e, t)
    = (e, set_debugDraw (Some d') (set_frameTimeMovingAverage ma t))
    /\ DebugDraw.lines d' = DebugDraw.lines d
    /\ DebugDraw.points d' = DebugDraw.points d.
Proof.
  intros Hd. unfold drawHelp. rewrite Hd.
  destruct (MovingAverage_get time (frameTimeMovingAverage t)) as [avg ma].
  destruct (isPause t); eexists _, _; (split; [reflexivity|]); done.
Qed.

(** With a debug draw, one frame's [draw] uploads everything: what
    was buffered, what the world draws and the contact points. *)
Lemma draw_some time e t d :
  debugDraw t = Some d -> DebugDraw.invariant d ->
  exists e' t' d',
    draw time (e, t) = Some (e', t')
    /\ debugDraw t' = Some d' /\ DebugDraw.invariant d'
    /\ world t' = world t /\ contactListener t' = contactListener t
    /\ isPause t' = isPause t /\ shouldMakeStep t' = shouldMakeStep t
    /\ contacts t' = []
    /\ RenderLine.count (DebugDraw.lines d') = 0
    /\ RenderPoint.count (DebugDraw.points d') = 0
    /\ RenderText.texts (DebugDraw.text d') = []
    /\ Env.ext e' = Env.ext e ++ [Ext.world_drawDebugData]
    /\ GL.drawn_points (Env.gl e')
       = GL.drawn_points (Env.gl e) + RenderPoint.count (DebugDraw.points d) / 2
         + sum_list_with DebugDraw.points_of (World_drawDebugData (world t))
         + length (contacts t).
Proof.
  intros Hd Hinv. unfold draw, drawDebugData. rewrite Hd.
  destruct (DebugDrawAccounts.draw_run_accounts (World_drawDebugData (world t))
              (Env.log Ext.world_drawDebugData e) d Hinv)
    as (e1 & d1 & Hrun & Hd1 & Hpage1 & _ & Hp1).
  rewrite Hrun. cbn [mbind option_bind].
  destruct (drawHelp_some time e1 (set_debugDraw (Some d1) t) d1 eq_refl)
    as (d2 & ma & Hhelp & Hl2 & Hp2).
  rewrite Hhelp. unfold drawContacts.
  cbn [debugDraw contacts set_debugDraw set_frameTimeMovingAverage].
  assert (Hd2 : DebugDraw.invariant d2).
  { destruct Hd1 as (? & ? & ?). unfold DebugDraw.invariant. by rewrite Hl2, Hp2. }
  destruct (TestFacts.drawContacts_spec (contacts t) e1 d2 Hd2)
    as (e3 & d3 & Hdc & Hd3 & Hpage3 & Hacc3).
  rewrite Hdc. unfold flush. cbn [debugDraw set_debugDraw].
  destruct (DebugDrawAccounts.draw_flush_accounts e3 d3 Hd3)
    as (e4 & d4 & Hfl & Hd4 & Hpage4 & _ & Hp4 & _ & Hc4 & _ & Hpc4 & Ht4).
  rewrite Hfl. cbn [mbind option_bind fst snd].
  eexists _, _, d4. split; [reflexivity|].
  cbn [debugDraw world contactListener isPause shouldMakeStep contacts
       clearContacts set_contacts set_debugDraw].
  repeat (split; [done|]).
  split; [rewrite Ht4; reflexivity|]. split.
  { destruct Hpage1 as [He1 _], Hpage3 as [He3 _], Hpage4 as [He4 _].
    by rewrite He4, He3, He1. }
  rewrite Hp2 in Hacc3. cbn [Env.log Env.gl] in Hp1. lia.
Qed.

Lemma draw_none time e t :
  debugDraw t = None ->
  draw time (e, t) = Some (Env.log Ext.world_drawDebugData e, clearContacts t).
Proof.
  intros Hd. unfold draw, drawDebugData. rewrite Hd. cbn [mbind option_bind].
  unfold drawHelp. rewrite Hd. unfold drawContacts. rewrite Hd.
  unfold flush. by rewrite Hd.
Qed.

Lemma notify_invariant (x : Ext.call F B) e t :
  invariant t -> invariant (notify x (e, t)).2.
Proof. unfold notify. by destruct (contactListener t). Qed.

Lemma dispatch_invariant (c : Listener.call F B) e t :
  invariant t -> invariant (dispatch (e, t) c).2.
Proof.
  intros Hinv. destruct c as [c|c|c]; cbn [dispatch];
    unfold beginContact, endContact, preSolve; try by apply notify_invariant.
  apply notify_invariant. by destruct (negb (hasContact c t)).
Qed.

Lemma dispatch_all_invariant (calls : list (Listener.call F B)) e t :
  invariant t -> invariant (foldl dispatch (e, t) calls).2.
Proof.
  revert e t. induction calls as [|c calls IH]; intros e t Hinv; [done|].
  cbn [foldl]. pose proof (dispatch_invariant c e t Hinv) as H1.
  destruct (dispatch (e, t) c) as [e1 t1]. by apply IH.
Qed.

Lemma step_invariant time e t :
  invariant t -> invariant (step time (e, t)).2.
Proof.
  intros Hinv. unfold step.
  destruct (negb (isPause t) || shouldMakeStep t); [|done].
  destruct (World_step time (world t)) as [w calls].
  pose proof (dispatch_all_invariant calls (Env.log (Ext.world_step time) e)
                (set_world w t) Hinv) as H1.
  by destruct (foldl dispatch _ calls) as [e1 t1].
Qed.

Lemma world_exec o e t :
  SandboxWorld.well_formed o -> invariant t ->
  exists e' t', SandboxWorld.exec o (e, t) = Some (e', t') /\ invariant t'.
Proof.
  intros Ho Hinv. destruct o as [d|l|c|time|time]; cbn [SandboxWorld.exec].
  - eexists _, _. split; [reflexivity|]. exact Ho.
  - eexists _, _. split; [reflexivity|]. exact Hinv.
  - pose proof (dispatch_invariant c e t Hinv).
    destruct (dispatch (e, t) c) as [e1 t1]. by exists e1, t1.
  - pose proof (step_invariant time e t Hinv).
    destruct (step time (e, t)) as [e1 t1]. by exists e1, t1.
  - destruct (debugDraw t) as [d|] eqn:Hd.
    + unfold invariant in Hinv. rewrite Hd in Hinv.
      destruct (draw_some time e t d Hd Hinv) as (e' & t' & d' & Hdraw & Hd' & Hinv' & _).
      exists e', t'. split; [done|]. unfold invariant. by rewrite Hd'.
    + rewrite (draw_none time e t Hd). eexists _, _. split; [reflexivity|].
      unfold invariant. cbn [debugDraw clearContacts set_contacts]. by rewrite Hd.
Qed.

Lemma world_run os e t :
  Forall SandboxWorld.well_formed os -> invariant t ->
  exists e' t', SandboxWorld.run os (e, t) = Some (e', t') /\ invariant t'.
Proof.
  intros Hos. revert e t. induction Hos as [|o os Ho Hos IH]; intros e t Hinv.
  - by exists e, t.
  - destruct (world_exec o e t Ho Hinv) as (e1 & t1 & Hexec & Hinv1).
    destruct (IH e1 t1 Hinv1) as (e2 & t2 & Hrun & Hinv2).
    exists e2, t2. cbn [SandboxWorld.run]. rewrite Hexec. by cbn [mbind option_bind].
Qed.
End Facts.
End Test2Facts.

Section Test2Extras.
Context {F M B C W MA : Type}.
Context `{!Number F} `{!Mat4Ops F M} `{!Classic2d F} `{!CanvasOps F C}.
Context `{!EqDecision B} `{!WorldOps F B W} `{!MovingAverageOps F MA}.

(** X17.  The revised [Test.draw] draws the contacts before it
    flushes.  Whatever calls were made on a fresh [SandboxWorld], the
    debug draws handed to it being consistent, a frame's [draw] cannot
    throw.  When a debug draw is set it uploads in that same frame the
    points buffered before, the points the world draws and one point
    per buffered contact, and leaves the three renderers and the
    contact list empty.  When none is set it only asks the world to
    draw and empties the contact list: neither context is touched and
    the contacts are dropped unseen. *)
Theorem revised_draw_shows_contacts_at_once (world : W)
    (os : list (SandboxWorld.op F M B)) (time : F) (e0 : Env.t F M B C) :
  Forall SandboxWorld.well_formed os ->
  exists e t e' t',
    SandboxWorld.run (MA:=MA) os (e0, SandboxWorld.new world) = Some (e, t)
    /\ Test2.draw time (e, t) = Some (e', t')
    /\ Test2.contacts t' = []
    /\ match Test2.debugDraw t with
       | Some d =>
           exists d',
             Test2.debugDraw t' = Some d'
             /\ RenderLine.count (DebugDraw.lines d') = 0
             /\ RenderPoint.count (DebugDraw.points d') = 0
             /\ RenderText.texts (DebugDraw.text d') = []
             /\ GL.drawn_points (Env.gl e')
                = GL.drawn_points (Env.gl e)
                  + RenderPoint.count (DebugDraw.points d) / 2
                  + sum_list_with DebugDraw.points_of
                      (World_drawDebugData (Test2.world t))
                  + length (Test2.contacts t)
       | None =>
           e' = Env.log Ext.world_drawDebugData e
           /\ t' = Test2.clearContacts t
       end.
Proof.
  intros Hos.
  destruct (Test2Facts.world_run os e0 (SandboxWorld.new world) Hos I)
    as (e & t & Hrun & Hinv).
  exists e, t. destruct (Test2.debugDraw t) as [d|] eqn:Hd.
  - unfold Test2.invariant in Hinv. rewrite Hd in Hinv.
    destruct (Test2Facts.draw_some time e t d Hd Hinv)
      as (e' & t' & d' & Hdraw & Hd' & _ & _ & _ & _ & _ & Hnil & Hlc & Hpc & Htx & _ & Hacc).
    exists e', t'. split; [done|]. split; [done|]. split; [done|].
    exists d'. by repeat split.
  - eexists _, _. split; [done|]. split; [by apply Test2Facts.draw_none|].
    by repeat split.
Qed.
End Test2Extras.

(** ** Examples on the concrete page *)

(** Two calls of [addVertices] that fit: three points, two entries. *)
Lemma calls_that_fit_are_laid_out_witness :
  let os := [ RenderLine.AddVertices Sample.New [Sample.pt 0; Sample.pt 1] Sample.red;
              RenderLine.AddVertices Sample.New [Sample.pt 2] Sample.red ] in
  exists r,
    RenderLine.run Sample.camera os ([], RenderLine.new 0 1 2 Sample.lineInfo)
    = Some ([], r)
    /\ RenderLine.count r = 6
    /\ RenderLine.recorded r
       = Some [ RenderLine.Entry.mk Sample.New 0 2; RenderLine.Entry.mk Sample.New 2 1 ]
    /\ take 6 (RenderLine.vertices r)
       = Sample.Fround <$> [ Sample.Lit 0; Sample.Lit 1; Sample.Lit 1; Sample.Lit 2;
                             Sample.Lit 2; Sample.Lit 3 ].
Proof.
  intros os.
  destruct (calls_that_fit_are_laid_out Sample.camera 0 1 2 Sample.lineInfo os)
    as (r & Hrun & Hc & Hrec & Hv & _).
  - repeat constructor.
  - vm_compute. lia.
  - exists r. split; [exact Hrun|]. split; [exact Hc|]. split; [exact Hrec|].
    rewrite Hc in Hv. exact Hv.
Defined.

(** A point, a flush and another point: the colour of the second point
    is at the front of the colour array. *)
Lemma point_colors_follow_queue_witness :
  let os := [ RenderPoint.Vertex (Sample.pt 0) Sample.red; RenderPoint.Flush;
              RenderPoint.Vertex (Sample.pt 1) Sample.red ] in
  let st := RenderPoint.run (M:=Sample.mat) Sample.camera os
              ([], RenderPoint.new 6 7 8 Sample.pointInfo) in
  take 4 (RenderPoint.colors st.2)
  = Sample.Fround <$> [ Sample.Lit 1; Sample.Lit 0; Sample.Lit 0; Sample.Lit 0 ].
Proof.
  intros os st.
  assert (Hcc : COLOR_COMPONENTS (F:=Sample.num) <= 4) by (vm_compute; lia).
  destruct (point_colors_follow_queue (M:=Sample.mat) Sample.camera 6 7 8
              Sample.pointInfo os Hcc) as [_ Htake].
  exact Htake.
Defined.

(** Two points, a flush, four points: every entry and draw call takes
    an even number of vertices. *)
Lemma even_calls_keep_segments_whole_witness :
  let os := [ RenderLine.AddVertices Sample.New [Sample.pt 0; Sample.pt 1] Sample.red;
              RenderLine.Flush;
              RenderLine.AddVertices Sample.New (Sample.pt <$> seq 0 4) Sample.red ] in
  exists gl r es,
    RenderLine.run Sample.camera os ([], RenderLine.new 0 1 2 Sample.lineInfo)
    = Some (gl, r)
    /\ RenderLine.recorded r = Some es
    /\ RenderLine.whole_entries es
    /\ RenderLine.whole_draws gl.
Proof.
  intros os.
  apply (even_calls_keep_segments_whole Sample.camera 0 1 2 Sample.lineInfo os).
  repeat constructor.
Defined.

(** Calls with one and two points: two entries, three vertices. *)
Lemma nonempty_calls_bound_entries_witness :
  let os := [ RenderLine.AddVertices Sample.New [Sample.pt 0] Sample.red;
              RenderLine.AddVertices Sample.New [Sample.pt 1; Sample.pt 2] Sample.red ] in
  exists gl r,
    RenderLine.run Sample.camera os ([], RenderLine.new 0 1 2 Sample.lineInfo)
    = Some (gl, r)
    /\ RenderLine.matricesCount r <= RenderLine.count r / 2
    /\ RenderLine.matricesCount r <= RenderLine.MAX_MATRICES
    /\ length (RenderLine.matrices r) = RenderLine.MAX_MATRICES.
Proof.
  intros os.
  apply (nonempty_calls_bound_entries Sample.camera 0 1 2 Sample.lineInfo os).
  repeat constructor; discriminate.
Defined.

(** A printed line, a text placed by hand and a second printed line. *)
Lemma text_flush_draws_layout_witness :
  RenderText.run
    [ RenderText.Print "fps"; RenderText.Fill "x" (Sample.Lit 5) (Sample.Lit 7);
      RenderText.Print "ms"; RenderText.Flush (Sample.Lit 800) (Sample.Lit 600) ]
    ([], RenderText.new None)
  = ([ G2D.clearRect (Sample.Lit 0) (Sample.Lit 0) (Sample.Lit 800) (Sample.Lit 600);
       G2D.set_fillStyle "#FFFFFF";
       G2D.set_font "12px Courier New";
       G2D.set_textBaseline "top";
       G2D.fillText "fps" (Sample.Lit 0) (Sample.Lit 0);
       G2D.fillText "x" (Sample.Lit 5) (Sample.Lit 7);
       G2D.fillText "ms" (Sample.Lit 0) (Sample.Add (Sample.Lit 0) (Sample.Lit 12)) ],
     RenderText.new None).
Proof.
  assert (Hos : Forall (fun o => RenderText.is_flush o = false)
                  [ RenderText.Print "fps";
                    RenderText.Fill "x" (Sample.Lit 5) (Sample.Lit 7);
                    RenderText.Print "ms" ]) by repeat constructor.
  exact (text_flush_draws_layout None [] _ (Sample.Lit 800) (Sample.Lit 600) Hos).
Defined.

(** One buffered contact: its point is in the buffer after the first
    frame and on the screen after the second. *)
Lemma contact_points_are_drawn_a_frame_late_witness :
  let t := Test.mk Sample.quiet Sample.debugDraw None [Sample.contact1]
             (Sample.Lit 0) false false in
  exists e' t' e'' t'',
    Test.draw (Sample.Lit 16) (Sample.page, t) = Some (e', t')
    /\ RenderPoint.count (DebugDraw.points (Test.debugDraw t')) = 2
    /\ GL.drawn_points (Env.gl e') = 0
    /\ Test.draw (Sample.Lit 16) (e', t') = Some (e'', t'')
    /\ GL.drawn_points (Env.gl e'') = 1.
Proof.
  intros t.
  assert (Hinv : Test.invariant t).
  { split.
    - exact (DebugDrawFacts.draw_invariant_new 0 1 2 Sample.lineInfo 6 7 8
               Sample.pointInfo None).
    - apply NoDup_singleton. }
  assert (Hlen : length (Test.contacts t) <= RenderPoint.MAX_INDICES)
    by (vm_compute; lia).
  destruct (contact_points_are_drawn_a_frame_late (Sample.Lit 16) (Sample.Lit 16)
              Sample.page t Hinv Hlen)
    as (e' & t' & e'' & t'' & Hd1 & Hc1 & Hn1 & Hd2 & Hc2 & Hacc).
  assert (H0 : (fun st : Env.t Sample.num Sample.mat nat Sample.canvas * _ =>
                  GL.drawn_points (Env.gl st.1))
                 <$> Test.draw (Sample.Lit 16) (Sample.page, t) = Some 0)
    by (vm_compute; reflexivity).
  rewrite Hd1 in H0. injection H0 as H0.
  assert (Hw : Test.world t' = Sample.quiet).
  { assert (H : (fun st : Env.t Sample.num Sample.mat nat Sample.canvas * _ =>
                   Test.world st.2)
                  <$> Test.draw (Sample.Lit 16) (Sample.page, t) = Some Sample.quiet)
      by (vm_compute; reflexivity).
    rewrite Hd1 in H. by injection H. }
  exists e', t', e'', t''. split; [exact Hd1|]. split; [exact Hc1|].
  split; [exact H0|]. split; [exact Hd2|].
  rewrite Hacc, H0, Hw. reflexivity.
Defined.

(** A debug draw is set and a contact begins: the frame uploads the
    contact point at once. *)
Lemma revised_draw_shows_contacts_at_once_witness :
  let os := [ SandboxWorld.SetDebugDraw Sample.debugDraw;
              SandboxWorld.Callback (Listener.beginContact Sample.contact1) ] in
  exists e t e' t',
    SandboxWorld.run (MA:=Sample.num) os (Sample.page, SandboxWorld.new Sample.quiet)
    = Some (e, t)
    /\ Test2.draw (Sample.Lit 16) (e, t) = Some (e', t')
    /\ Test2.contacts t' = []
    /\ GL.drawn_points (Env.gl e') = 1.
Proof.
  intros os.
  assert (Hos : Forall (SandboxWorld.well_formed (F:=Sample.num)) os).
  { constructor; [|by repeat constructor].
    exact (DebugDrawFacts.draw_invariant_new 0 1 2 Sample.lineInfo 6 7 8
             Sample.pointInfo None). }
  destruct (revised_draw_shows_contacts_at_once (MA:=Sample.num) Sample.quiet os
              (Sample.Lit 16) Sample.page Hos)
    as (e & t & e' & t' & Hrun & Hdraw & Hnil & _).
  exists e, t, e', t'. split; [exact Hrun|]. split; [exact Hdraw|].
  split; [exact Hnil|].
  assert (H : (fun st : Env.t Sample.num Sample.mat nat Sample.canvas * _ =>
                 GL.drawn_points (Env.gl st.1))
                <$> (st ← SandboxWorld.run (MA:=Sample.num) os
                             (Sample.page, SandboxWorld.new Sample.quiet);
                     Test2.draw (Sample.Lit 16) st) = Some 1)
    by (vm_compute; reflexivity).
  rewrite Hrun in H. cbn [mbind option_bind] in H. rewrite Hdraw in H.
  by injection H.
Defined.

(** A world that reports a contact twice in a step, with a listener
    set: both reports are forwarded after the call of [world.step]. *)
Lemma callbacks_are_forwarded_in_order_witness :
  let w := {| Sample.reports := [ Listener.beginContact Sample.contact1;
                                  Listener.beginContact Sample.contact2 ];
              Sample.shapes := [] |} in
  let t := Test.mk w Sample.debugDraw (Some 7) [] (Sample.Lit 0) false false in
  Env.ext (Test.step (Sample.Lit 16) (Sample.page, t)).1
  = [ Ext.world_step (Sample.Lit 16);
      Ext.listener_beginContact Sample.contact1;
      Ext.listener_beginContact Sample.contact2 ].
Proof.
  intros w t.
  destruct (callbacks_are_forwarded_in_order (F:=Sample.num) (M:=Sample.mat) (B:=nat)
              (C:=Sample.canvas) (W:=Sample.world) (MA:=Sample.num)) as [_ Hstep].
  exact (Hstep (Sample.Lit 16) Sample.page t eq_refl).
Defined.





(** ** Test: the help display *)

Module TestHelp.
Import Test.

Section Facts.
Context {F M B C W MA : Type}.
Context `{!Number F} `{!Mat4Ops F M} `{!Classic2d F} `{!CanvasOps F C}.
Context `{!EqDecision B} `{!WorldOps F B W} `{!MovingAverageOps F MA}.
Implicit Types (e : Env.t F M B C) (t : Test.t F M B W MA)
  (d : DebugDraw.t F M).

(** Drawing shapes leaves the texts and the 2d canvas alone. *)
Lemma shapes_exec_text o e d :
  DebugDraw.draws_shape o -> DebugDraw.invariant d ->
  exists e' d',
    DebugDraw.exec o (e, d) = Some (e', d')
    /\ DebugDraw.invariant d'
    /\ DebugDraw.text d' = DebugDraw.text d
    /\ Env.gl2d e' = Env.gl2d e.
Proof.
  intros Ho Hinv.
  destruct o as [position angle radius color|position color| | |]; try done;
    cbn [DebugDraw.exec].
  - destruct (DebugDrawFacts.drawCircle_spec position angle radius color e d Hinv)
      as (gl' & l' & Heq & Hinv' & _).
    eexists _, _. split; [exact Heq|]. split; [exact Hinv'|]. by split.
  - destruct (DebugDrawFacts.drawPoint_spec position color e d Hinv)
      as (e' & d' & Heq & Hinv' & _ & _ & Ht & _).
    exists e', d'. split; [by rewrite Heq|]. split; [done|]. split; [done|].
    unfold DebugDraw.drawPoint in Heq.
    destruct (RenderPoint.vertex _ _ _ _) as [gl1 p1]. by injection Heq as <- _.
Qed.

Lemma shapes_run_text os e d :
  Forall DebugDraw.draws_shape os -> DebugDraw.invariant d ->
  exists e' d',
    DebugDraw.run os (e, d) = Some (e', d')
    /\ DebugDraw.invariant d'
    /\ DebugDraw.text d' = DebugDraw.text d
    /\ Env.gl2d e' = Env.gl2d e.
Proof.
  intros Hos. revert e d. induction Hos as [|o os Ho Hos IH]; intros e d Hinv.
  - by exists e, d.
  - destruct (shapes_exec_text o e d Ho Hinv) as (e1 & d1 & Hexec & Hinv1 & Ht1 & Hg1).
    destruct (IH e1 d1 Hinv1) as (e2 & d2 & Hrun & Hinv2 & Ht2 & Hg2).
    exists e2, d2. cbn [DebugDraw.run]. rewrite Hexec. cbn [mbind option_bind].
    split; [done|]. split; [done|]. split; congruence.
Qed.

Lemma drawPoint_text position color e d :
  DebugDraw.text (DebugDraw.drawPoint position color (e, d)).2 = DebugDraw.text d
  /\ Env.gl2d (DebugDraw.drawPoint position color (e, d)).1 = Env.gl2d e.
Proof.
  unfold DebugDraw.drawPoint. by destruct (RenderPoint.vertex _ _ _ _) as [gl1 p1].
Qed.

Lemma drawContacts_text (cs : list (Contact.t F B)) e d :
  DebugDraw.text
    (foldl (fun ed contact =>
              DebugDraw.drawPoint (Contact.getPoint contact) COLORS_CONTACT ed)
           (e, d) cs).2 = DebugDraw.text d
  /\ Env.gl2d
       (foldl (fun ed contact =>
                 DebugDraw.drawPoint (Contact.getPoint contact) COLORS_CONTACT ed)
              (e, d) cs).1 = Env.gl2d e.
Proof.
  revert e d. induction cs as [|c cs IH]; intros e d; [done|].
  cbn [foldl].
  destruct (drawPoint_text (Contact.getPoint c) COLORS_CONTACT e d) as [Ht1 Hg1].
  destruct (DebugDraw.drawPoint (Contact.getPoint c) COLORS_CONTACT (e, d))
    as [e1 d1]. cbn [fst snd] in *.
  destruct (IH e1 d1) as [Ht Hg]. by rewrite Ht, Hg.
Qed.

(** The texts [drawHelp] queues on an empty text renderer. *)
Lemma drawHelp_lines time e t size :
  DebugDraw.text (debugDraw t) = RenderText.mk size (of_nat 0) [] ->
  exists d,
    drawHelp time (e, t)
    = (e, set_debugDraw d
            (set_frameTimeMovingAverage
               (MovingAverage_get time (frameTimeMovingAverage t)).2 t))
    /\ DebugDraw.lines d = DebugDraw.lines (debugDraw t)
    /\ DebugDraw.points d = DebugDraw.points (debugDraw t)
    /\ RenderText.size (DebugDraw.text d) = size
    /\ RenderText.texts (DebugDraw.text d)
       = help_lines size (MovingAverage_get time (frameTimeMovingAverage t)).1
           (isPause t).
Proof.
  intros Ht. unfold drawHelp, help_lines.
  destruct (MovingAverage_get time (frameTimeMovingAverage t)) as [avg ma].
  cbn [fst snd].
  destruct (isPause t); eexists; (split; [reflexivity|]);
    cbn [DebugDraw.printText DebugDraw.lines DebugDraw.points DebugDraw.text];
    rewrite Ht; by repeat split.
Qed.
End Facts.
End TestHelp.

Section HelpDisplay.
Context {F M B C W MA : Type}.
Context `{!Number F} `{!Mat4Ops F M} `{!Classic2d F} `{!CanvasOps F C}.
Context `{!EqDecision B} `{!WorldOps F B W} `{!MovingAverageOps F MA}.

(** X18.  When the world draws only shapes and the text renderer is
    empty, as a frame leaves it, [draw] clears the 2d canvas and shows
    the help: the key legend, the frames per second and the frame
    time, computed from the moving average of the time passed in, on
    rows 0, 1 and 2, then [PAUSE] on row 3 when the test is paused.
    The text renderer is empty again afterwards, so that the next frame
    lays out its help in the same way. *)
Theorem draw_shows_the_help (time : F) (e : Env.t F M B C)
    (t : Test.t F M B W MA) (size : F) :
  Test.invariant t ->
  DebugDraw.text (Test.debugDraw t) = RenderText.mk size (of_nat 0) [] ->
  Forall DebugDraw.draws_shape (World_drawDebugData (Test.world t)) ->
  exists e' t',
    Test.draw time (e, t) = Some (e', t')
    /\ Env.gl2d e'
       = Env.gl2d e
           ++ RenderText.frame size (canvas_width (Env.canvas2d e))
                (canvas_height (Env.canvas2d e))
                (Test.help_lines size
                   (MovingAverage_get time (Test.frameTimeMovingAverage t)).1
                   (Test.isPause t))
    /\ Test.frameTimeMovingAverage t'
       = (MovingAverage_get time (Test.frameTimeMovingAverage t)).2
    /\ DebugDraw.text (Test.debugDraw t') = RenderText.mk size (of_nat 0) [].
Proof.
  intros [Hd Hnd] Ht Hshapes. unfold Test.draw.
  destruct (TestHelp.shapes_run_text (World_drawDebugData (Test.world t))
              (Env.log Ext.world_drawDebugData e) (Test.debugDraw t) Hshapes Hd)
    as (e1 & d1 & Hrun & Hd1 & Ht1 & Hg1).
  destruct (DebugDrawFacts.draw_run_spec (World_drawDebugData (Test.world t))
              (Env.log Ext.world_drawDebugData e) (Test.debugDraw t) Hd)
    as (e1' & d1' & Hrun' & _ & Hpage1).
  rewrite Hrun in Hrun'. injection Hrun' as <- <-.
  rewrite Hrun. cbn [mbind option_bind].
  destruct (TestHelp.drawHelp_lines time e1 (Test.set_debugDraw d1 t) size)
    as (d2 & Hhelp & Hl2 & Hp2 & Hsz2 & Htx2).
  { cbn [Test.debugDraw Test.set_debugDraw]. by rewrite Ht1. }
  rewrite Hhelp.
  cbn [Test.debugDraw Test.set_debugDraw Test.set_frameTimeMovingAverage
       Test.frameTimeMovingAverage Test.isPause] in *.
  assert (Hd2 : DebugDraw.invariant d2).
  { destruct Hd1 as (? & ? & ?). unfold DebugDraw.invariant. by rewrite Hl2, Hp2. }
  destruct (DebugDrawAccounts.draw_flush_accounts e1 d2 Hd2)
    as (e3 & d3 & Hfl & Hd3 & _ & _ & _ & Hg3 & _ & _ & _ & Ht3).
  rewrite Hfl. cbn [mbind option_bind]. unfold Test.drawContacts.
  cbn [Test.debugDraw Test.set_debugDraw Test.set_frameTimeMovingAverage Test.contacts].
  destruct (TestHelp.drawContacts_text (Test.contacts t) e3 d3) as [Ht4 Hg4].
  destruct (foldl _ (e3, d3) (Test.contacts t)) as [e4 d4]. cbn [fst snd] in *.
  cbv beta iota zeta. eexists _, _. split; [reflexivity|].
  cbn [Test.debugDraw Test.frameTimeMovingAverage Test.clearContacts
       Test.set_contacts Test.set_debugDraw].
  destruct Hpage1 as (_ & _ & _ & Hcanvas).
  split; [|split; [done|]].
  - rewrite Hg4, Hg3, Hg1, Hsz2, Htx2, Hcanvas. reflexivity.
  - by rewrite Ht4, Ht3, Hsz2.
Qed.
End HelpDisplay.

(** The first frame of the fresh test of the concrete page. *)
Lemma draw_shows_the_help_witness :
  exists e' t',
    Test.draw (Sample.Lit 16) (Sample.page, Sample.paused) = Some (e', t')
    /\ Env.gl2d e'
       = [ G2D.clearRect (Sample.Lit 0) (Sample.Lit 0) (Sample.Lit 800) (Sample.Lit 600);
           G2D.set_fillStyle "#FFFFFF";
           G2D.set_font "12px Courier New";
           G2D.set_textBaseline "top";
           G2D.fillText "[R] - reset; [P] - pause; [O] - step"
             (Sample.Lit 0) (RenderText.row (Sample.Lit 12) 0);
           G2D.fillText "FPS: floor((1000/16))"
             (Sample.Lit 0) (RenderText.row (Sample.Lit 12) 1);
           G2D.fillText "Frame time: 16.3 ms"
             (Sample.Lit 0) (RenderText.row (Sample.Lit 12) 2);
           G2D.fillText "[PAUSE]"
             (Sample.Lit 0) (RenderText.row (Sample.Lit 12) 3) ].
Proof.
  assert (Hinv : Test.invariant Sample.paused).
  { split; [|apply NoDup_nil_2].
    exact (DebugDrawFacts.draw_invariant_new 0 1 2 Sample.lineInfo 6 7 8
             Sample.pointInfo None). }
  assert (Hshapes : Forall DebugDraw.draws_shape
                      (World_drawDebugData (Test.world Sample.paused)))
    by constructor.
  destruct (draw_shows_the_help (Sample.Lit 16) Sample.page Sample.paused
              (Sample.Lit 12) Hinv eq_refl Hshapes)
    as (e' & t' & Hdraw & Hg & _).
  exists e', t'. split; [exact Hdraw|]. exact Hg.
Defined.
